(** * Dataset analysis engine: column typing, statistics, data quality,
      correlations, outliers and time trends

    A shallow embedding of the two analysis services of the report generator
    (the data-processing utilities with [detectColumnTypes] and
    [analyzeDataQuality], and the analysis service with [detectTimeTrends],
    [findCorrelations] and [identifyOutliers]) together with the part of the
    JavaScript runtime they rely on.

    Numbers.  A JavaScript number is modelled by [JS.num]: [NaN], the two
    infinities, or an exact rational.  Rounding of IEEE doubles, overflow to
    infinity and the sign of zero are not modelled; NaN and infinity
    propagation, division by zero and comparisons follow IEEE 754.
    [Math.sqrt] is kept exact as well: its results live in [JS.snum], numbers
    of the form [c * sqrt r] with rational [c] and [r]. *)

From Stdlib Require Import QArith Qcanon Qround ZArith Lia Ascii String.
From Stdlib Require Import Sorting.Sorted Sorting.Permutation.
From Stdlib Require Import Reals Qreals Lra.
From stdpp Require Import base numbers strings list gmap.

(* ================================================================== *)
(** ** The JavaScript runtime used by the services *)
(* ================================================================== *)

Module JS.

(** *** Numbers *)

Inductive num : Type :=
| NaN
| PInf
| NInf
| Fin (q : Qc).

#[global] Instance num_eq_dec : EqDecision num.
Proof. solve_decision. Defined.

Definition Qcltb (x y : Qc) : bool :=
  (Qnum x * QDen y <? Qnum y * QDen x)%Z.
Definition Qcleb (x y : Qc) : bool := negb (Qcltb y x).
Definition Qc_is_zero (x : Qc) : bool := (Qnum x =? 0)%Z.
Definition Qc_is_neg (x : Qc) : bool := (Qnum x <? 0)%Z.

Definition of_Z (z : Z) : num := Fin (Qc_of_Z z).
Definition of_nat (n : nat) : num := of_Z (Z.of_nat n).
(** A decimal constant [n / d], as in [1.5] or [0.4]. *)
Definition ratio (n : Z) (d : positive) : Qc := Q2Qc (n # d).

Definition isNaN (a : num) : bool :=
  match a with NaN => true | _ => false end.

(** The numbers other than NaN and the infinities. *)
Definition finite (a : num) : Prop := exists q, a = Fin q.

Definition inf (negative : bool) : num := if negative then NInf else PInf.

Definition neg (a : num) : num :=
  match a with
  | NaN => NaN
  | PInf => NInf
  | NInf => PInf
  | Fin x => Fin (- x)%Qc
  end.

Definition add (a b : num) : num :=
  match a, b with
  | NaN, _ | _, NaN => NaN
  | PInf, NInf | NInf, PInf => NaN
  | PInf, _ | _, PInf => PInf
  | NInf, _ | _, NInf => NInf
  | Fin x, Fin y => Fin (x + y)%Qc
  end.

Definition sub (a b : num) : num := add a (neg b).

(** An infinity times a finite number: NaN for zero, otherwise the
    infinity with the product of the signs. *)
Definition inf_times (negative : bool) (x : Qc) : num :=
  if Qc_is_zero x then NaN else inf (xorb negative (Qc_is_neg x)).

Definition mul (a b : num) : num :=
  match a, b with
  | NaN, _ | _, NaN => NaN
  | Fin x, Fin y => Fin (x * y)%Qc
  | PInf, Fin x | Fin x, PInf => inf_times false x
  | NInf, Fin x | Fin x, NInf => inf_times true x
  | PInf, PInf | NInf, NInf => PInf
  | PInf, NInf | NInf, PInf => NInf
  end.

Definition div (a b : num) : num :=
  match a, b with
  | NaN, _ | _, NaN => NaN
  | Fin x, Fin y =>
      if Qc_is_zero y
      then (if Qc_is_zero x then NaN else inf (Qc_is_neg x))
      else Fin (x / y)%Qc
  | Fin _, (PInf | NInf) => Fin 0%Qc
  | (PInf | NInf), (PInf | NInf) => NaN
  | PInf, Fin y => inf (Qc_is_neg y)
  | NInf, Fin y => inf (negb (Qc_is_neg y))
  end.

(** [a < b]; every comparison with NaN is false. *)
Definition lt (a b : num) : bool :=
  match a, b with
  | NaN, _ | _, NaN => false
  | _, NInf => false
  | NInf, _ => true
  | PInf, _ => false
  | Fin _, PInf => true
  | Fin x, Fin y => Qcltb x y
  end.

Definition gt (a b : num) : bool := lt b a.

(** [a === b] on numbers. *)
Definition strict_eq (a b : num) : bool :=
  match a with
  | NaN => false
  | _ => bool_decide (a = b)
  end.

Definition abs (a : num) : num :=
  match a with
  | NaN => NaN
  | PInf | NInf => PInf
  | Fin x => Fin (if Qc_is_neg x then (- x)%Qc else x)
  end.

Definition zero : num := Fin 0%Qc.

(** [Math.min(...xs)] and [Math.max(...xs)]: the infinities for no
    argument, NaN as soon as one argument is NaN. *)
Definition min2 (a b : num) : num :=
  if isNaN a || isNaN b then NaN else if lt b a then b else a.
Definition max2 (a b : num) : num :=
  if isNaN a || isNaN b then NaN else if lt a b then b else a.
Definition Math_min (xs : list num) : num := foldl min2 PInf xs.
Definition Math_max (xs : list num) : num := foldl max2 NInf xs.

(** [Math.pow(x, 2)]. *)
Definition square (a : num) : num := mul a a.

(** Floor and rounding to the nearest integer, halves upwards. *)
Definition Qc_floor (x : Qc) : Z := (Qnum x / QDen x)%Z.
Definition Qc_round (x : Qc) : Z := Qc_floor (x + ratio 1 2)%Qc.
Definition Qc_abs (x : Qc) : Qc := if Qc_is_neg x then (- x)%Qc else x.

(** [x.toFixed(2)].  The resulting string is represented by the number
    it spells: "NaN" and the infinities by themselves, a decimal string by
    the multiple of 1/100 nearest to [x] (halves away from zero); from
    [10^21] on, [toFixed] prints the number itself.  [Number] and
    [parseFloat] applied to the string give this number back. *)
Definition toFixed2 (a : num) : num :=
  match a with
  | Fin x =>
      if Qcltb (Qc_abs x) (Qc_of_Z (10 ^ 21))
      then
        let n := Qc_round (Qc_abs x * Qc_of_Z 100)%Qc in
        Fin (Qc_of_Z (if Qc_is_neg x then - n else n) / Qc_of_Z 100)%Qc
      else Fin x
  | _ => a
  end.

(** *** Results of [Math.sqrt]

    [SFin c r] stands for the real number [c * sqrt r], with [0 <= r]. *)

Inductive snum : Type :=
| SNaN
| SPInf
| SNInf
| SFin (c r : Qc).

#[global] Instance snum_eq_dec : EqDecision snum.
Proof. solve_decision. Defined.

(** The real number that [SFin c r] stands for. *)
Definition real_of (c r : Qc) : R := (Q2R c * sqrt (Q2R r))%R.

Definition Math_sqrt (a : num) : snum :=
  match a with
  | NaN | NInf => SNaN
  | PInf => SPInf
  | Fin x => if Qc_is_neg x then SNaN else SFin 1%Qc x
  end.

(** [s === 0]. *)
Definition s_is_zero (s : snum) : bool :=
  match s with
  | SFin c r => Qc_is_zero (c * r)%Qc
  | _ => false
  end.

Definition s_inf (negative : bool) : snum := if negative then SNInf else SPInf.

(** [a / s], using [n / (c * sqrt r) = (n / (c * r)) * sqrt r]. *)
Definition div_s (a : num) (s : snum) : snum :=
  match a, s with
  | NaN, _ | _, SNaN => SNaN
  | Fin x, SFin c r =>
      if Qc_is_zero (c * r)%Qc
      then (if Qc_is_zero x then SNaN else s_inf (Qc_is_neg x))
      else SFin (x / (c * r))%Qc r
  | Fin _, (SPInf | SNInf) => SFin 0%Qc 0%Qc
  | (PInf | NInf), (SPInf | SNInf) => SNaN
  | PInf, SFin c _ => s_inf (Qc_is_neg c)
  | NInf, SFin c _ => s_inf (negb (Qc_is_neg c))
  end.

Definition s_abs (s : snum) : snum :=
  match s with
  | SNaN => SNaN
  | SPInf | SNInf => SPInf
  | SFin c r => SFin (Qc_abs c) r
  end.

(** The square of a finite [snum], a rational. *)
Definition s_square (c r : Qc) : Qc := (c * c * r)%Qc.

(** [s > t] for a rational [t], decided on the squares. *)
Definition s_gt (s : snum) (t : Qc) : bool :=
  match s with
  | SNaN | SNInf => false
  | SPInf => true
  | SFin c r =>
      if Qc_is_neg t
      then negb (Qc_is_neg c) || Qcltb (s_square c r) (t * t)%Qc
      else Qcltb 0%Qc c && Qcltb (t * t)%Qc (s_square c r)
  end.

(** [|a| < |b|] for two finite results. *)
Definition s_abs_lt (a b : snum) : bool :=
  match a, b with
  | SFin c r, SFin c' r' => Qcltb (s_square c r) (s_square c' r')
  | SFin _ _, (SPInf | SNInf) => true
  | _, _ => false
  end.

(** [s.toFixed(2)] for a result of absolute value below [10^21]:
    [floor (100 |s| + 1/2) = (floor (sqrt (200^2 * s^2)) + 1) / 2]. *)
Definition s_toFixed2 (s : snum) : num :=
  match s with
  | SNaN => NaN
  | SPInf => PInf
  | SNInf => NInf
  | SFin c r =>
      let n := ((Z.sqrt (Qc_floor (Qc_of_Z 40000 * s_square c r)%Qc) + 1) / 2)%Z in
      Fin (Qc_of_Z (if Qc_is_neg c then - n else n) / Qc_of_Z 100)%Qc
  end.

(** *** Values *)

Inductive value : Type :=
| JNull
| JUndef
| JNum (n : num)
| JStr (s : string)
| JBool (b : bool).

#[global] Instance value_eq_dec : EqDecision value.
Proof. solve_decision. Defined.

Inductive type_tag : Type :=
| TObject | TUndefined | TNumber | TString | TBoolean.

#[global] Instance type_tag_eq_dec : EqDecision type_tag.
Proof. solve_decision. Defined.

(** [typeof v]; [typeof null] is "object". *)
Definition typeof (v : value) : type_tag :=
  match v with
  | JNull => TObject
  | JUndef => TUndefined
  | JNum _ => TNumber
  | JStr _ => TString
  | JBool _ => TBoolean
  end.

(** [v !== null && v !== undefined]. *)
Definition not_nullish (v : value) : bool :=
  match v with
  | JNull | JUndef => false
  | _ => true
  end.

(** *** [Number] applied to a string (StringToNumber)

    White space is trimmed; the empty string is 0; a decimal literal has
    an optional sign, digits with an optional fraction and an optional
    exponent, or is [Infinity]; [0x], [0o] and [0b] literals are unsigned;
    everything else is NaN.  Only the ASCII white space characters are
    recognised. *)

Definition is_ws (c : ascii) : bool :=
  let n := N_of_ascii c in
  ((9 <=? n) && (n <=? 13) || (n =? 32))%N.

Fixpoint drop_ws (l : list ascii) : list ascii :=
  match l with
  | c :: t => if is_ws c then drop_ws t else l
  | [] => []
  end.

Definition trim (l : list ascii) : list ascii :=
  rev (drop_ws (rev (drop_ws l))).

Definition digit_val (base : N) (c : ascii) : option N :=
  let n := N_of_ascii c in
  let d :=
    if ((48 <=? n) && (n <=? 57))%N then Some (n - 48)%N
    else if ((97 <=? n) && (n <=? 102))%N then Some (n - 87)%N
    else if ((65 <=? n) && (n <=? 70))%N then Some (n - 55)%N
    else None in
  match d with
  | Some v => if (v <? base)%N then Some v else None
  | None => None
  end.

(** Reads the longest prefix of digits: its value, its length, the rest. *)
Fixpoint read_digits (base acc : N) (count : nat) (l : list ascii)
  : N * nat * list ascii :=
  match l with
  | c :: t =>
      match digit_val base c with
      | Some d => read_digits base (acc * base + d)%N (S count) t
      | None => (acc, count, l)
      end
  | [] => (acc, count, [])
  end.

Definition pow10 (e : Z) : Qc :=
  if (e <? 0)%Z then (1 / Qc_of_Z (10 ^ (- e)))%Qc else Qc_of_Z (10 ^ e).

Definition is_char (c : ascii) (s : string) : bool :=
  bool_decide (String c EmptyString = s).

(** The exponent part, if any, and what follows it. *)
Definition read_exponent (l : list ascii) : option (Z * list ascii) :=
  match l with
  | c :: t =>
      if is_char c "e" || is_char c "E" then
        let '(negative, t') :=
          match t with
          | s :: u =>
              if is_char s "-" then (true, u)
              else if is_char s "+" then (false, u)
              else (false, t)
          | [] => (false, t)
          end in
        let '(e, n, rest) := read_digits 10 0 0 t' in
        if decide (n = 0) then None
        else Some (if negative then (- Z.of_N e)%Z else Z.of_N e, rest)
      else Some (0%Z, l)
  | [] => Some (0%Z, [])
  end.

Definition unsigned_decimal (l : list ascii) : num :=
  if bool_decide (l = list_ascii_of_string "Infinity") then PInf
  else
    let '(ip, ni, r1) := read_digits 10 0 0 l in
    let '(fp, nf, r2) :=
      match r1 with
      | c :: t => if is_char c "." then read_digits 10 0 0 t else (0%N, 0, r1)
      | [] => (0%N, 0, r1)
      end in
    if decide (ni + nf = 0) then NaN
    else
      match read_exponent r2 with
      | Some (e, []) =>
          Fin ((Qc_of_Z (Z.of_N ip)
                + Qc_of_Z (Z.of_N fp) * pow10 (- Z.of_nat nf)) * pow10 e)%Qc
      | _ => NaN
      end.

Definition radix_literal (base : N) (l : list ascii) : num :=
  match read_digits base 0 0 l with
  | (v, S _, []) => of_Z (Z.of_N v)
  | _ => NaN
  end.

Definition StringToNumber (s : string) : num :=
  match trim (list_ascii_of_string s) with
  | [] => zero
  | c :: t =>
      if is_char c "-" then neg (unsigned_decimal t)
      else if is_char c "+" then unsigned_decimal t
      else
        match t with
        | p :: u =>
            if is_char c "0" && (is_char p "x" || is_char p "X")
            then radix_literal 16 u
            else if is_char c "0" && (is_char p "o" || is_char p "O")
            then radix_literal 8 u
            else if is_char c "0" && (is_char p "b" || is_char p "B")
            then radix_literal 2 u
            else unsigned_decimal (c :: t)
        | [] => unsigned_decimal (c :: t)
        end
  end.

(** [Number(v)]. *)
Definition Number (v : value) : num :=
  match v with
  | JNull => zero
  | JUndef => NaN
  | JNum n => n
  | JStr s => StringToNumber s
  | JBool b => if b then of_Z 1 else zero
  end.

(** *** Dates

    [new Date(v).getTime()]: a string is parsed by [Date.parse], passed as
    [parse]; any other value is converted to a number and clipped to the
    range of time values. *)

Definition TimeClip (a : num) : num :=
  match a with
  | Fin x =>
      if Qcltb (Qc_of_Z 8640000000000000) (Qc_abs x) then NaN
      else of_Z (Z.quot (Qnum x) (QDen x))
  | _ => NaN
  end.

Definition Date_getTime (parse : string -> num) (v : value) : num :=
  match v with
  | JStr s => parse s
  | _ => TimeClip (Number v)
  end.

(** *** Objects and arrays

    A plain object is the sequence of its own properties in the order
    [Object.keys] lists them; a well-formed object has no key twice. *)

Definition object (V : Type) : Type := list (string * V).

Definition Object_keys {V} (o : object V) : list string := o.*1.
Definition Object_values {V} (o : object V) : list V := o.*2.

(** [o[k]] for reading: [None] stands for [undefined]. *)
Fixpoint get {V} (o : object V) (k : string) : option V :=
  match o with
  | [] => None
  | (k', v) :: o' => if decide (k' = k) then Some v else get o' k
  end.

(** [o[k] = v]: replaces the property in place or appends it. *)
Fixpoint set {V} (o : object V) (k : string) (v : V) : object V :=
  match o with
  | [] => [(k, v)]
  | (k', v') :: o' =>
      if decide (k' = k) then (k, v) :: o' else (k', v') :: set o' k v
  end.

(** A data row and the cell [row[col]]. *)
Definition row : Type := object value.

Definition cell (r : row) (col : string) : value :=
  default JUndef (get r col).

(** [xs[i]] on an array of numbers used in arithmetic: out of range it is
    [undefined], which arithmetic turns into NaN; [num_at] keeps the
    distinction, [arith] applies the conversion. *)
Definition num_at (xs : list num) (i : nat) : option num := xs !! i.
Definition arith (x : option num) : num := default NaN x.

(** [xs.sort(cmp)].  The sort is stable and [cmp a b > 0] puts [a] after
    [b]; a NaN result counts as 0.  For a comparator that is a consistent
    ordering this list is the result of every conforming engine; for other
    comparators the standard leaves the order to the engine, and this
    (insertion sort) is one admissible outcome. *)
Fixpoint sort_insert {A} (cmp : A -> A -> num) (x : A) (l : list A) : list A :=
  match l with
  | [] => [x]
  | y :: l' =>
      if gt (cmp x y) zero then y :: sort_insert cmp x l' else x :: y :: l'
  end.

Definition sort {A} (cmp : A -> A -> num) (l : list A) : list A :=
  foldr (sort_insert cmp) [] l.

(** [new Set(xs)], in insertion order; [size] is its length.  Set
    membership (SameValueZero) is equality of model values. *)
Definition Set_add {A} `{EqDecision A} (s : list A) (x : A) : list A :=
  if decide (x ∈ s) then s else s ++ [x].
Definition Set_of {A} `{EqDecision A} (xs : list A) : list A :=
  foldl Set_add [] xs.

(** [xs.reduce((sum, x) => sum + f(x), 0)]. *)
Definition reduce_sum {A} (f : A -> num) (xs : list A) : num :=
  foldl (fun sum x => add sum (f x)) zero xs.

(** *** [JSON.stringify] of a row

    The text produced is represented by the sequence of members it
    contains: a property whose value is [undefined] is left out, NaN and
    the infinities are written [null].  Two rows have the same text
    exactly when they have the same sequence. *)

Inductive json : Type :=
| JsonNull
| JsonNum (q : Qc)
| JsonStr (s : string)
| JsonBool (b : bool).

#[global] Instance json_eq_dec : EqDecision json.
Proof. solve_decision. Defined.

Definition json_of (v : value) : option json :=
  match v with
  | JUndef => None
  | JNull => Some JsonNull
  | JNum (Fin q) => Some (JsonNum q)
  | JNum _ => Some JsonNull
  | JStr s => Some (JsonStr s)
  | JBool b => Some (JsonBool b)
  end.

Definition JSON_stringify (r : row) : list (string * json) :=
  omap (fun kv => pair kv.1 <$> json_of kv.2) r.

End JS.

(* ================================================================== *)
(** ** Common types *)
(* ================================================================== *)

Module Types.
Import JS.

Inductive ColumnType : Type :=
| numeric | categorical | datetime | boolean | text.

#[global] Instance ColumnType_eq_dec : EqDecision ColumnType.
Proof. solve_decision. Defined.

(** [DataColumn]; an optional field that is absent is [None].  An entry
    of [quartiles] read beyond the end of the sorted array is
    [undefined], here [None]. *)
Record DataColumn : Type := {
  name : string;
  type : ColumnType;
  uniqueValues : option nat;
  missingValues : option nat;
  missingPercentage : option num;
  min : option num;
  max : option num;
  mean : option num;
  median : option num;
  stdDev : option snum;
  quartiles : option (option num * option num * option num)
}.

#[global] Instance DataColumn_eq_dec : EqDecision DataColumn.
Proof. solve_decision. Defined.

Inductive Strength : Type := weak | moderate | strong.
Inductive Direction : Type := positive | negative.
Inductive TrendDirection : Type := increasing | decreasing | stable.

#[global] Instance Strength_eq_dec : EqDecision Strength.
Proof. solve_decision. Defined.
#[global] Instance Direction_eq_dec : EqDecision Direction.
Proof. solve_decision. Defined.
#[global] Instance TrendDirection_eq_dec : EqDecision TrendDirection.
Proof. solve_decision. Defined.

(** An entry of the list returned by [findCorrelations]; [correlation]
    holds the string made by [toFixed(2)]. *)
Record Correlation : Type := {
  columns : string * string;
  correlation : num;
  strength : Strength;
  direction : Direction
}.

#[global] Instance Correlation_eq_dec : EqDecision Correlation.
Proof. solve_decision. Defined.

Record Boundaries : Type := { lower : num; upper : num }.

#[global] Instance Boundaries_eq_dec : EqDecision Boundaries.
Proof. solve_decision. Defined.

(** An entry of the object returned by [identifyOutliers]; [percentage]
    holds the string made by [toFixed(2)]. *)
Record OutlierInfo : Type := {
  count : nat;
  percentage : num;
  boundaries : Boundaries;
  examples : list row
}.

#[global] Instance OutlierInfo_eq_dec : EqDecision OutlierInfo.
Proof. solve_decision. Defined.

(** The object returned by [detectTimeTrends]; [percentChange] holds the
    string made by [toFixed(2)]. *)
Record Trend : Type := {
  trendDirection : TrendDirection;
  percentChange : num;
  seasonality : bool;
  movingAverage : list num
}.

#[global] Instance Trend_eq_dec : EqDecision Trend.
Proof. solve_decision. Defined.

(** The object returned by [analyzeDataQuality], the [dataQuality]
    field of [DatasetInfo]. *)
Module DataQuality.
Record t : Type := {
  missingValues : nat;
  duplicateRows : nat;
  outliers : nat
}.
End DataQuality.

End Types.

(* ================================================================== *)
(** ** Data processing: column typing and data quality *)
(* ================================================================== *)

Module DataProcessing.
Import JS Types.
Local Open Scope string_scope.

Section WithRuntime.
(** [Date.parse] accepts formats of the engine's own choosing beyond
    the ISO format, and [Number.prototype.toString] prints the shortest
    digits that identify a double: both are left to the runtime. *)
Variable Date_parse : string -> num.
Variable Number_toString : num -> string.

(** [String(v)]. *)
Definition String_ (v : value) : string :=
  match v with
  | JNull => "null"
  | JUndef => "undefined"
  | JNum n => Number_toString n
  | JStr s => s
  | JBool b => if b then "true" else "false"
  end.

(** [typeof val === 'number' ||
     (typeof val === 'string' && !isNaN(Number(val)))] *)
Definition numeric_like (val : value) : bool :=
  bool_decide (typeof val = TNumber)
  || (bool_decide (typeof val = TString) && negb (isNaN (Number val))).

Definition boolean_like (val : value) : bool :=
  bool_decide (typeof val = TBoolean)
  || bool_decide (val = JNum (of_Z 0)) || bool_decide (val = JNum (of_Z 1))
  || bool_decide (val = JStr "0") || bool_decide (val = JStr "1")
  || bool_decide (val = JStr "true") || bool_decide (val = JStr "false")
  || bool_decide (val = JStr "yes") || bool_decide (val = JStr "no")
  || bool_decide (val = JStr "y") || bool_decide (val = JStr "n").

(** [!isNaN(Date.parse(String(val)))] *)
Definition date_like (val : value) : bool :=
  negb (isNaN (Date_parse (String_ val))).

(** The non-missing values of a column in the sample:
    [sample.map(row => row[colName])
           .filter(val => val !== null && val !== undefined)]. *)
Definition sample_values (sample : list row) (colName : string) : list value :=
  filter (fun val => not_nullish val = true)
         (map (fun r => cell r colName) sample).

(** The chain of [if ... else if ...] that determines the type.  The
    test [uniqueValues < sampleSize * 0.2] is evaluated on rationals; on
    doubles it has the same outcome for every sample size up to 100. *)
Definition infer_type (values : list value) (uniqueValues sampleSize : nat)
  : ColumnType :=
  if forallb numeric_like values then numeric
  else if forallb boolean_like values then boolean
  else if forallb date_like values then datetime
  else if lt (of_nat uniqueValues) (mul (of_nat sampleSize) (Fin (ratio 2 10)))
          && (0 <? length values)%nat
  then categorical
  else text.

(** The sorted copy [[...numericValues].sort((a, b) => a - b)]. *)
Definition sort_numbers (xs : list num) : list num := sort sub xs.

(** The median.  [Math.floor(n / 2)] is the quotient [n / 2]; for the
    empty array both [sorted[-1]] and [sorted[0]] are [undefined]. *)
Definition median_of (sorted : list num) : option num :=
  let middle := length sorted / 2 in
  if (length sorted mod 2 =? 0)%nat
  then Some (div (add (arith (num_at sorted (middle - 1)))
                      (arith (num_at sorted middle)))
                 (of_Z 2))
  else num_at sorted middle.

(** The quartiles.  The products [n * 0.25], [n * 0.5] and [n * 0.75]
    are exact on doubles, so their floors are the quotients below. *)
Definition quartiles_of (sorted : list num)
  : option num * option num * option num :=
  (num_at sorted (length sorted / 4),
   num_at sorted (length sorted / 2),
   num_at sorted (length sorted * 3 / 4)).

Definition mean_of (numericValues : list num) : num :=
  div (reduce_sum (fun val => val) numericValues)
      (of_nat (length numericValues)).

Definition stdDev_of (numericValues : list num) (mean : num) : snum :=
  Math_sqrt
    (div (reduce_sum (fun val => square (sub val mean)) numericValues)
         (of_nat (length numericValues))).

(** The body of [columnNames.forEach]: the metadata of one column. *)
Definition column_info (sample : list row) (sampleSize : nat)
  (colName : string) : DataColumn :=
  let values := sample_values sample colName in
  let uniqueValues := length (Set_of values) in
  let missingCount := length sample - length values in
  let missingPercentage :=
    mul (div (of_nat missingCount) (of_nat (length sample))) (of_Z 100) in
  let type := infer_type values uniqueValues sampleSize in
  if decide (type = numeric) then
    let numericValues := map Number values in
    let sorted := sort_numbers numericValues in
    let mean := mean_of numericValues in
    {| name := colName; type := type;
       uniqueValues := Some uniqueValues;
       missingValues := Some missingCount;
       missingPercentage := Some missingPercentage;
       min := Some (Math_min numericValues);
       max := Some (Math_max numericValues);
       mean := Some mean;
       median := median_of sorted;
       stdDev := Some (stdDev_of numericValues mean);
       quartiles := Some (quartiles_of sorted) |}
  else
    {| name := colName; type := type;
       uniqueValues := Some uniqueValues;
       missingValues := Some missingCount;
       missingPercentage := Some missingPercentage;
       min := None; max := None; mean := None; median := None;
       stdDev := None; quartiles := None |}.

Definition detectColumnTypes (data : list row) : object DataColumn :=
  match data with
  | [] => []
  | first :: _ =>
      let sampleSize := Nat.min 100 (length data) in
      let sample := take sampleSize data in
      let columnNames := Object_keys first in
      foldl (fun columns colName =>
               set columns colName (column_info sample sampleSize colName))
            [] columnNames
  end.

(** [value === null || value === undefined || value === '' ||
     value === 'null' || value === 'undefined'] *)
Definition is_missing (v : value) : bool :=
  bool_decide (v = JNull) || bool_decide (v = JUndef)
  || bool_decide (v = JStr "") || bool_decide (v = JStr "null")
  || bool_decide (v = JStr "undefined").

(** The counter [totalMissingValues] after the two nested [forEach]. *)
Definition count_missing (data : list row) : nat :=
  foldl (fun total r =>
           foldl (fun total value =>
                    if is_missing value then S total else total)
                 total (Object_values r))
        0 data.

(** The counter [outlierCount] after the scan of one column. *)
Definition scan_column (data : list row) (column : DataColumn)
  (outlierCount : nat) : nat :=
  match type column, quartiles column with
  | numeric, Some (q0, _, q2) =>
      let iqr := sub (arith q2) (arith q0) in
      let lowerBound := sub (arith q0) (mul (Fin (ratio 15 10)) iqr) in
      let upperBound := add (arith q2) (mul (Fin (ratio 15 10)) iqr) in
      foldl (fun outlierCount r =>
               let value := Number (cell r (name column)) in
               if negb (isNaN value)
                  && (lt value lowerBound || gt value upperBound)
               then S outlierCount else outlierCount)
            outlierCount data
  | _, _ => outlierCount
  end.

Definition analyzeDataQuality (data : list row) : DataQuality.t :=
  match data with
  | [] => {| DataQuality.missingValues := 0;
             DataQuality.duplicateRows := 0;
             DataQuality.outliers := 0 |}
  | _ =>
      let totalMissingValues := count_missing data in
      let stringifiedRows := map JSON_stringify data in
      let uniqueRows := Set_of stringifiedRows in
      let duplicateRows := length data - length uniqueRows in
      let columns := detectColumnTypes data in
      let outlierCount :=
        foldl (fun outlierCount column => scan_column data column outlierCount)
              0 (Object_values columns) in
      {| DataQuality.missingValues := totalMissingValues;
         DataQuality.duplicateRows := duplicateRows;
         DataQuality.outliers := outlierCount |}
  end.

End WithRuntime.
End DataProcessing.

(* ================================================================== *)
(** ** Analysis service: trends, correlations, outliers *)
(* ================================================================== *)

Module Analysis.
Import JS Types.
Local Open Scope string_scope.

(** *** [detectTimeTrends] *)

(** [values.map((val, idx, arr) => ...)]: no average for the first and
    the last index. *)
Definition movingAvg_at (arr : list num) (idx : nat) (val : num) : option num :=
  if (idx <? 1)%nat || (length arr - 1 <=? idx)%nat then None
  else Some (div (add (add (arith (num_at arr (idx - 1))) val)
                      (arith (num_at arr (idx + 1))))
                 (of_Z 3)).

(** The array [diffs] built by the first [for] loop. *)
Fixpoint differences (values : list num) : list num :=
  match values with
  | prev :: (cur :: _) as rest => sub cur prev :: differences rest
  | _ => []
  end.

(** The counter [signChanges] after the second [for] loop. *)
Fixpoint sign_changes (diffs : list num) : nat :=
  match diffs with
  | prev :: (cur :: _) as rest =>
      (if (gt cur zero && lt prev zero) || (lt cur zero && gt prev zero)
       then 1 else 0)%nat + sign_changes rest
  | _ => 0%nat
  end.

Definition average (xs : list num) : num :=
  div (reduce_sum (fun val => val) xs) (of_nat (length xs)).

Section WithRuntime.
Variable Date_parse : string -> num.

(** The comparator of the sort by date. *)
Definition by_date (dateColumn : string) (a b : row) : num :=
  sub (Date_getTime Date_parse (cell a dateColumn))
      (Date_getTime Date_parse (cell b dateColumn)).

(** [None] is the [null] result.  No operation of the [try] block
    throws on rows that are objects, so its [catch] is never entered. *)
Definition detectTimeTrends (data : list row) (dateColumn valueColumn : string)
  : option Trend :=
  if (length data <? 5)%nat then None
  else
    let sortedData := sort (by_date dateColumn) data in
    let values := map (fun item => Number (cell item valueColumn)) sortedData in
    let movingAvg := imap (movingAvg_at values) values in
    let firstQuarter := take (length values / 4) values in
    let lastQuarter := drop (length values * 3 / 4) values in
    let firstAvg := average firstQuarter in
    let lastAvg := average lastQuarter in
    let percentChange :=
      mul (div (sub lastAvg firstAvg) firstAvg) (of_Z 100) in
    let trendDirection :=
      if gt percentChange (of_Z 10) then increasing
      else if lt percentChange (of_Z (-10)) then decreasing
      else stable in
    let diffs := differences values in
    let signChanges := sign_changes diffs in
    let seasonality :=
      gt (of_nat signChanges) (mul (of_nat (length diffs)) (Fin (ratio 4 10))) in
    Some {| trendDirection := trendDirection;
            percentChange := toFixed2 percentChange;
            seasonality := seasonality;
            movingAverage := omap (fun val => val) movingAvg |}.
End WithRuntime.

(** *** [findCorrelations] *)

(** The columns with [col.type === 'numeric']. *)
Definition numeric_columns (columns : object DataColumn) : list DataColumn :=
  filter (fun col => type col = numeric) (Object_values columns).

(** The pairs [(xs[i], xs[j])], [i < j], in the order of the two nested
    [for] loops. *)
Fixpoint index_pairs {A} (xs : list A) : list (A * A) :=
  match xs with
  | [] => []
  | x :: rest => map (pair x) rest ++ index_pairs rest
  end.

(** The array [pairs]: the coordinates of the rows in which neither cell
    is null or undefined. *)
Definition paired_values (data : list row) (col1 col2 : string)
  : list (num * num) :=
  map (fun r => (Number (cell r col1), Number (cell r col2)))
      (filter (fun r => not_nullish (cell r col1) && not_nullish (cell r col2) = true)
              data).

Definition numerator_of (pairs : list (num * num)) : num :=
  let n := of_nat (length pairs) in
  let sumX := reduce_sum fst pairs in
  let sumY := reduce_sum snd pairs in
  let sumXY := reduce_sum (fun p => mul p.1 p.2) pairs in
  sub (mul n sumXY) (mul sumX sumY).

Definition denominator_of (pairs : list (num * num)) : snum :=
  let n := of_nat (length pairs) in
  let sumX := reduce_sum fst pairs in
  let sumY := reduce_sum snd pairs in
  let sumX2 := reduce_sum (fun p => mul p.1 p.1) pairs in
  let sumY2 := reduce_sum (fun p => mul p.2 p.2) pairs in
  Math_sqrt (mul (sub (mul n sumX2) (mul sumX sumX))
                 (sub (mul n sumY2) (mul sumY sumY))).

(** The coefficient [numerator / denominator]. *)
Definition pearson (pairs : list (num * num)) : snum :=
  div_s (numerator_of pairs) (denominator_of pairs).

(** The body of the inner loop: the entry pushed for a pair of columns,
    [None] where the loop continues without pushing. *)
Definition correlate (data : list row) (col1 col2 : string) : option Correlation :=
  let pairs := paired_values data col1 col2 in
  if (length pairs <? 5)%nat then None
  else if s_is_zero (denominator_of pairs) then None
  else
    let correlation := pearson pairs in
    if s_gt (s_abs correlation) (ratio 5 10) then
      Some {| columns := (col1, col2);
              correlation := s_toFixed2 correlation;
              strength := if s_gt (s_abs correlation) (ratio 8 10)
                          then strong else moderate;
              direction := if s_gt correlation 0%Qc
                           then positive else negative |}
    else None.

(** The comparator
    [(a, b) => Math.abs(Number(b.correlation)) - Math.abs(Number(a.correlation))]. *)
Definition by_strength (a b : Correlation) : num :=
  sub (abs (correlation b)) (abs (correlation a)).

Definition findCorrelations (data : list row) (columns : object DataColumn)
  : list Correlation :=
  match data with
  | [] => []
  | _ =>
      let numericColumns := numeric_columns columns in
      let correlations :=
        omap (fun p => correlate data (name p.1) (name p.2))
             (index_pairs numericColumns) in
      sort by_strength correlations
  end.

(** *** [identifyOutliers] *)

(** [data.map(row => row[colName])
        .filter(val => val !== null && val !== undefined)
        .map(val => Number(val))] *)
Definition column_values (data : list row) (colName : string) : list num :=
  map Number
      (filter (fun val => not_nullish val = true)
              (map (fun r => cell r colName) data)).

(** The local variables [q1], [q3], [iqr], [lowerBound], [upperBound]. *)
Record Fences : Type := {
  q1 : num; q3 : num; iqr : num; lowerBound : num; upperBound : num
}.

#[global] Instance Fences_eq_dec : EqDecision Fences.
Proof. solve_decision. Defined.

Definition fences_of (values : list num) : Fences :=
  let sorted := sort sub values in
  let q1Index := length sorted / 4 in
  let q3Index := length sorted * 3 / 4 in
  let q1 := arith (num_at sorted q1Index) in
  let q3 := arith (num_at sorted q3Index) in
  let iqr := sub q3 q1 in
  {| q1 := q1; q3 := q3; iqr := iqr;
     lowerBound := sub q1 (mul (Fin (ratio 15 10)) iqr);
     upperBound := add q3 (mul (Fin (ratio 15 10)) iqr) |}.

(** The test of the filter that finds the outliers. *)
Definition flagged (f : Fences) (colName : string) (r : row) : bool :=
  let val := Number (cell r colName) in
  lt val (lowerBound f) || gt val (upperBound f).

(** The body of [forEach]: the entry stored for a column, [None] where
    nothing is stored. *)
Definition column_outliers (data : list row) (column : DataColumn)
  : option OutlierInfo :=
  let colName := name column in
  let values := column_values data colName in
  if (length values <? 5)%nat then None
  else
    let f := fences_of values in
    let outliers := filter (fun r => flagged f colName r = true) data in
    if (0 <? length outliers)%nat then
      Some {| count := length outliers;
              percentage :=
                toFixed2 (mul (div (of_nat (length outliers))
                                   (of_nat (length data)))
                              (of_Z 100));
              boundaries := {| lower := lowerBound f; upper := upperBound f |};
              examples := take 5 outliers |}
    else None.

Definition identifyOutliers (data : list row) (columns : object DataColumn)
  : gmap string OutlierInfo :=
  foldl (fun outlierInfo column =>
           match column_outliers data column with
           | Some info => <[name column := info]> outlierInfo
           | None => outlierInfo
           end)
        ∅ (numeric_columns columns).

End Analysis.

(* ================================================================== *)
(** ** A runtime for the worked examples *)
(* ================================================================== *)

(** The examples below run the services on concrete data sets.  They fix
    the two runtime functions as every engine defines them on the inputs
    that occur there: [Date.parse] on the date-only ISO forms [YYYY-MM-DD],
    [YYYY-MM] and [YYYY] (UTC midnight, in milliseconds), and
    [Number.prototype.toString] on numbers with a finite decimal expansion.
    Strings in other date formats are reported as invalid here. *)

Module Runtime.
Import JS.
Local Open Scope Z_scope.

Definition is_leap (y : Z) : bool :=
  ((y mod 4 =? 0) && negb (y mod 100 =? 0)) || (y mod 400 =? 0).

Definition days_in_month (y m : Z) : Z :=
  if m =? 2 then (if is_leap y then 29 else 28)
  else if (m =? 4) || (m =? 6) || (m =? 9) || (m =? 11) then 30
  else 31.

(** Days from 1970-01-01 to the given civil date. *)
Definition days_from_civil (y m d : Z) : Z :=
  let y' := if m <=? 2 then y - 1 else y in
  let era := y' / 400 in
  let yoe := y' - era * 400 in
  let doy := (153 * (if 2 <? m then m - 3 else m + 9) + 2) / 5 + d - 1 in
  let doe := yoe * 365 + yoe / 4 - yoe / 100 + doy in
  era * 146097 + doe - 719468.

Definition date_value (y m d : Z) : num :=
  if (1 <=? m) && (m <=? 12) && (1 <=? d) && (d <=? days_in_month y m)
  then of_Z (days_from_civil y m d * 86400000)
  else NaN.

(** Exactly [n] decimal digits, then the rest. *)
Definition fixed_digits (n : nat) (l : list ascii) : option (Z * list ascii) :=
  match read_digits 10 0 0 (take n l) with
  | (v, k, []) => if decide (k = n) then Some (Z.of_N v, drop n l) else None
  | _ => None
  end.

Definition dash_digits (l : list ascii) : option (Z * list ascii) :=
  match l with
  | c :: t => if is_char c "-" then fixed_digits 2 t else None
  | [] => None
  end.

Definition iso_date_parse (s : string) : num :=
  match fixed_digits 4 (list_ascii_of_string s) with
  | Some (y, []) => date_value y 1 1
  | Some (y, r1) =>
      match dash_digits r1 with
      | Some (m, []) => date_value y m 1
      | Some (m, r2) =>
          match dash_digits r2 with
          | Some (d, []) => date_value y m d
          | _ => NaN
          end
      | None => NaN
      end
  | None => NaN
  end.

Definition digit_char (d : Z) : ascii := ascii_of_N (Z.to_N (48 + d)).

Fixpoint nat_digits (fuel : nat) (n : Z) (acc : string) : string :=
  match fuel with
  | O => acc
  | S fuel' =>
      let acc' := String (digit_char (n mod 10)) acc in
      if n / 10 =? 0 then acc' else nat_digits fuel' (n / 10) acc'
  end.

Fixpoint fraction_digits (fuel : nat) (n d : Z) : string :=
  match fuel with
  | O => EmptyString
  | S fuel' =>
      if n =? 0 then EmptyString
      else String (digit_char (n * 10 / d)) (fraction_digits fuel' (n * 10 mod d) d)
  end.

Definition decimal_toString (a : num) : string :=
  match a with
  | NaN => "NaN"
  | PInf => "Infinity"
  | NInf => "-Infinity"
  | Fin x =>
      let n := Z.abs (Qnum x) in
      let d := QDen x in
      let whole := nat_digits 400 (n / d) EmptyString in
      let frac := fraction_digits 17 (n mod d) d in
      let sign := if Qnum x <? 0 then "-"%string else EmptyString in
      let tail := if n mod d =? 0 then EmptyString else ("." +:+ frac)%string in
      (sign +:+ whole +:+ tail)%string
  end.

End Runtime.

(* ================================================================== *)
(** ** The specification's formulas *)
(* ================================================================== *)

(** These definitions follow the wording of the specification, not the
    code; the theorems below compare the two. *)

Module Spec.
Import JS Types.
Local Open Scope string_scope.

(** The sum of a sequence of numbers. *)
Fixpoint total (xs : list num) : num :=
  match xs with
  | [] => zero
  | x :: rest => add x (total rest)
  end.

(** "arithmetic mean" *)
Definition arithmetic_mean (xs : list num) : num :=
  div (total xs) (of_nat (length xs)).

(** "population standard deviation (divide by N, not N-1)": the square
    root of the population variance. *)
Definition population_variance (xs : list num) : num :=
  div (total (map (fun x => square (sub x (arithmetic_mean xs))) xs))
      (of_nat (length xs)).

(** "ascending-sorted sample": a rearrangement of the sample in which no
    element is greater than a later one. *)
Definition no_greater (a b : num) : Prop := lt b a = false.
Definition ascending_sort_of (xs sorted : list num) : Prop :=
  Permutation sorted xs /\ StronglySorted no_greater sorted.

(** "indices floor(N*0.25), floor(N*0.5), floor(N*0.75)" *)
Definition rank_index (n : nat) (percent : Z) : nat :=
  Z.to_nat (Qc_floor (Qc_of_Z (Z.of_nat n) * ratio percent 100)%Qc).

Definition nearest_rank_quartiles (sorted : list num)
  : option num * option num * option num :=
  let n := length sorted in
  (sorted !! rank_index n 25, sorted !! rank_index n 50, sorted !! rank_index n 75).

(** "median via sort-and-middle-index (average of the two central
    elements when the count is even)" *)
Definition middle_median (sorted : list num) (m : num) : Prop :=
  let n := length sorted in
  if Nat.even n
  then exists a b, sorted !! (n / 2 - 1) = Some a /\ sorted !! (n / 2) = Some b
                   /\ m = div (add a b) (of_Z 2)
  else sorted !! (n / 2) = Some m.

(** "min and max as the numeric minimum/maximum" *)
Definition is_minimum (xs : list num) (m : num) : Prop :=
  m ∈ xs /\ forall x, x ∈ xs -> lt x m = false.
Definition is_maximum (xs : list num) (m : num) : Prop :=
  m ∈ xs /\ forall x, x ∈ xs -> lt m x = false.

(** The cells of a column that are neither null nor undefined: the
    values that the code keeps. *)
Definition present_cells (data : list row) (colName : string) : list value :=
  filter (fun v => v <> JNull /\ v <> JUndef)
         (map (fun r => cell r colName) data).

(** "absent/null/empty-string/"null"/"undefined" sentinel treated as
    missing": the cell values that are missing; an absent cell reads
    [undefined]. *)
Definition missing (v : value) : Prop :=
  v ∈ [JNull; JUndef; JStr ""; JStr "null"; JStr "undefined"].

#[global] Instance missing_dec v : Decision (missing v).
Proof. unfold missing. apply _. Defined.

(** "with missing values excluded": the cells of a column that are not
    missing. *)
Definition non_missing_cells (data : list row) (colName : string) : list value :=
  filter (fun v => ~ missing v) (map (fun r => cell r colName) data).


(** "one Column entry per distinct key found in the first record" *)
Definition columns_of (data : list row) : list string :=
  match data with
  | [] => []
  | first :: _ => Object_keys first
  end.

(** "a rectangular collection of records": every record has the keys of
    the first one, each once. *)
Definition rectangular (data : list row) : Prop :=
  Forall (fun r => NoDup (Object_keys r) /\ Object_keys r ≡ₚ columns_of data) data.

(** "count of all cell values across all rows/columns equal to null,
    undefined, empty string, or the literal strings "null"/"undefined"" *)
Definition missing_total (data : list row) : nat :=
  sum_list
    (map (fun r => length (filter missing (map (fun c => cell r c) (columns_of data))))
         data).

(** "rowCount - distinctSerializedRowCount" *)
Definition duplicate_total (data : list row) : nat :=
  length data - length (remove_dups (map JSON_stringify data)).

(** "A value outside [lower, upper] is an outlier", for the fences
    [Q1 - 1.5 * IQR] and [Q3 + 1.5 * IQR] of the quartiles of [sorted]. *)
Definition fence_pair (sorted : list num) : num * num :=
  let n := length sorted in
  let q1 := arith (sorted !! rank_index n 25) in
  let q3 := arith (sorted !! rank_index n 75) in
  let iqr := sub q3 q1 in
  (sub q1 (mul (Fin (ratio 15 10)) iqr), add q3 (mul (Fin (ratio 15 10)) iqr)).

Definition outside (bounds : num * num) (v : num) : Prop :=
  lt v bounds.1 = true \/ lt bounds.2 v = true.

#[global] Instance outside_dec bounds v : Decision (outside bounds v).
Proof. unfold outside. apply _. Defined.

(** The number of rows of [data] whose cell in [colName], taken as a
    number, lies outside the given fences. *)
Definition outlier_rows (bounds : num * num) (data : list row) (colName : string)
  : nat :=
  length (filter (fun r => outside bounds (Number (cell r colName))) data).

(** The ascending sort of a sample of numbers. *)
Definition ascending (xs : list num) : list num := sort sub xs.

(** "Skip columns with fewer than 5 non-missing values": the number of
    outliers that the detector of section 4.4 counts in one column, the
    quartiles being those of all the non-missing values of the column. *)
Definition detector_count (data : list row) (colName : string) : nat :=
  let values := map Number (non_missing_cells data colName) in
  if (length values <? 5)%nat then 0
  else outlier_rows (fence_pair (ascending values)) data colName.

(** "recomputing column type ... over the full set": the type inferred
    for a column from all the rows. *)
Definition type_over_all (Date_parse : string -> num) (Number_toString : num -> string)
  (data : list row) (colName : string) : ColumnType :=
  type (DataProcessing.column_info Date_parse Number_toString data (length data) colName).

(** "Outlier total: sum of per-column outlier counts from section 4.4,
    evaluated over the full dataset" *)
Definition outlier_total (Date_parse : string -> num) (Number_toString : num -> string)
  (data : list row) : nat :=
  sum_list
    (map (detector_count data)
         (filter (fun c => type_over_all Date_parse Number_toString data c = numeric)
                 (columns_of data))).

(** "sorted descending by |r|", for a key [key] giving |r|. *)
Definition descending {A} (key : A -> Qc) (l : list A) : Prop :=
  forall i j a b, i < j -> l !! i = Some a -> l !! j = Some b ->
                  (key b <= key a)%Qc.



(** The absolute value of the coefficient an entry reports, that is, of
    the coefficient rounded to two decimals. *)
Definition reported_strength (item : Correlation) : Qc :=
  match abs (correlation item) with
  | Fin q => q
  | _ => 0%Qc
  end.

End Spec.

(* ================================================================== *)
(** ** What the loops of the data quality scorer count *)
(* ================================================================== *)

Module Scorer.
Import JS Types.

(** The missing values among the own properties of the rows. *)
Definition missing_cells (data : list row) : nat :=
  sum_list (map (fun r => length (filter Spec.missing (Object_values r))) data).

(** Over the numeric columns, the rows of [data] outside the fences, the
    quartiles being those of the cells of the rows [fence_rows] that are
    neither null nor undefined. *)
Definition outlier_total (fence_rows data : list row) (columns : list DataColumn)
  : nat :=
  sum_list
    (map (fun col =>
            Spec.outlier_rows
              (Spec.fence_pair
                 (Spec.ascending (map Number (Spec.present_cells fence_rows (name col)))))
              data (name col))
         (filter (fun col => type col = numeric) columns)).

End Scorer.

(* ================================================================== *)
(** ** Data sets of the worked examples *)
(* ================================================================== *)

Module Examples.
Import JS Types.
Local Open Scope string_scope.

Definition int (z : Z) : value := JNum (of_Z z).

(** A data set with the single column [colName]. *)
Definition single_column (colName : string) (cells : list value) : list row :=
  map (fun v => [(colName, v)]) cells.

(** The column [x] with the values 1 to 5. *)
Definition one_to_five : list row :=
  single_column "x" (int <$> [1; 2; 3; 4; 5]%Z).

(** Its metadata. *)
Definition one_to_five_column : DataColumn :=
  {| name := "x"; type := numeric;
     uniqueValues := Some 5; missingValues := Some 0;
     missingPercentage := Some (of_Z 0);
     min := Some (of_Z 1); max := Some (of_Z 5);
     mean := Some (of_Z 3); median := Some (of_Z 3);
     stdDev := Some (Math_sqrt (of_Z 2));
     quartiles := Some (Some (of_Z 2), Some (of_Z 3), Some (of_Z 4)) |}.

(** The column [x] with the values 1 to 5 and 100. *)
Definition with_hundred : list row :=
  single_column "x" (int <$> [1; 2; 3; 4; 5; 100]%Z).

(** Five days of sales that start at zero. *)
Definition sales_from_zero : list row :=
  zip_with (fun d v => [("date", JStr d); ("sales", int v)])
           ["2024-01-01"; "2024-01-02"; "2024-01-03"; "2024-01-04"; "2024-01-05"]
           [0; 1; 2; 3; 4]%Z.

(** Its only outlier and the entry reported for it. *)
Definition hundred_row : row := [("x", int 100)].
Definition with_hundred_entry : OutlierInfo :=
  {| count := 1;
     percentage := Fin (ratio 1667 100);
     boundaries := {| lower := Fin (ratio (-5) 2); upper := Fin (ratio 19 2) |};
     examples := [hundred_row] |}.

(** The trend reported for the sales that start at zero. *)
Definition sales_from_zero_trend : Trend :=
  {| trendDirection := increasing;
     percentChange := PInf;
     seasonality := false;
     movingAverage := [of_Z 1; of_Z 2; of_Z 3] |}.

(** One row whose cell [a] is null. *)
Definition null_column : list row := [[("a", JNull); ("b", int 1)]].

(** 100 rows with [x = 1] followed by 101 rows with [x = 2]. *)
Definition ones_then_twos : list row :=
  single_column "x" (replicate 100 (int 1) ++ replicate 101 (int 2)).

(** Ten rows, the last one equal to the third. *)
Definition ten_rows : list row :=
  map (fun p => [("id", int p.1); ("city", JStr p.2)])
      [(1, "Pune"); (2, "Delhi"); (3, "Mumbai"); (4, "Pune"); (5, "Delhi");
       (6, "Mumbai"); (7, "Pune"); (8, "Delhi"); (9, "Mumbai"); (3, "Mumbai")]%Z.

(** Four rows: too few for every detector. *)
Definition four_rows : list row :=
  map (fun p => [("date", JStr p.1); ("x", int p.2.1); ("y", int p.2.2)])
      [("2024-01-01", (1, 2)); ("2024-01-02", (2, 4));
       ("2024-01-03", (3, 6)); ("2024-01-04", (4, 80))]%Z.

(** Three numeric columns whose correlations with [a] both print as 0.71. *)
Definition three_columns : list row :=
  map (fun t => [("a", int t.1.1); ("b", int t.1.2); ("c", int t.2)])
      [((1, 1), 1); ((2, 1), 1); ((3, 1), 6); ((4, 1), 2); ((5, 2), 7)]%Z.

(** The entries reported for them, in the order of the result. *)
Definition a_b_entry : Correlation :=
  {| columns := ("a", "b"); correlation := Fin (ratio 71 100);
     strength := moderate; direction := positive |}.
Definition a_c_entry : Correlation :=
  {| columns := ("a", "c"); correlation := Fin (ratio 71 100);
     strength := moderate; direction := positive |}.
Definition b_c_entry : Correlation :=
  {| columns := ("b", "c"); correlation := Fin (ratio 70 100);
     strength := moderate; direction := positive |}.

(** Five rows with [x = 10] and a sixth whose cell is null. *)
Definition tens_and_null : list row :=
  single_column "x" (replicate 5 (int 10) ++ [JNull]).

(** The entry reported for it: the null cell counts as 0, below the
    fences (10, 10). *)
Definition tens_and_null_entry : OutlierInfo :=
  {| count := 1;
     percentage := Fin (ratio 1667 100);
     boundaries := {| lower := of_Z 10; upper := of_Z 10 |};
     examples := [[("x", JNull)]] |}.

(** Two rows of which the second has no cell in column [b]. *)
Definition ragged : list row :=
  [[("a", int 1); ("b", int 2)]; [("a", int 3)]].


(** Four rows with [x = 1] and a fifth whose cell is null. *)
Definition four_ones_and_null : list row :=
  single_column "x" (replicate 4 (int 1) ++ [JNull]).

(** A column description as a caller may pass it. *)
Definition numeric_column (colName : string) : DataColumn :=
  {| name := colName; type := numeric;
     uniqueValues := None; missingValues := None; missingPercentage := None;
     min := None; max := None; mean := None; median := None;
     stdDev := None; quartiles := None |}.

Definition infer : list row -> object DataColumn :=
  DataProcessing.detectColumnTypes Runtime.iso_date_parse Runtime.decimal_toString.

End Examples.

(* ================================================================== *)
(** ** Notions used to describe the time trends *)
(* ================================================================== *)

Module Trends.
Import JS Types Analysis.

(** The values of [valueColumn] in the order of the dates: the array
    [values] of [detectTimeTrends]. *)
Definition series (Date_parse : string -> num) (data : list row)
  (dateColumn valueColumn : string) : list num :=
  map (fun item => Number (cell item valueColumn))
      (sort (by_date Date_parse dateColumn) data).

(** The average of the three neighbours that start at index [i]. *)
Definition window_average (arr : list num) (i : nat) : num :=
  div (add (add (arith (num_at arr i)) (arith (num_at arr (i + 1))))
           (arith (num_at arr (i + 2))))
      (of_Z 3).

(** The time a row is dated at: [new Date(row[dateColumn]).getTime()]. *)
Definition time_of (Date_parse : string -> num) (dateColumn : string) (r : row) : num :=
  Date_getTime Date_parse (cell r dateColumn).

End Trends.


(* ================================================================== *)
(** ** Notions used to describe the correlations *)
(* ================================================================== *)

Module Correlations.
Import JS.

(** A pair of coordinates with its two sides exchanged. *)
Definition swap (p : num * num) : num * num := (p.2, p.1).

(** The sum of an integer coordinate over a list. *)
Definition Zsum {A} (f : A -> Z) (l : list A) : Z :=
  foldr (fun x acc => (f x + acc)%Z) 0%Z l.

(** [n * sum (u * v) - sum u * sum v] over the integers. *)
Definition Zcross {A} (u v : A -> Z) (l : list A) : Z :=
  (Z.of_nat (length l) * Zsum (fun p => u p * v p) l - Zsum u l * Zsum v l)%Z.

(** The sum of the squares of a list of integers. *)
Definition sum_of_squares (zs : list Z) : Z := Zsum (fun z => z * z)%Z zs.

(** Paired values that are integers, few and small enough that the
    number of pairs times the sum of the squares of either side stays
    below [2 ^ 53].  Every sum and product that [correlate] forms of such
    pairs is then an integer below [2 ^ 53] in absolute value, which the
    64-bit binary arithmetic of the engine represents without rounding. *)
Definition small_integers (pairs : list (num * num)) : Prop :=
  exists zs : list (Z * Z),
    pairs = map (fun z => (of_Z z.1, of_Z z.2)) zs
    /\ (Z.of_nat (length zs) * sum_of_squares (zs.*1) < 2 ^ 53)%Z
    /\ (Z.of_nat (length zs) * sum_of_squares (zs.*2) < 2 ^ 53)%Z.

End Correlations.


(* ================================================================== *)
(** ** Real sums *)
(* ================================================================== *)

Module RealSums.
Import JS.

(** The real value of a finite number (0 for the others). *)
Definition to_R (a : num) : R :=
  match a with
  | Fin q => Q2R q
  | _ => 0%R
  end.

(** The sum of [f] over a list. *)
Fixpoint Rsum {A} (f : A -> R) (l : list A) : R :=
  match l with
  | [] => 0%R
  | x :: rest => (f x + Rsum f rest)%R
  end.

(** [n * sum (u * v) - sum u * sum v] for two coordinates [u] and [v] of
    the points of [l]: the numerator of the coefficient for [u], [v] the
    two sides of a pair, and the two factors under the square root of its
    denominator for [u = v]. *)
Definition cross {A} (u v : A -> R) (l : list A) : R :=
  (INR (length l) * Rsum (fun p => u p * v p) l - Rsum u l * Rsum v l)%R.

End RealSums.


(* ================================================================== *)
(** ** The order of the properties of an object *)
(* ================================================================== *)

Module Objects.
Import JS.

(** An object lists its properties with the array indices first, in
    ascending order, and the other keys after them in the order of their
    creation.  An array index is the decimal text, without leading zero,
    of an integer from 0 to 2^32 - 2. *)
Definition digit_of (c : ascii) : option N :=
  let n := N_of_ascii c in
  if ((48 <=? n) && (n <=? 57))%N then Some (n - 48)%N else None.

Fixpoint digits_value (acc : N) (s : string) : option N :=
  match s with
  | EmptyString => Some acc
  | String c s' =>
      match digit_of c with
      | Some d => digits_value (acc * 10 + d)%N s'
      | None => None
      end
  end.

Definition array_index (k : string) : option N :=
  match k with
  | EmptyString => None
  | String c rest =>
      if decide (c = "0"%char)
      then (if decide (rest = EmptyString) then Some 0%N else None)
      else match digits_value 0 k with
           | Some n => if (n <? 4294967295)%N then Some n else None
           | None => None
           end
  end.

Fixpoint insert_indexed {A} (e : N * A) (l : list (N * A)) : list (N * A) :=
  match l with
  | [] => [e]
  | e' :: l' => if (e.1 <? e'.1)%N then e :: l else e' :: insert_indexed e l'
  end.

(** The entries of [o], given in the order of their creation, in the
    order in which the object lists them. *)
Definition own_property_order {V} (o : object V) : object V :=
  (foldr insert_indexed []
         (omap (fun kv => (fun i => (i, kv)) <$> array_index kv.1) o)).*2
  ++ filter (fun kv => array_index kv.1 = None) o.

(** [Object.fromEntries(entries)]; also the object built from [{}] by the
    assignments [o[k] = v] in the order of [entries]. *)
Definition Object_fromEntries {V} (entries : list (string * V)) : object V :=
  own_property_order (foldl (fun o kv => set o kv.1 kv.2) [] entries).

End Objects.

(* ================================================================== *)
(** ** [generateInsights] and the insights panel *)
(* ================================================================== *)

Module Insights.
Import JS Types Analysis Objects.
Local Open Scope string_scope.

(** The fields of [DatasetInfo]. *)
Record DatasetInfo : Type := {
  fileName : string;
  fileSize : N;
  rowCount : nat;
  columnCount : nat;
  columns : list DataColumn;
  data : list row;
  dataQuality : DataQuality.t
}.

(** An entry of [timeTrends]: [{ dateColumn, valueColumn, ...trend }]. *)
Record TimeTrend : Type := {
  dateColumn : string;
  valueColumn : string;
  trend : Trend
}.

Inductive RecommendationType : Type :=
| correlation_type | trend_type | seasonality_type | outliers_type
| outlier_type | data_volume_type | data_type_type.

#[global] Instance RecommendationType_eq_dec : EqDecision RecommendationType.
Proof. solve_decision. Defined.

(** The text of the field [type]. *)
Definition type_text (t : RecommendationType) : string :=
  match t with
  | correlation_type => "correlation"
  | trend_type => "trend"
  | seasonality_type => "seasonality"
  | outliers_type => "outliers"
  | outlier_type => "outlier"
  | data_volume_type => "data_volume"
  | data_type_type => "data_type"
  end.

Record Recommendation : Type := {
  rec_type : RecommendationType;
  message : string
}.

Record Insight : Type := {
  timeTrends : list TimeTrend;
  correlations : list Correlation;
  outliers : gmap string OutlierInfo;
  recommendations : list Recommendation
}.

Definition no_insight : Insight :=
  {| timeTrends := []; correlations := []; outliers := ∅; recommendations := [] |}.

(** [cols.filter(col => col.type === t).map(col => col.name)]. *)
Definition names_of_type (t : ColumnType) (cols : list DataColumn) : list string :=
  map name (filter (fun col => type col = t) cols).

(** The record of the columns under their names. *)
Definition columns_record (cols : list DataColumn) : object DataColumn :=
  Object_fromEntries (map (fun col => (name col, col)) cols).

(** [Object.keys] of the result of [identifyOutliers]: the names under
    which the loop stores an entry, in the order the object lists them. *)
Definition outlier_columns (data : list row) (columns : object DataColumn)
  : list string :=
  Object_keys
    (own_property_order
       (foldl (fun o column =>
                 match column_outliers data column with
                 | Some info => set o (name column) info
                 | None => o
                 end)
              [] (numeric_columns columns))).

(** The text of a trend direction. *)
Definition direction_text (d : TrendDirection) : string :=
  match d with
  | increasing => "increasing"
  | decreasing => "decreasing"
  | stable => "stable"
  end.

Section WithRuntime.
Variable Date_parse : string -> num.
(** The text that [percentChange] holds, for the number it stands for. *)
Variable percentChange_text : num -> string.
(** [count] in a template literal and [n.toLocaleString()]. *)
Variable count_text : nat -> string.
Variable toLocaleString : nat -> string.

(** The two nested [forEach] loops over the date and the numeric columns. *)
Definition time_trends (data : list row) (dateColumns numericColumns : list string)
  : list TimeTrend :=
  if (0 <? length dateColumns)%nat && (0 <? length numericColumns)%nat then
    flat_map (fun dateCol =>
                omap (fun numCol =>
                        (fun t => {| dateColumn := dateCol; valueColumn := numCol;
                                     trend := t |})
                          <$> detectTimeTrends Date_parse data dateCol numCol)
                     numericColumns)
             dateColumns
  else [].

(** [Math.abs(parseFloat(trend.percentChange)) > 20]. *)
Definition significant (t : TimeTrend) : bool :=
  gt (abs (percentChange (trend t))) (of_Z 20).

Definition correlation_recommendation (correlations : list Correlation)
  : list Recommendation :=
  match correlations with
  | first :: _ =>
      [{| rec_type := correlation_type;
          message :=
            "Consider creating a scatter plot to visualize the strong correlation between "
            +:+ (Types.columns first).1 +:+ " and " +:+ (Types.columns first).2 +:+ "." |}]
  | [] => []
  end.

Definition trend_recommendations (timeTrends : list TimeTrend) : list Recommendation :=
  if (0 <? length timeTrends)%nat then
    match find significant timeTrends with
    | Some significantTrend =>
        [{| rec_type := trend_type;
            message :=
              "There's a significant "
              +:+ direction_text (trendDirection (trend significantTrend))
              +:+ " trend ("
              +:+ percentChange_text (percentChange (trend significantTrend))
              +:+ "%) in " +:+ valueColumn significantTrend
              +:+ " over time. Consider creating a line chart with moving averages to visualize this trend." |}]
    | None => []
    end
    ++ match find (fun t => seasonality (trend t)) timeTrends with
       | Some seasonalTrend =>
           [{| rec_type := seasonality_type;
               message :=
                 "Seasonal patterns detected in " +:+ valueColumn seasonalTrend
                 +:+ ". Consider decomposing the time series to analyze seasonal components." |}]
       | None => []
       end
  else [].

Definition outliers_recommendation (columnsWithOutliers : list string)
  : list Recommendation :=
  if (0 <? length columnsWithOutliers)%nat then
    [{| rec_type := outliers_type;
        message :=
          String.concat ", " columnsWithOutliers
          +:+ " contain"
          +:+ (if (length columnsWithOutliers =? 1)%nat then "s" else "")
          +:+ " significant outliers. Consider using box plots to visualize the distribution." |}]
  else [].

(** [generateInsights(data, datasetInfo)]; [None] is a missing
    [datasetInfo]. *)
Definition generateInsights (data : list row) (datasetInfo : option DatasetInfo)
  : Insight :=
  match data, datasetInfo with
  | [], _ | _, None => no_insight
  | _, Some info =>
      let dateColumns := names_of_type datetime (columns info) in
      let numericColumns := names_of_type numeric (columns info) in
      let correlations := findCorrelations data (columns_record (columns info)) in
      let timeTrends := time_trends data dateColumns numericColumns in
      let outliers := identifyOutliers data (columns_record (columns info)) in
      let columnsWithOutliers :=
        outlier_columns data (columns_record (columns info)) in
      {| timeTrends := timeTrends;
         correlations := correlations;
         outliers := outliers;
         recommendations :=
           correlation_recommendation correlations
           ++ trend_recommendations timeTrends
           ++ outliers_recommendation columnsWithOutliers |}
  end.

(** *** The panel *)

(** The record built by [columns.forEach(col => columnsRecord[col.name] = col)]. *)
Definition columnsRecord (cols : list DataColumn) : object DataColumn :=
  own_property_order (foldl (fun o col => set o (name col) col) [] cols).

(** The recommendations of the panel.  [outlierKeys] is
    [Object.keys(outliers)]; its first key has an entry in [outliers], so
    the lookup of that entry finds it. *)
Definition panel_recommendations (data : list row)
  (dateColumns numericColumns : list string)
  (timeTrends : list TimeTrend) (correlations : list Correlation)
  (outliers : gmap string OutlierInfo) (outlierKeys : list string)
  : list Recommendation :=
  match timeTrends with
  | first :: _ =>
      [{| rec_type := trend_type;
          message := "Consider creating time series visualizations for "
                     +:+ dateColumn first +:+ " and " +:+ valueColumn first |}]
  | [] => []
  end
  ++ match correlations with
     | first :: _ =>
         [{| rec_type := correlation_type;
             message := "Explore the relationship between "
                        +:+ (Types.columns first).1 +:+ " and "
                        +:+ (Types.columns first).2 |}]
     | [] => []
     end
  ++ match outlierKeys with
     | outlierColumn :: _ =>
         match outliers !! outlierColumn with
         | Some info =>
             [{| rec_type := outlier_type;
                 message := "Investigate outliers in " +:+ outlierColumn +:+ " ("
                            +:+ count_text (count info) +:+ " found)" |}]
         | None => []
         end
     | [] => []
     end
  ++ (if (1000 <? length data)%nat then
        [{| rec_type := data_volume_type;
            message := "Large dataset detected (" +:+ toLocaleString (length data)
                       +:+ " rows). Consider using sampling for initial analysis." |}]
      else [])
  ++ (if (length numericColumns =? 0)%nat then
        [{| rec_type := data_type_type;
            message := "No numeric columns found. Consider converting text data to numeric for statistical analysis." |}]
      else [])
  ++ (if (length dateColumns =? 0)%nat then
        [{| rec_type := data_type_type;
            message := "No date columns found. Time series analysis requires date/time data." |}]
      else []).

(** The value that [generateAIInsights] passes to [setInsights]. *)
Definition generateAIInsights (data : list row) (cols : list DataColumn) : Insight :=
  let dateColumns := names_of_type datetime cols in
  let numericColumns := names_of_type numeric cols in
  let timeTrends := time_trends data dateColumns numericColumns in
  let correlations := findCorrelations data (columnsRecord cols) in
  let outliers := identifyOutliers data (columnsRecord cols) in
  {| timeTrends := timeTrends;
     correlations := correlations;
     outliers := outliers;
     recommendations :=
       panel_recommendations data dateColumns numericColumns timeTrends
                             correlations outliers
                             (outlier_columns data (columnsRecord cols)) |}.

End WithRuntime.

End Insights.


(* ================================================================== *)
(** ** [processFile], the upload handler and the data slice *)
(* ================================================================== *)

Module Upload.
Import JS Types DataProcessing Insights.
Local Open Scope string_scope.

(** A value that is thrown or rejects a promise: an [Error] with its
    message, or something else. *)
Inductive thrown : Type :=
| Error (message : string)
| not_an_Error.

(** The state in which a promise settles. *)
Inductive settled (A : Type) : Type :=
| resolved (a : A)
| rejected (e : thrown).
Arguments resolved {A} a.
Arguments rejected {A} e.

(** The properties [name] and [size] of a [File]. *)
Record File : Type := {
  file_name : string;
  file_size : N
}.

Fixpoint starts_with (p l : list ascii) : bool :=
  match p, l with
  | [], _ => true
  | a :: p', b :: l' => if decide (a = b) then starts_with p' l' else false
  | _ :: _, [] => false
  end.

(** [s.endsWith(suffix)]: read backwards, [s] starts with [suffix]. *)
Definition endsWith (s suffix : string) : bool :=
  starts_with (reverse (list_ascii_of_string suffix))
              (reverse (list_ascii_of_string s)).

(** The extensions listed by the [accept] option of the drop zone. *)
Definition accepted_extensions : list string := [".csv"; ".xlsx"; ".xls"; ".tsv"].

(** [Object.values(row).some(val => val !== null && val !== undefined && val !== '')]. *)
Definition has_content (r : row) : bool :=
  existsb (fun val => bool_decide (val <> JNull /\ val <> JUndef /\ val <> JStr ""))
          (Object_values r).

Definition unsupported : thrown :=
  Error "Unsupported file format. Please upload a CSV or Excel file.".

Section WithRuntime.
Variable Date_parse : string -> num.
Variable Number_toString : num -> string.
(** The two parsers read the file through libraries; what they settle to
    is taken as given. *)
Variable parseCSV : File -> settled (list row).
Variable parseExcel : File -> settled (list row).

Definition dataset_info (file : File) (data : list row) : DatasetInfo :=
  let columns := detectColumnTypes Date_parse Number_toString data in
  let dataQuality := analyzeDataQuality Date_parse Number_toString data in
  {| fileName := file_name file;
     fileSize := file_size file;
     rowCount := length data;
     columnCount := length (Object_keys columns);
     Insights.columns := Object_values columns;
     Insights.data := data;
     Insights.dataQuality := dataQuality |}.

Definition processFile (file : File) : settled (list row * DatasetInfo) :=
  let parsed :=
    if endsWith (file_name file) ".csv" then parseCSV file
    else if endsWith (file_name file) ".xlsx" || endsWith (file_name file) ".xls"
         then parseExcel file
         else rejected unsupported in
  match parsed with
  | rejected e => rejected e
  | resolved data =>
      let data := filter (fun r => has_content r = true) data in
      resolved (data, dataset_info file data)
  end.

(** *** The data slice *)

Section Slice.
Variables DataInsight ChartConfig : Type.

Record DataState : Type := {
  rawData : option (list row);
  datasetInfo : option DatasetInfo;
  insights : list DataInsight;
  recommendedCharts : list ChartConfig;
  isLoading : bool;
  error : option string
}.

Definition initialState : DataState :=
  {| rawData := None; datasetInfo := None; insights := []; recommendedCharts := [];
     isLoading := false; error := None |}.

Inductive DataAction : Type :=
| setLoading (payload : bool)
| setError (payload : option string)
| setRawData (payload : list row)
| setDatasetInfo (payload : DatasetInfo)
| setInsights (payload : list DataInsight)
| setRecommendedCharts (payload : list ChartConfig)
| clearData.

Definition reducer (state : DataState) (action : DataAction) : DataState :=
  match action with
  | setLoading payload =>
      {| rawData := rawData state; datasetInfo := datasetInfo state;
         insights := insights state; recommendedCharts := recommendedCharts state;
         isLoading := payload; error := error state |}
  | setError payload =>
      {| rawData := rawData state; datasetInfo := datasetInfo state;
         insights := insights state; recommendedCharts := recommendedCharts state;
         isLoading := isLoading state; error := payload |}
  | setRawData payload =>
      {| rawData := Some payload; datasetInfo := datasetInfo state;
         insights := insights state; recommendedCharts := recommendedCharts state;
         isLoading := isLoading state; error := error state |}
  | setDatasetInfo payload =>
      {| rawData := rawData state; datasetInfo := Some payload;
         insights := insights state; recommendedCharts := recommendedCharts state;
         isLoading := isLoading state; error := error state |}
  | setInsights payload =>
      {| rawData := rawData state; datasetInfo := datasetInfo state;
         insights := payload; recommendedCharts := recommendedCharts state;
         isLoading := isLoading state; error := error state |}
  | setRecommendedCharts payload =>
      {| rawData := rawData state; datasetInfo := datasetInfo state;
         insights := insights state; recommendedCharts := payload;
         isLoading := isLoading state; error := error state |}
  | clearData =>
      {| rawData := None; datasetInfo := None; insights := []; recommendedCharts := [];
         isLoading := isLoading state; error := None |}
  end.

(** *** [handleUpload] *)

(** The values of [uploadStatus]; [failure] stands for ['error']. *)
Inductive UploadStatus : Type :=
| idle | uploading | success | failure.

(** [error instanceof Error ? error.message : 'An unknown error occurred']. *)
Definition error_message (e : thrown) : string :=
  match e with
  | Error message => message
  | not_an_Error => "An unknown error occurred"
  end.

(** The actions that [handleUpload] dispatches to the data slice, in
    order, and the upload status it leaves.  The progress counter and the
    change of view that a timer performs later are not part of this. *)
Definition handleUpload (files : list File) (uploadStatus : UploadStatus)
  : list DataAction * UploadStatus :=
  match files with
  | [] => ([], uploadStatus)
  | file :: _ =>
      match processFile file with
      | resolved (data, info) =>
          ([setLoading true; setRawData data; setDatasetInfo info; setError None;
            setLoading false], success)
      | rejected e =>
          ([setLoading true; setError (Some (error_message e)); setLoading false],
           failure)
      end
  end.

(** The store after the actions of [handleUpload]. *)
Definition after_upload (files : list File) (state : DataState) : DataState :=
  foldl reducer state (handleUpload files idle).1.

End Slice.

End WithRuntime.

End Upload.


(* ================================================================== *)
(** ** Examples of uploads *)
(* ================================================================== *)

Module UploadExamples.
Import JS Types Insights Upload.
Local Open Scope string_scope.

Definition sales_csv : File := {| file_name := "sales.csv"; file_size := 2048 |}.
Definition sales_tsv : File := {| file_name := "sales.tsv"; file_size := 2048 |}.

(** A parser that settles to the given rows. *)
Definition parses_to (rows : list row) (file : File) : settled (list row) :=
  resolved rows.


(** The upload of a file that holds the given rows. *)
Definition upload (rows : list row) : settled (list row * DatasetInfo) :=
  processFile Runtime.iso_date_parse Runtime.decimal_toString
              (parses_to rows) (parses_to rows) sales_csv.

(** The description of a dataset. *)
Definition describe (data : list row) : DatasetInfo :=
  dataset_info Runtime.iso_date_parse Runtime.decimal_toString sales_csv data.

(** Five rows with one column of text. *)
Definition cities : list row :=
  Examples.single_column "city"
    (JStr <$> ["Pune"; "Delhi"; "Mumbai"; "Pune"; "Delhi"]).

(** Six rows with the same text. *)
Definition one_city : list row :=
  Examples.single_column "city" (replicate 6 (JStr "Pune")).

(** Five rows with [y = 2 x + 1]. *)
Definition doubled : list row :=
  map (fun x => [("x", Examples.int x); ("y", Examples.int (2 * x + 1))])
      [1; 2; 3; 4; 5]%Z.

(** The decimal text of a count. *)
Definition count_text (n : nat) : string := Runtime.decimal_toString (of_nat n).

End UploadExamples.

(* ================================================================== *)
(** ** Properties of the runtime *)
(* ================================================================== *)

(** Closed equations between values that contain rationals are decided by
    evaluation of the decision procedure. *)
Ltac by_evaluation :=
  lazymatch goal with
  | |- ?a = ?b => apply (bool_decide_eq_true_1 (a = b)); vm_compute; reflexivity
  | |- ?a <> ?b => apply (bool_decide_eq_false_1 (a = b)); vm_compute; reflexivity
  end.

Section RuntimeFacts.
Import JS.

Lemma Qcltb_lt (x y : Qc) : Qcltb x y = true <-> (x < y)%Qc.
Proof. unfold Qcltb, Qclt, Qlt. apply Z.ltb_lt. Qed.

Lemma Qcltb_ge (x y : Qc) : Qcltb x y = false <-> (y <= x)%Qc.
Proof.
  unfold Qcltb, Qcle, Qle. rewrite Z.ltb_ge. reflexivity.
Qed.

Lemma add_zero_l (a : num) : add zero a = a.
Proof. destruct a; simpl; try reflexivity. now rewrite Qcplus_0_l. Qed.

Lemma add_zero_r (a : num) : add a zero = a.
Proof. destruct a; simpl; try reflexivity. now rewrite Qcplus_0_r. Qed.

Lemma add_assoc (a b c : num) : add a (add b c) = add (add a b) c.
Proof.
  destruct a, b, c; simpl; try reflexivity. now rewrite Qcplus_assoc.
Qed.

Lemma foldl_add_total {A} (f : A -> num) (xs : list A) (acc : num) :
  foldl (fun sum x => add sum (f x)) acc xs = add acc (Spec.total (map f xs)).
Proof.
  revert acc. induction xs as [|x xs IH]; intros acc; simpl.
  - now rewrite add_zero_r.
  - now rewrite IH, add_assoc.
Qed.

Lemma reduce_sum_total {A} (f : A -> num) (xs : list A) :
  reduce_sum f xs = Spec.total (map f xs).
Proof. unfold reduce_sum. now rewrite foldl_add_total, add_zero_l. Qed.

(** The sort returns a rearrangement of its argument. *)
Lemma sort_insert_perm {A} (cmp : A -> A -> num) (x : A) (l : list A) :
  Permutation (sort_insert cmp x l) (x :: l).
Proof.
  induction l as [|y l IH]; cbn [sort_insert]; [reflexivity|].
  destruct (gt (cmp x y) zero); [|reflexivity].
  rewrite IH. apply perm_swap.
Qed.

Lemma sort_perm {A} (cmp : A -> A -> num) (l : list A) :
  Permutation (sort cmp l) l.
Proof.
  induction l as [|x l IH]; simpl; [reflexivity|].
  unfold sort in *. simpl. rewrite sort_insert_perm. now constructor.
Qed.

Lemma sort_length {A} (cmp : A -> A -> num) (l : list A) :
  length (sort cmp l) = length l.
Proof. apply Permutation_length, sort_perm. Qed.

(** On elements on which the comparator agrees with a transitive
    relation, the sort returns a sorted list. *)
Section Sorted.
Context {A : Type} (cmp : A -> A -> num) (R : A -> A -> Prop) (P : A -> Prop).
Hypothesis R_trans : forall a b c, P a -> P b -> P c -> R a b -> R b c -> R a c.
Hypothesis keep : forall a b, P a -> P b -> gt (cmp a b) zero = false -> R a b.
Hypothesis move : forall a b, P a -> P b -> gt (cmp a b) zero = true -> R b a.

Lemma sort_insert_sorted (x : A) (l : list A) :
  P x -> Forall P l -> StronglySorted R l ->
  StronglySorted R (sort_insert cmp x l).
Proof.
  intros Px Pl Hs. induction Hs as [|y l Hs IH Hy]; cbn [sort_insert].
  - repeat constructor.
  - inversion Pl as [|? ? Py Pl']; subst.
    destruct (gt (cmp x y) zero) eqn:E.
    + constructor; [now apply IH|].
      rewrite (sort_insert_perm cmp x l).
      constructor; [now apply move|assumption].
    + constructor; [now constructor|].
      constructor; [now apply keep|].
      rewrite Forall_forall in Hy, Pl'. apply Forall_forall.
      intros z Hz. apply (R_trans x y z); auto.
Qed.

Lemma sort_sorted (l : list A) :
  Forall P l -> StronglySorted R (sort cmp l).
Proof.
  induction 1 as [|x l Px Pl IH]; [constructor|].
  unfold sort in *. simpl. apply sort_insert_sorted; auto.
  fold (sort cmp l). rewrite (sort_perm cmp l). assumption.
Qed.
End Sorted.

End RuntimeFacts.
Section MoreFacts.
Import JS Types.

Lemma Qc_floor_Q2Qc (q : Q) : Qc_floor (Q2Qc q) = Qfloor q.
Proof.
  unfold Qc_floor. cbn [this Q2Qc].
  transitivity (Qfloor (Qred q)); [now destruct (Qred q)|].
  apply Qfloor_comp, Qred_correct.
Qed.

Lemma rank_index_quot (n : nat) (p : Z) :
  (0 <= p)%Z -> Spec.rank_index n p = n * Z.to_nat p / 100.
Proof.
  intros Hp. unfold Spec.rank_index, ratio, Qcmult.
  rewrite Qc_floor_Q2Qc.
  assert (E : (Qc_of_Z (Z.of_nat n) * Q2Qc (p # 100) == (Z.of_nat n * p # 100))%Q).
  { cbn [this Qc_of_Z Q2Qc]. rewrite Qred_correct.
    unfold Qeq, Qmult, inject_Z. cbn [Qnum Qden]. lia. }
  rewrite (Qfloor_comp _ _ E). cbn [Qfloor].
  rewrite <- (Z2Nat.id p) at 1 by assumption.
  rewrite <- Nat2Z.inj_mul.
  change (Z.pos 100) with (Z.of_nat 100).
  rewrite <- Nat2Z.inj_div. apply Nat2Z.id.
Qed.

Lemma rank_index_25 n : Spec.rank_index n 25 = n / 4.
Proof.
  rewrite rank_index_quot by lia.
  change (Z.to_nat 25) with 25.
  rewrite <- (Nat.Div0.div_mul_cancel_r n 4 25) by lia.
  reflexivity.
Qed.

Lemma rank_index_50 n : Spec.rank_index n 50 = n / 2.
Proof.
  rewrite rank_index_quot by lia.
  change (Z.to_nat 50) with 50.
  rewrite <- (Nat.Div0.div_mul_cancel_r n 2 50) by lia.
  reflexivity.
Qed.

Lemma rank_index_75 n : Spec.rank_index n 75 = n * 3 / 4.
Proof.
  rewrite rank_index_quot by lia.
  change (Z.to_nat 75) with (3 * 25).
  rewrite Nat.mul_assoc.
  rewrite <- (Nat.Div0.div_mul_cancel_r (n * 3) 4 25) by lia.
  reflexivity.
Qed.

(** [new Set(xs).size] counts the distinct elements. *)
Lemma Set_add_elem {A} `{EqDecision A} (s : list A) (x y : A) :
  y ∈ Set_add s x <-> y ∈ s \/ y = x.
Proof.
  unfold Set_add. destruct (decide (x ∈ s)) as [Hin|Hin].
  - split; [auto|]. intros [H| ->]; auto.
  - rewrite elem_of_app, list_elem_of_singleton. reflexivity.
Qed.

Lemma Set_add_NoDup {A} `{EqDecision A} (s : list A) (x : A) :
  NoDup s -> NoDup (Set_add s x).
Proof.
  intros Hs. unfold Set_add. destruct (decide (x ∈ s)) as [Hin|Hin]; [assumption|].
  apply NoDup_app. split; [assumption|]. split.
  - intros y Hy Hy'. apply list_elem_of_singleton in Hy'. now subst.
  - apply NoDup_singleton.
Qed.

Lemma foldl_Set_add {A} `{EqDecision A} (xs s : list A) :
  NoDup s ->
  NoDup (foldl Set_add s xs)
  /\ forall y, y ∈ foldl Set_add s xs <-> y ∈ s \/ y ∈ xs.
Proof.
  revert s. induction xs as [|x xs IH]; intros s Hs; simpl.
  - split; [assumption|]. intros y. rewrite elem_of_nil. tauto.
  - destruct (IH (Set_add s x) (Set_add_NoDup s x Hs)) as [Hn He].
    split; [assumption|]. intros y.
    rewrite He, Set_add_elem, elem_of_cons. tauto.
Qed.

Lemma Set_of_size {A} `{EqDecision A} (xs : list A) :
  length (Set_of xs) = length (remove_dups xs).
Proof.
  destruct (foldl_Set_add xs [] (NoDup_nil_2)) as [Hn He].
  apply Permutation_length, NoDup_Permutation.
  - exact Hn.
  - apply NoDup_remove_dups.
  - intros y. unfold Set_of. rewrite He, elem_of_remove_dups, elem_of_nil. tauto.
Qed.

(** Reading a property after a write. *)
Lemma get_set {V} (o : object V) (k k' : string) (v : V) :
  get (set o k v) k' = if decide (k = k') then Some v else get o k'.
Proof.
  induction o as [|[k0 v0] o IH]; simpl.
  - reflexivity.
  - destruct (decide (k0 = k)) as [->|Hne]; simpl.
    + destruct (decide (k = k')); reflexivity.
    + destruct (decide (k0 = k')) as [->|Hne'].
      * destruct (decide (k = k')); [congruence|reflexivity].
      * exact IH.
Qed.

(** Every value stored by a loop of writes [o[k] = f(k)] is some [f k]
    under its key. *)
Lemma values_set {V} (o : object V) (k : string) (v : V) (P : string -> V -> Prop) :
  Forall (fun kv => P kv.1 kv.2) o -> P k v ->
  Forall (fun kv => P kv.1 kv.2) (set o k v).
Proof.
  intros Ho Hv. induction Ho as [|[k0 v0] o H0 Ho IH]; simpl.
  - repeat constructor. exact Hv.
  - destruct (decide (k0 = k)); constructor; auto.
Qed.

Lemma values_foldl_set {V} (f : string -> V) (ks : list string) (o : object V)
  (P : string -> V -> Prop) :
  Forall (fun kv => P kv.1 kv.2) o -> (forall k, P k (f k)) ->
  Forall (fun kv => P kv.1 kv.2) (foldl (fun o k => set o k (f k)) o ks).
Proof.
  intros Ho Hf. revert o Ho. induction ks as [|k ks IH]; intros o Ho; simpl.
  - exact Ho.
  - apply IH, values_set; auto.
Qed.

End MoreFacts.

(* ================================================================== *)
(** ** Data quality *)
(* ================================================================== *)

Section DataQualityFacts.
Import JS Types DataProcessing.

Lemma is_missing_spec (v : value) : is_missing v = true <-> Spec.missing v.
Proof.
  unfold is_missing, Spec.missing.
  rewrite !orb_true_iff, !bool_decide_eq_true, !elem_of_cons, elem_of_nil.
  tauto.
Qed.

Lemma count_cells (vs : list value) (total : nat) :
  foldl (fun total value => if is_missing value then S total else total) total vs
  = total + length (filter Spec.missing vs).
Proof.
  revert total. induction vs as [|v vs IH]; intros total; simpl.
  - lia.
  - rewrite IH, filter_cons.
    destruct (is_missing v) eqn:E.
    + apply is_missing_spec in E. rewrite decide_True by assumption. simpl. lia.
    + rewrite decide_False; [reflexivity|].
      intros H. apply is_missing_spec in H. congruence.
Qed.

Lemma count_rows (data : list row) (total : nat) :
  foldl (fun total r =>
           foldl (fun total value => if is_missing value then S total else total)
                 total (Object_values r))
        total data
  = total + Scorer.missing_cells data.
Proof.
  revert total. induction data as [|r data IH]; intros total.
  - simpl. unfold Scorer.missing_cells. simpl. lia.
  - cbn [foldl]. rewrite IH, count_cells.
    unfold Scorer.missing_cells. simpl. lia.
Qed.

Lemma count_missing_total (data : list row) :
  count_missing data = Scorer.missing_cells data.
Proof. unfold count_missing. now rewrite count_rows. Qed.

End DataQualityFacts.

Section RectangularFacts.
Import JS Types DataProcessing.

(** Read under its own keys, a row gives its own values. *)
Lemma cells_of_own_keys (r : row) :
  NoDup (Object_keys r) -> map (fun c => cell r c) (Object_keys r) = Object_values r.
Proof.
  unfold Object_keys, Object_values, cell.
  induction r as [|[k v] r IH]; intros Hnd; [reflexivity|].
  rewrite !fmap_cons in *. cbn [fst snd] in *.
  apply NoDup_cons in Hnd as [Hk Hnd].
  cbn [map get]. rewrite decide_True by reflexivity. cbn [default]. f_equal.
  rewrite <- (IH Hnd). apply map_ext_in. intros c Hc.
  rewrite decide_False; [reflexivity|].
  intros ->. apply Hk. now apply list_elem_of_In.
Qed.

Lemma missing_cells_of_row (r : row) (columns : list string) :
  NoDup (Object_keys r) -> Object_keys r ≡ₚ columns ->
  length (filter Spec.missing (Object_values r))
  = length (filter Spec.missing (map (fun c => cell r c) columns)).
Proof.
  intros Hnd Hp. rewrite <- (cells_of_own_keys r Hnd).
  apply Permutation_length. now rewrite Hp.
Qed.

(** On rectangular data the scorer visits every cell. *)
Lemma missing_cells_rectangular (data : list row) :
  Spec.rectangular data -> Scorer.missing_cells data = Spec.missing_total data.
Proof.
  unfold Spec.rectangular, Scorer.missing_cells, Spec.missing_total.
  generalize (Spec.columns_of data). intros columns Hall.
  induction Hall as [|r rows [Hnd Hp] Hall IH]; [reflexivity|].
  cbn [map sum_list sum_list_with]. rewrite IH.
  now rewrite (missing_cells_of_row r columns Hnd Hp).
Qed.

End RectangularFacts.

(** C7 fails on the code for rows that lack a cell.  Of the two rows
    {a: 1, b: 2} and {a: 3} the second has no cell in column b: the cell
    reads undefined, the specification counts it as missing, and so does
    [detectColumnTypes] for column b.  [analyzeDataQuality] visits the own
    properties of each row only and counts no missing value.  On
    rectangular data its total is the one stated, and its duplicate-row
    total is as stated for every data set: ten rows of which two are
    identical give one duplicate. *)
Theorem C7_absent_cells_are_not_counted
  (Date_parse : string -> JS.num) (Number_toString : JS.num -> string) :
  let quality := DataProcessing.analyzeDataQuality Date_parse Number_toString in
  let columns :=
    DataProcessing.detectColumnTypes Date_parse Number_toString Examples.ragged in
  (JS.cell [("a"%string, Examples.int 3)] "b" = JS.JUndef
   /\ Spec.missing JS.JUndef
   /\ Spec.missing_total Examples.ragged = 1
   /\ Types.DataQuality.missingValues (quality Examples.ragged) = 0
   /\ Types.missingValues <$> JS.get columns "b" = Some (Some 1))
  /\ (forall data : list JS.row,
        Spec.rectangular data ->
        Types.DataQuality.missingValues (quality data) = Spec.missing_total data)
  /\ (forall data : list JS.row,
        Types.DataQuality.duplicateRows (quality data) = Spec.duplicate_total data)
  /\ length Examples.ten_rows = 10
  /\ Types.DataQuality.duplicateRows (quality Examples.ten_rows) = 1.
Proof.
  cbv zeta. split; [|split; [|split; [|split]]].
  - split; [reflexivity|]. split; [unfold Spec.missing; set_solver|].
    split; [vm_compute; reflexivity|]. split; reflexivity.
  - intros data Hrect. destruct data as [|r data]; [reflexivity|].
    cbn [DataProcessing.analyzeDataQuality Types.DataQuality.missingValues].
    rewrite count_missing_total. now apply missing_cells_rectangular.
  - intros data. destruct data as [|r data]; [reflexivity|].
    cbn [DataProcessing.analyzeDataQuality Types.DataQuality.duplicateRows].
    unfold Spec.duplicate_total. now rewrite Set_of_size.
  - reflexivity.
  - reflexivity.
Qed.

(* ================================================================== *)
(** ** Outliers *)
(* ================================================================== *)

Section OutlierFacts.
Import JS Types Analysis.

Lemma column_values_length (data : list row) (c : string) :
  length (column_values data c) <= length data.
Proof.
  unfold column_values. rewrite length_map.
  etransitivity; [apply length_filter|]. now rewrite length_map.
Qed.

Lemma flagged_outside (f : Fences) (c : string) (r : row) :
  flagged f c r = true
  <-> Spec.outside (lowerBound f, upperBound f) (Number (cell r c)).
Proof.
  unfold flagged, Spec.outside, gt. cbn [fst snd].
  now rewrite orb_true_iff.
Qed.

Lemma flagged_count (f : Fences) (c : string) (data : list row) :
  length (filter (fun r => flagged f c r = true) data)
  = Spec.outlier_rows (lowerBound f, upperBound f) data c.
Proof.
  unfold Spec.outlier_rows. f_equal.
  apply list_filter_iff. intros r. apply flagged_outside.
Qed.

(** What [column_outliers] stores, and when. *)
Lemma column_outliers_Some (data : list row) (column : DataColumn) (info : OutlierInfo) :
  column_outliers data column = Some info ->
  let c := name column in
  let f := fences_of (column_values data c) in
  5 <= length (column_values data c)
  /\ count info = length (filter (fun r => flagged f c r = true) data)
  /\ 0 < count info
  /\ boundaries info = {| lower := lowerBound f; upper := upperBound f |}
  /\ examples info = take 5 (filter (fun r => flagged f c r = true) data).
Proof.
  intros H. cbv zeta. unfold column_outliers in H.
  destruct (Nat.ltb_spec (length (column_values data (name column))) 5) as [|Hlen];
    [discriminate|].
  destruct (Nat.ltb_spec 0
    (length (filter (fun r => flagged (fences_of (column_values data (name column)))
                                       (name column) r = true) data))) as [Hpos|];
    [|discriminate].
  injection H as <-. cbn [count boundaries examples]. auto.
Qed.


(** The entry depends on the column through its name only. *)
Lemma column_outliers_name (data : list row) (col col' : DataColumn) :
  name col = name col' -> column_outliers data col = column_outliers data col'.
Proof. unfold column_outliers. now intros ->. Qed.

(** The entries after the loop over the columns [cols]. *)
Lemma outlier_loop (data : list row) (cols : list DataColumn)
  (init : gmap string OutlierInfo) (c : string) :
  foldl (fun outlierInfo column =>
           match column_outliers data column with
           | Some info => <[name column := info]> outlierInfo
           | None => outlierInfo
           end) init cols !! c
  = match list_find (fun col => name col = c /\ is_Some (column_outliers data col))
                    (reverse cols) with
    | Some (_, col) => column_outliers data col
    | None => init !! c
    end.
Proof.
  revert init. induction cols as [|col cols IH]; intros init.
  - reflexivity.
  - cbn [foldl]. rewrite IH, reverse_cons. clear IH.
    destruct (list_find _ (reverse cols)) as [[i col']|] eqn:E.
    + erewrite list_find_app_l by exact E. reflexivity.
    + rewrite list_find_app_r by exact E. cbn [list_find].
      destruct (decide (name col = c /\ is_Some (column_outliers data col)))
        as [[Hn [info Hi]]|Hno]; cbn.
      * rewrite Hi, <- Hn. apply lookup_insert_eq.
      * destruct (column_outliers data col) as [info|] eqn:Hi; [|reflexivity].
        apply lookup_insert_ne. intros Hn. apply Hno. split; [exact Hn|]. eauto.
Qed.

Lemma identifyOutliers_lookup (data : list row) (columns : object DataColumn)
  (c : string) (info : OutlierInfo) :
  identifyOutliers data columns !! c = Some info
  <-> exists col, col ∈ numeric_columns columns /\ name col = c
                  /\ column_outliers data col = Some info.
Proof.
  unfold identifyOutliers. rewrite outlier_loop, lookup_empty.
  destruct (list_find _ _) as [[i col]|] eqn:E.
  - apply list_find_Some in E as (Hi & [Hn Hs] & _).
    assert (Hin : col ∈ numeric_columns columns).
    { apply elem_of_reverse, list_elem_of_lookup. eauto. }
    split.
    + intros H. eauto.
    + intros (col' & _ & Hn' & H').
      rewrite (column_outliers_name data col col') by congruence. exact H'.
  - split; [discriminate|].
    intros (col & Hin & Hn & H).
    apply list_find_None in E. rewrite Forall_forall in E.
    exfalso. apply (E col); [now apply elem_of_reverse|]. split; eauto.
Qed.


Lemma not_nullish_spec (v : value) :
  not_nullish v = true <-> v <> JNull /\ v <> JUndef.
Proof. destruct v; simpl; split; try tauto; try discriminate; intuition congruence. Qed.


End OutlierFacts.

(** C8: on a data set with fewer than 5 rows the outlier detector returns
    the empty mapping, the correlation finder the empty list, and the
    time-trend detector no trend for every pair of columns; each of them
    returns normally. *)
Theorem C8_fewer_than_five_rows
  (Date_parse : string -> JS.num) (data : list JS.row)
  (columns : JS.object Types.DataColumn) :
  length data < 5 ->
  Analysis.identifyOutliers data columns = ∅
  /\ Analysis.findCorrelations data columns = []
  /\ forall dateColumn valueColumn,
       Analysis.detectTimeTrends Date_parse data dateColumn valueColumn = None.
Proof.
  intros Hlen. split; [|split].
  - apply map_eq. intros c. rewrite lookup_empty.
    apply eq_None_not_Some. intros [info H].
    apply identifyOutliers_lookup in H as (col & _ & _ & H).
    apply column_outliers_Some in H as (H5 & _).
    pose proof (column_values_length data (Types.name col)). lia.
  - unfold Analysis.findCorrelations. destruct data as [|r data]; [reflexivity|].
    assert (E : omap (fun p => Analysis.correlate (r :: data) (Types.name p.1) (Types.name p.2))
                     (Analysis.index_pairs (Analysis.numeric_columns columns)) = []).
    { induction (Analysis.index_pairs (Analysis.numeric_columns columns)) as [|p l IH];
        [reflexivity|].
      cbn [omap list_omap]. rewrite IH.
      unfold Analysis.correlate.
      destruct (Nat.ltb_spec
        (length (Analysis.paired_values (r :: data) (Types.name p.1) (Types.name p.2))) 5)
        as [|Hge]; [reflexivity|].
      exfalso. unfold Analysis.paired_values in Hge. rewrite length_map in Hge.
      pose proof (length_filter
        (fun r0 => JS.not_nullish (JS.cell r0 (Types.name p.1))
                   && JS.not_nullish (JS.cell r0 (Types.name p.2)) = true) (r :: data)).
      lia. }
    rewrite E. reflexivity.
  - intros dateColumn valueColumn. unfold Analysis.detectTimeTrends.
    destruct (Nat.ltb_spec (length data) 5); [reflexivity|lia].
Qed.

Lemma C8_fewer_than_five_rows_witness :
  length Examples.four_rows < 5
  /\ Analysis.identifyOutliers Examples.four_rows (Examples.infer Examples.four_rows) = ∅
  /\ Analysis.findCorrelations Examples.four_rows (Examples.infer Examples.four_rows) = []
  /\ forall dateColumn valueColumn,
       Analysis.detectTimeTrends Runtime.iso_date_parse Examples.four_rows
                                 dateColumn valueColumn = None.
Proof.
  split; [simpl; lia|].
  apply (C8_fewer_than_five_rows Runtime.iso_date_parse Examples.four_rows).
  simpl; lia.
Defined.

(** C10: the scan for outliers tests every row of the data set on the
    number its cell converts to: the count of an entry is the number of
    rows whose converted cell lies outside the fences, a null cell is
    tested as 0, and a cell that converts to NaN is never outside. *)
Theorem C10_every_row_is_tested
  (data : list JS.row) (columns : JS.object Types.DataColumn) (c : string)
  (info : Types.OutlierInfo) :
  Analysis.identifyOutliers data columns !! c = Some info ->
  let f := Analysis.fences_of (Analysis.column_values data c) in
  let bounds := (Analysis.lowerBound f, Analysis.upperBound f) in
  Types.count info
  = length (filter (fun r => Spec.outside bounds (JS.Number (JS.cell r c))) data)
  /\ (forall r, JS.cell r c = JS.JNull ->
        (Spec.outside bounds (JS.Number (JS.cell r c)) <-> Spec.outside bounds JS.zero))
  /\ (forall r, JS.Number (JS.cell r c) = JS.NaN ->
        ~ Spec.outside bounds (JS.Number (JS.cell r c))).
Proof.
  intros H. cbv zeta.
  apply identifyOutliers_lookup in H as (col & _ & Hn & H).
  apply column_outliers_Some in H as (_ & Hc & _).
  rewrite Hn in Hc. split; [|split].
  - rewrite Hc. apply flagged_count.
  - intros r ->. reflexivity.
  - intros r ->. unfold Spec.outside. cbn [fst snd].
    intros [E|E]; [discriminate E|].
    destruct (Analysis.upperBound _); discriminate E.
Qed.

Lemma C10_every_row_is_tested_witness :
  Analysis.identifyOutliers Examples.tens_and_null
    [("x"%string, Examples.numeric_column "x")] !! "x"%string
  = Some Examples.tens_and_null_entry
  /\ let f := Analysis.fences_of (Analysis.column_values Examples.tens_and_null "x") in
     let bounds := (Analysis.lowerBound f, Analysis.upperBound f) in
     Types.count Examples.tens_and_null_entry
     = length (filter (fun r => Spec.outside bounds (JS.Number (JS.cell r "x")))
                      Examples.tens_and_null)
     /\ (forall r, JS.cell r "x" = JS.JNull ->
           (Spec.outside bounds (JS.Number (JS.cell r "x"))
            <-> Spec.outside bounds JS.zero))
     /\ (forall r, JS.Number (JS.cell r "x") = JS.NaN ->
           ~ Spec.outside bounds (JS.Number (JS.cell r "x"))).
Proof.
  assert (E : Analysis.identifyOutliers Examples.tens_and_null
                [("x"%string, Examples.numeric_column "x")] !! "x"%string
              = Some Examples.tens_and_null_entry) by by_evaluation.
  split; [exact E|].
  exact (C10_every_row_is_tested _ _ _ _ E).
Defined.

(* ================================================================== *)
(** ** Column typing *)
(* ================================================================== *)

Section ColumnFacts.
Import JS Types DataProcessing.

Lemma sample_values_present (sample : list row) (c : string) :
  sample_values sample c = Spec.present_cells sample c.
Proof.
  unfold sample_values, Spec.present_cells.
  apply list_filter_iff. intros v. apply not_nullish_spec.
Qed.

Variable Date_parse : string -> num.
Variable Number_toString : num -> string.

Local Abbreviation detect := (detectColumnTypes Date_parse Number_toString).
Local Abbreviation info := (column_info Date_parse Number_toString).

Lemma sample_is_take (data : list row) :
  take (Nat.min 100 (length data)) data = take 100 data.
Proof.
  destruct (Nat.le_ge_cases 100 (length data)) as [H|H].
  - now rewrite Nat.min_l.
  - rewrite Nat.min_r by assumption. now rewrite !take_ge by lia.
Qed.

(** Every column of the result is the metadata computed for its name
    from the first 100 rows. *)
Lemma detect_entries (data : list row) :
  Forall (fun kv => kv.2 = info (take 100 data) (Nat.min 100 (length data)) kv.1)
         (detect data).
Proof.
  unfold detectColumnTypes. destruct data as [|first data]; [constructor|].
  rewrite sample_is_take.
  apply (values_foldl_set
           (info (take 100 (first :: data)) (Nat.min 100 (length (first :: data))))
           (Object_keys first) []
           (fun k v => v = info (take 100 (first :: data))
                                (Nat.min 100 (length (first :: data))) k)).
  - constructor.
  - reflexivity.
Qed.

Lemma detect_get (data : list row) (c : string) (col : DataColumn) :
  get (detect data) c = Some col ->
  col = info (take 100 data) (Nat.min 100 (length data)) c.
Proof.
  intros H. pose proof (detect_entries data) as Hall.
  induction Hall as [|[k v] o Hkv Hall IH]; [discriminate|].
  simpl in H. destruct (decide (k = c)) as [->|Hne].
  - injection H as <-. exact Hkv.
  - now apply IH.
Qed.

Lemma info_name (sample : list row) (n : nat) (c : string) :
  name (info sample n c) = c.
Proof. unfold column_info. now destruct (decide _). Qed.

Lemma info_quartiles (sample : list row) (n : nat) (c : string) :
  type (info sample n c) = numeric ->
  quartiles (info sample n c)
  = Some (quartiles_of (sort_numbers (map Number (Spec.present_cells sample c)))).
Proof.
  unfold column_info. rewrite sample_values_present.
  destruct (decide _) as [E|E]; cbn [type quartiles]; [reflexivity|congruence].
Qed.

(** The scan of the rows for one pair of fences. *)
Lemma scan_rows (lo hi : num) (c : string) (data : list row) (acc : nat) :
  foldl (fun outlierCount r =>
           let value := Number (cell r c) in
           if negb (isNaN value) && (lt value lo || gt value hi)
           then S outlierCount else outlierCount) acc data
  = acc + Spec.outlier_rows (lo, hi) data c.
Proof.
  unfold Spec.outlier_rows.
  revert acc. induction data as [|r data IH]; intros acc; cbn [foldl].
  - simpl. lia.
  - rewrite IH, filter_cons. clear IH.
    destruct (decide (Spec.outside (lo, hi) (Number (cell r c)))) as [Ho|Ho].
    + assert (E : negb (isNaN (Number (cell r c)))
                  && (lt (Number (cell r c)) lo || gt (Number (cell r c)) hi) = true).
      { unfold Spec.outside, gt in *. cbn [fst snd] in Ho.
        destruct (Number (cell r c)); simpl in *;
          try (destruct Ho as [Ho|Ho]; try discriminate Ho;
               destruct hi; discriminate Ho);
          destruct Ho as [-> | ->]; auto using orb_true_r. }
      cbv zeta. rewrite E. simpl. lia.
    + assert (E : negb (isNaN (Number (cell r c)))
                  && (lt (Number (cell r c)) lo || gt (Number (cell r c)) hi) = false).
      { apply not_true_is_false. intros E. apply Ho.
        apply andb_true_iff in E as [_ E]. apply orb_true_iff in E.
        unfold Spec.outside, gt in *. exact E. }
      cbv zeta. rewrite E. reflexivity.
Qed.

Lemma fence_pair_quartiles (sorted : list num) :
  let '(q0, _, q2) := quartiles_of sorted in
  let iqr := sub (arith q2) (arith q0) in
  (sub (arith q0) (mul (Fin (ratio 15 10)) iqr),
   add (arith q2) (mul (Fin (ratio 15 10)) iqr))
  = Spec.fence_pair sorted.
Proof.
  unfold quartiles_of, Spec.fence_pair, num_at.
  now rewrite rank_index_25, rank_index_75.
Qed.

Lemma scan_column_info (data sample : list row) (n : nat) (c : string) (acc : nat) :
  scan_column data (info sample n c) acc
  = acc + if decide (type (info sample n c) = numeric)
          then Spec.outlier_rows
                 (Spec.fence_pair (Spec.ascending (map Number (Spec.present_cells sample c))))
                 data c
          else 0.
Proof.
  unfold scan_column. destruct (decide _) as [E|E].
  - rewrite E, (info_quartiles _ _ _ E), info_name.
    pose proof (fence_pair_quartiles
                  (sort_numbers (map Number (Spec.present_cells sample c)))) as F.
    destruct (quartiles_of _) as [[q0 q1] q2].
    cbv zeta in F. rewrite scan_rows. unfold Spec.ascending. now rewrite F.
  - destruct (type (info sample n c)); try (rewrite Nat.add_0_r; reflexivity).
    congruence.
Qed.

Lemma scan_columns (data sample : list row) (n : nat) (cols : list DataColumn) (acc : nat) :
  Forall (fun col => col = info sample n (name col)) cols ->
  foldl (fun outlierCount column => scan_column data column outlierCount) acc cols
  = acc + Scorer.outlier_total sample data cols.
Proof.
  unfold Scorer.outlier_total.
  intros Hall. revert acc. induction Hall as [|col cols Hc Hall IH]; intros acc.
  - simpl. lia.
  - cbn [foldl]. rewrite IH, filter_cons. clear IH.
    rewrite Hc at 1. rewrite scan_column_info. rewrite <- Hc.
    destruct (decide (type col = numeric)); simpl; lia.
Qed.

End ColumnFacts.

(** What the scorer computes: the outlier total of [analyzeDataQuality]
    is the sum, over the columns that [detectColumnTypes] types numeric, of
    the rows of the full data set outside the column's fences; the column
    types and the quartiles of the fences are those of the first 100 rows,
    and no column is skipped for having few values. *)
Lemma quality_outliers_scanned
  (Date_parse : string -> JS.num) (Number_toString : JS.num -> string)
  (data : list JS.row) :
  Types.DataQuality.outliers
    (DataProcessing.analyzeDataQuality Date_parse Number_toString data)
  = Scorer.outlier_total (take 100 data) data
      (JS.Object_values (DataProcessing.detectColumnTypes Date_parse Number_toString data)).
Proof.
  destruct data as [|r data]; [reflexivity|].
  cbn [DataProcessing.analyzeDataQuality Types.DataQuality.outliers].
  rewrite (scan_columns Date_parse Number_toString (r :: data) (take 100 (r :: data))
             (Nat.min 100 (length (r :: data)))).
  - reflexivity.
  - pose proof (detect_entries Date_parse Number_toString (r :: data)) as Hall.
    unfold JS.Object_values. apply Forall_fmap.
    eapply Forall_impl; [exact Hall|].
    intros [k v] Hkv. cbn in *. rewrite Hkv at 1.
    rewrite Hkv, info_name. reflexivity.
Qed.

(** C6 fails on the code.  For 100 rows with the value 1 followed by 101
    rows with the value 2 the quartiles of all the values are 1 and 2, the
    fences are (-0.5, 3.5), and the detector of section 4.4 finds no
    outlier: the total stated is 0 and [identifyOutliers] returns no
    entry.  [analyzeDataQuality] takes the quartiles that
    [detectColumnTypes] computed from the first 100 rows, both 1, and
    counts the 101 rows with the value 2.  It does not skip a column with
    fewer than five values either: for four rows with the value 1 and one
    with null it counts 1 where the detector skips the column. *)
Theorem C6_quality_total_is_not_the_detector_total :
  let quality data :=
    Types.DataQuality.outliers
      (DataProcessing.analyzeDataQuality Runtime.iso_date_parse
                                         Runtime.decimal_toString data) in
  let stated := Spec.outlier_total Runtime.iso_date_parse Runtime.decimal_toString in
  let detector data := Analysis.identifyOutliers data (Examples.infer data) in
  (length Examples.ones_then_twos = 201
   /\ Spec.fence_pair
        (Spec.ascending (map JS.Number (Spec.non_missing_cells Examples.ones_then_twos "x")))
      = (JS.Fin (JS.ratio (-1) 2), JS.Fin (JS.ratio 7 2))
   /\ stated Examples.ones_then_twos = 0
   /\ detector Examples.ones_then_twos = ∅
   /\ quality Examples.ones_then_twos = 101)
  /\ (stated Examples.four_ones_and_null = 0
      /\ detector Examples.four_ones_and_null = ∅
      /\ quality Examples.four_ones_and_null = 1).
Proof.
  cbv zeta. split.
  - split; [vm_compute; reflexivity|]. split; [by_evaluation|].
    split; [vm_compute; reflexivity|]. split; [by_evaluation|].
    vm_compute; reflexivity.
  - split; [vm_compute; reflexivity|]. split; [by_evaluation|].
    vm_compute; reflexivity.
Qed.

(* ================================================================== *)
(** ** Worked examples *)
(* ================================================================== *)

(** C2, as the code computes it: for the values 1, 2, 3, 4, 5, 100 the
    quartile indices are floor(6 * 0.25) = 1 and floor(6 * 0.75) = 4, so
    Q1 = 2 and Q3 = 5, the IQR is 3 and the fences are (-2.5, 9.5); the
    row with 100 is the only one flagged. *)
Theorem C2_fences_of_example :
  let f := Analysis.fences_of (Analysis.column_values Examples.with_hundred "x") in
  Analysis.q1 f = JS.of_Z 2
  /\ Analysis.q3 f = JS.of_Z 5
  /\ Analysis.iqr f = JS.of_Z 3
  /\ Analysis.lowerBound f = JS.Fin (JS.ratio (-5) 2)
  /\ Analysis.upperBound f = JS.Fin (JS.ratio 19 2)
  /\ filter (fun r => Analysis.flagged f "x" r = true) Examples.with_hundred
     = [Examples.hundred_row]
  /\ Analysis.identifyOutliers Examples.with_hundred
       (Examples.infer Examples.with_hundred) !! "x"%string
     = Some Examples.with_hundred_entry.
Proof. cbv zeta. repeat split; by_evaluation. Qed.

(** C2, as the specification states it, fails: the third quartile of the
    example is not 4 and the fences are not (-1, 7). *)
Lemma C2_stated_fences_counterexample :
  ~ (let f := Analysis.fences_of (Analysis.column_values Examples.with_hundred "x") in
     Analysis.q1 f = JS.of_Z 2
     /\ Analysis.q3 f = JS.of_Z 4
     /\ Analysis.iqr f = JS.of_Z 2
     /\ Analysis.lowerBound f = JS.of_Z (-1)
     /\ Analysis.upperBound f = JS.of_Z 7).
Proof.
  assert (Hne : Analysis.q3 (Analysis.fences_of
                   (Analysis.column_values Examples.with_hundred "x")) <> JS.of_Z 4)
    by by_evaluation.
  cbv zeta. intros (_ & H & _). exact (Hne H).
Qed.

(** With 5 rows or more [detectTimeTrends] always returns a trend,
    whatever the averages are. *)
Lemma detectTimeTrends_enough_rows
  (Date_parse : string -> JS.num) (data : list JS.row) (dateColumn valueColumn : string) :
  5 <= length data ->
  is_Some (Analysis.detectTimeTrends Date_parse data dateColumn valueColumn).
Proof.
  intros H. unfold Analysis.detectTimeTrends.
  destruct (Nat.ltb_spec (length data) 5); [lia|]. eauto.
Qed.

(** C4 fails on the code: with a first-quarter average of zero the
    detector still reports a trend, whose percent change is the quotient
    by zero. *)
Theorem C4_zero_first_quarter_is_reported :
  let values :=
    map (fun item => JS.Number (JS.cell item "sales"))
        (JS.sort (Analysis.by_date Runtime.iso_date_parse "date")
                 Examples.sales_from_zero) in
  5 <= length Examples.sales_from_zero
  /\ Analysis.average (take (length values / 4) values) = JS.zero
  /\ Analysis.detectTimeTrends Runtime.iso_date_parse
       Examples.sales_from_zero "date" "sales"
     = Some Examples.sales_from_zero_trend.
Proof. cbv zeta. split; [simpl; lia|]. split; by_evaluation. Qed.

(** A column without any value passes the first test of the chain. *)
Lemma infer_type_no_values
  (Date_parse : string -> JS.num) (Number_toString : JS.num -> string)
  (uniqueValues sampleSize : nat) :
  DataProcessing.infer_type Date_parse Number_toString [] uniqueValues sampleSize
  = Types.numeric.
Proof. reflexivity. Qed.

(** C5 fails on the code: a column whose sampled cells are all null is
    typed numeric, not text; its missing percentage is 100. *)
Theorem C5_all_missing_column_is_numeric
  (Date_parse : string -> JS.num) (Number_toString : JS.num -> string) :
  let columns :=
    DataProcessing.detectColumnTypes Date_parse Number_toString Examples.null_column in
  DataProcessing.sample_values Examples.null_column "a" = []
  /\ Types.type <$> JS.get columns "a" = Some Types.numeric
  /\ Types.missingPercentage <$> JS.get columns "a" = Some (Some (JS.of_Z 100)).
Proof.
  cbv zeta. split; [reflexivity|]. split; [reflexivity|].
  cbn. do 2 f_equal. by_evaluation.
Qed.

(* ================================================================== *)
(** ** The order of numbers and the statistics of a column *)
(* ================================================================== *)

Section OrderFacts.
Import JS.

Lemma Qcltb_irrefl (x : Qc) : Qcltb x x = false.
Proof. apply Qcltb_ge, Qcle_refl. Qed.

Lemma Qcltb_asym (x y : Qc) : Qcltb x y = true -> Qcltb y x = false.
Proof. rewrite Qcltb_lt, Qcltb_ge. apply Qclt_le_weak. Qed.

Lemma Qcltb_sub (x y : Qc) : Qcltb 0%Qc (x + - y)%Qc = Qcltb y x.
Proof.
  destruct (Qcltb y x) eqn:E.
  - apply Qcltb_lt. apply Qcltb_lt in E. now apply Qclt_minus_iff in E.
  - apply Qcltb_ge. apply Qcltb_ge in E.
    apply Qcnot_lt_le. intros H. apply Qclt_minus_iff in H.
    now apply Qcle_not_lt in E.
Qed.

(** On numbers other than NaN, [a - b > 0] is [b < a]. *)
Lemma gt_sub (a b : num) :
  a <> NaN -> b <> NaN -> gt (sub a b) zero = lt b a.
Proof.
  intros Ha Hb. destruct a, b; try congruence; try reflexivity.
  unfold gt, sub, neg, add, lt, zero. apply Qcltb_sub.
Qed.

Lemma lt_asym (a b : num) : lt a b = true -> lt b a = false.
Proof.
  destruct a, b; simpl; try congruence. apply Qcltb_asym.
Qed.

Lemma no_greater_trans (a b c : num) :
  a <> NaN -> b <> NaN -> c <> NaN ->
  Spec.no_greater a b -> Spec.no_greater b c -> Spec.no_greater a c.
Proof.
  unfold Spec.no_greater.
  intros Ha Hb Hc. destruct a, b, c; simpl; try congruence.
  rewrite !Qcltb_ge. apply Qcle_trans.
Qed.

Lemma no_greater_refl (a : num) : Spec.no_greater a a.
Proof. unfold Spec.no_greater. destruct a; simpl; auto using Qcltb_irrefl. Qed.

Lemma no_greater_total (a b : num) :
  lt a b = true -> Spec.no_greater a b.
Proof. apply lt_asym. Qed.

(** The sort by [a - b] is ascending on a sample without NaN. *)
Lemma sort_numbers_ascending (xs : list num) :
  NaN ∉ xs -> Spec.ascending_sort_of xs (DataProcessing.sort_numbers xs).
Proof.
  intros Hnan. split; [apply sort_perm|].
  apply (sort_sorted sub Spec.no_greater (fun a => a <> NaN)).
  - intros a b c. apply no_greater_trans.
  - intros a b Ha Hb H. rewrite gt_sub in H by assumption. exact H.
  - intros a b Ha Hb H. rewrite gt_sub in H by assumption. now apply lt_asym.
  - apply Forall_forall. intros x Hx ->. contradiction.
Qed.

(** [Math.min] of a sample without NaN. *)
Lemma foldl_min2 (xs : list num) (acc : num) :
  acc <> NaN -> NaN ∉ xs ->
  foldl min2 acc xs <> NaN
  /\ (foldl min2 acc xs = acc \/ foldl min2 acc xs ∈ xs)
  /\ lt acc (foldl min2 acc xs) = false
  /\ forall x, x ∈ xs -> lt x (foldl min2 acc xs) = false.
Proof.
  revert acc. induction xs as [|x xs IH]; intros acc Ha Hx; cbn [foldl].
  - repeat split; auto.
    + apply (no_greater_refl acc).
    + intros x Hin. inversion Hin.
  - assert (Hx0 : x <> NaN) by (intros ->; apply Hx; left).
    assert (Hxs : NaN ∉ xs) by (intros H; apply Hx; now right).
    assert (Hm : min2 acc x = if lt x acc then x else acc).
    { unfold min2. destruct acc, x; try congruence; reflexivity. }
    assert (Hm0 : min2 acc x <> NaN) by (rewrite Hm; now destruct (lt x acc)).
    destruct (IH (min2 acc x) Hm0 Hxs) as (Hr & Hin & Hle & Hall).
    set (r := foldl min2 (min2 acc x) xs) in *.
    assert (Hacc : lt acc (min2 acc x) = false /\ lt x (min2 acc x) = false).
    { rewrite Hm. destruct (lt x acc) eqn:E.
      - split; [now apply lt_asym|apply (no_greater_refl x)].
      - split; [apply (no_greater_refl acc)|exact E]. }
    destruct Hacc as [H1 H2].
    split; [exact Hr|]. split; [|split].
    + destruct Hin as [Hin|Hin]; [|right; now right].
      rewrite Hin, Hm. destruct (lt x acc); [right; left|now left].
    + apply (no_greater_trans r (min2 acc x) acc); assumption.
    + intros y Hy. apply elem_of_cons in Hy as [->|Hy]; [|now apply Hall].
      apply (no_greater_trans r (min2 acc x) x); assumption.
Qed.

Lemma foldl_max2 (xs : list num) (acc : num) :
  acc <> NaN -> NaN ∉ xs ->
  foldl max2 acc xs <> NaN
  /\ (foldl max2 acc xs = acc \/ foldl max2 acc xs ∈ xs)
  /\ lt (foldl max2 acc xs) acc = false
  /\ forall x, x ∈ xs -> lt (foldl max2 acc xs) x = false.
Proof.
  revert acc. induction xs as [|x xs IH]; intros acc Ha Hx; cbn [foldl].
  - repeat split; auto.
    + apply (no_greater_refl acc).
    + intros x Hin. inversion Hin.
  - assert (Hx0 : x <> NaN) by (intros ->; apply Hx; left).
    assert (Hxs : NaN ∉ xs) by (intros H; apply Hx; now right).
    assert (Hm : max2 acc x = if lt acc x then x else acc).
    { unfold max2. destruct acc, x; try congruence; reflexivity. }
    assert (Hm0 : max2 acc x <> NaN) by (rewrite Hm; now destruct (lt acc x)).
    destruct (IH (max2 acc x) Hm0 Hxs) as (Hr & Hin & Hle & Hall).
    set (r := foldl max2 (max2 acc x) xs) in *.
    assert (Hacc : lt (max2 acc x) acc = false /\ lt (max2 acc x) x = false).
    { rewrite Hm. destruct (lt acc x) eqn:E.
      - split; [now apply lt_asym|apply (no_greater_refl x)].
      - split; [apply (no_greater_refl acc)|exact E]. }
    destruct Hacc as [H1 H2].
    split; [exact Hr|]. split; [|split].
    + destruct Hin as [Hin|Hin]; [|right; now right].
      rewrite Hin, Hm. destruct (lt acc x); [right; left|now left].
    + apply (no_greater_trans acc (max2 acc x) r); assumption.
    + intros y Hy. apply elem_of_cons in Hy as [->|Hy]; [|now apply Hall].
      apply (no_greater_trans x (max2 acc x) r); assumption.
Qed.

Lemma Math_min_minimum (xs : list num) :
  xs <> [] -> NaN ∉ xs -> Spec.is_minimum xs (Math_min xs).
Proof.
  intros Hne Hnan. unfold Math_min.
  destruct (foldl_min2 xs PInf) as (Hr & Hin & _ & Hall); [discriminate|assumption|].
  split; [|exact Hall].
  destruct Hin as [Hin|Hin]; [|exact Hin].
  destruct xs as [|x xs]; [congruence|].
  assert (Hx : lt x PInf = false) by (rewrite <- Hin; apply Hall; left).
  assert (x = PInf).
  { destruct x; try discriminate Hx; [|reflexivity]. exfalso. apply Hnan. left. }
  subst x. rewrite Hin. left.
Qed.

Lemma Math_max_maximum (xs : list num) :
  xs <> [] -> NaN ∉ xs -> Spec.is_maximum xs (Math_max xs).
Proof.
  intros Hne Hnan. unfold Math_max.
  destruct (foldl_max2 xs NInf) as (Hr & Hin & _ & Hall); [discriminate|assumption|].
  split; [|exact Hall].
  destruct Hin as [Hin|Hin]; [|exact Hin].
  destruct xs as [|x xs]; [congruence|].
  assert (Hx : lt NInf x = false) by (rewrite <- Hin; apply Hall; left).
  assert (x = NInf).
  { destruct x; try discriminate Hx; [|reflexivity]. exfalso. apply Hnan. left. }
  subst x. rewrite Hin. left.
Qed.

End OrderFacts.

Section StatisticsFacts.
Import JS Types DataProcessing.

Lemma mean_of_spec (xs : list num) : mean_of xs = Spec.arithmetic_mean xs.
Proof.
  unfold mean_of, Spec.arithmetic_mean. now rewrite reduce_sum_total, map_id.
Qed.

Lemma stdDev_of_spec (xs : list num) :
  stdDev_of xs (mean_of xs) = Math_sqrt (Spec.population_variance xs).
Proof.
  unfold stdDev_of, Spec.population_variance.
  now rewrite reduce_sum_total, mean_of_spec.
Qed.

Lemma quartiles_of_spec (sorted : list num) :
  quartiles_of sorted = Spec.nearest_rank_quartiles sorted.
Proof.
  unfold quartiles_of, Spec.nearest_rank_quartiles, num_at.
  now rewrite rank_index_25, rank_index_50, rank_index_75.
Qed.

Lemma even_mod2 (n : nat) : Nat.even n = (n mod 2 =? 0).
Proof.
  destruct (Nat.even n) eqn:E; symmetry.
  - apply Nat.even_spec in E as [k ->]. apply Nat.eqb_eq.
    rewrite Nat.mul_comm. apply Nat.Div0.mod_mul.
  - apply Nat.eqb_neq. intros H.
    apply Nat.Div0.mod_divides in H as [k Hk].
    assert (Nat.even n = true) by (apply Nat.even_spec; now exists k).
    congruence.
Qed.

Lemma median_of_spec (sorted : list num) :
  sorted <> [] ->
  exists m, median_of sorted = Some m /\ Spec.middle_median sorted m.
Proof.
  intros Hne. unfold median_of, Spec.middle_median, num_at.
  assert (Hlen : 0 < length sorted) by (destruct sorted; [congruence|simpl; lia]).
  rewrite even_mod2.
  destruct (Nat.eqb_spec (length sorted mod 2) 0) as [E|E].
  - assert (H2 : 2 <= length sorted).
    { destruct (length sorted) as [|[|n]]; [lia|discriminate E|lia]. }
    assert (Hm : length sorted / 2 < length sorted)
      by (apply Nat.div_lt; lia).
    destruct (lookup_lt_is_Some_2 sorted (length sorted / 2 - 1)) as [a Ha]; [lia|].
    destruct (lookup_lt_is_Some_2 sorted (length sorted / 2)) as [b Hb]; [lia|].
    rewrite Ha, Hb. cbn [arith default].
    eexists. split; [reflexivity|]. exists a, b. auto.
  - assert (Hm : length sorted / 2 < length sorted)
      by (apply Nat.div_lt; lia).
    destruct (lookup_lt_is_Some_2 sorted (length sorted / 2)) as [m Hm']; [lia|].
    exists m. auto.
Qed.

End StatisticsFacts.


(* ================================================================== *)
(** ** Correlations *)
(* ================================================================== *)

Section CorrelationFacts.
Import JS Types Analysis.

(** Sums and products are finite only on finite arguments. *)
Lemma add_finite (a b : num) : finite (add a b) <-> finite a /\ finite b.
Proof.
  unfold finite. split.
  - intros [q H]. destruct a, b; try discriminate H; eauto.
  - intros [[x ->] [y ->]]. simpl. eauto.
Qed.

Lemma neg_finite (a : num) : finite (neg a) <-> finite a.
Proof.
  unfold finite. split; intros [q H]; destruct a; try discriminate H; simpl; eauto.
Qed.

Lemma sub_finite (a b : num) : finite (sub a b) <-> finite a /\ finite b.
Proof. unfold sub. now rewrite add_finite, neg_finite. Qed.

Lemma inf_times_not_finite (s : bool) (x : Qc) : ~ finite (inf_times s x).
Proof.
  unfold inf_times, inf, finite. intros [q H].
  destruct (Qc_is_zero x); [discriminate H|].
  destruct (xorb s (Qc_is_neg x)); discriminate H.
Qed.

Lemma mul_finite (a b : num) : finite (mul a b) <-> finite a /\ finite b.
Proof.
  split.
  - intros H. destruct a, b; simpl in H;
      try (exfalso; destruct H as [? H]; discriminate H);
      try (exfalso; revert H; apply inf_times_not_finite);
      split; eexists; reflexivity.
  - intros [[x ->] [y ->]]. simpl. eexists; reflexivity.
Qed.

Lemma foldl_add_finite {A} (f : A -> num) (xs : list A) (acc : num) :
  finite (foldl (fun sum x => add sum (f x)) acc xs)
  <-> finite acc /\ Forall (fun x => finite (f x)) xs.
Proof.
  revert acc. induction xs as [|x xs IH]; intros acc; cbn [foldl].
  - rewrite Forall_nil. tauto.
  - rewrite IH, add_finite, Forall_cons. tauto.
Qed.

Lemma reduce_sum_finite {A} (f : A -> num) (xs : list A) :
  finite (reduce_sum f xs) <-> Forall (fun x => finite (f x)) xs.
Proof.
  unfold reduce_sum. rewrite foldl_add_finite.
  assert (finite zero) by (now exists 0%Qc). tauto.
Qed.

(** A finite denominator comes with a finite numerator. *)
Lemma numerator_finite (pairs : list (num * num)) (c r : Qc) :
  denominator_of pairs = SFin c r -> finite (numerator_of pairs).
Proof.
  unfold denominator_of, numerator_of. intros H.
  assert (Hm : finite (mul (sub (mul (of_nat (length pairs))
                                     (reduce_sum (fun p => mul p.1 p.1) pairs))
                                (mul (reduce_sum fst pairs) (reduce_sum fst pairs)))
                           (sub (mul (of_nat (length pairs))
                                     (reduce_sum (fun p => mul p.2 p.2) pairs))
                                (mul (reduce_sum snd pairs) (reduce_sum snd pairs))))).
  { destruct (mul _ _) as [| | |q]; try discriminate H. now exists q. }
  rewrite mul_finite, !sub_finite, !mul_finite, !reduce_sum_finite in Hm.
  destruct Hm as [[[_ Hx2] [Hx _]] [[_ Hy2] [Hy _]]].
  rewrite sub_finite, !mul_finite, !reduce_sum_finite.
  repeat split; try assumption; try (now eexists).
  rewrite Forall_forall in *. intros p Hp. apply mul_finite.
  specialize (Hx2 p Hp). specialize (Hy2 p Hp).
  apply mul_finite in Hx2, Hy2. tauto.
Qed.

(** A coefficient that passes the threshold is finite. *)
Lemma pearson_finite (pairs : list (num * num)) (t : Qc) :
  s_is_zero (denominator_of pairs) = false ->
  s_gt (s_abs (pearson pairs)) t = true ->
  Qc_is_neg t = false ->
  exists c r, pearson pairs = SFin c r.
Proof.
  unfold pearson. intros Hz Hgt Ht.
  destruct (denominator_of pairs) as [| | |c r] eqn:Hd.
  - destruct (numerator_of pairs); discriminate Hgt.
  - destruct (numerator_of pairs); try discriminate Hgt.
    simpl in Hgt. rewrite Ht in Hgt. discriminate Hgt.
  - destruct (numerator_of pairs); try discriminate Hgt.
    simpl in Hgt. rewrite Ht in Hgt. discriminate Hgt.
  - destruct (numerator_finite pairs c r Hd) as [x ->].
    simpl in Hz. simpl. rewrite Hz. eauto.
Qed.

Lemma correlate_Some (data : list row) (col1 col2 : string) (item : Correlation) :
  correlate data col1 col2 = Some item ->
  let pairs := paired_values data col1 col2 in
  let r := pearson pairs in
  columns item = (col1, col2)
  /\ 5 <= length pairs
  /\ s_is_zero (denominator_of pairs) = false
  /\ s_gt (s_abs r) (ratio 5 10) = true
  /\ strength item = (if s_gt (s_abs r) (ratio 8 10) then strong else moderate)
  /\ direction item = (if s_gt r 0%Qc then positive else negative)
  /\ correlation item = s_toFixed2 r.
Proof.
  intros H. cbv zeta. unfold correlate in H.
  destruct (Nat.ltb_spec (length (paired_values data col1 col2)) 5) as [|Hlen];
    [discriminate H|].
  destruct (s_is_zero (denominator_of (paired_values data col1 col2))) eqn:Hz;
    [discriminate H|].
  destruct (s_gt (s_abs (pearson (paired_values data col1 col2))) (ratio 5 10)) eqn:Hgt;
    [|discriminate H].
  injection H as <-. cbn [columns strength direction correlation].
  repeat split; auto.
Qed.

(** The entry of a pair reports a finite number. *)
Lemma correlate_finite (data : list row) (col1 col2 : string) (item : Correlation) :
  correlate data col1 col2 = Some item -> finite (correlation item).
Proof.
  intros H. apply correlate_Some in H as (_ & _ & Hz & Hgt & _ & _ & ->).
  destruct (pearson_finite _ _ Hz Hgt eq_refl) as (c & r & ->).
  simpl. eexists; reflexivity.
Qed.

Lemma reported_strength_finite (item : Correlation) (q : Qc) :
  correlation item = Fin q -> Spec.reported_strength item = Qc_abs q.
Proof. unfold Spec.reported_strength. now intros ->. Qed.

(** On entries that report finite numbers the comparator of the sort
    orders by the reported strength. *)
Lemma by_strength_key (a b : Correlation) :
  finite (correlation a) -> finite (correlation b) ->
  gt (by_strength a b) zero
  = Qcltb (Spec.reported_strength a) (Spec.reported_strength b).
Proof.
  intros [x Hx] [y Hy]. unfold by_strength.
  rewrite (reported_strength_finite a x Hx), (reported_strength_finite b y Hy).
  rewrite Hx, Hy. rewrite gt_sub by discriminate. reflexivity.
Qed.

Lemma sorted_descending {A} (key : A -> Qc) (l : list A) :
  StronglySorted (fun a b => (key b <= key a)%Qc) l -> Spec.descending key l.
Proof.
  intros Hs. induction Hs as [|x l Hs IH Hx]; intros i j a b Hij Ha Hb.
  - rewrite lookup_nil in Ha. discriminate Ha.
  - destruct j as [|j]; [lia|]. cbn in Hb.
    destruct i as [|i].
    + cbn in Ha. injection Ha as <-.
      rewrite Forall_forall in Hx. apply Hx.
      apply list_elem_of_lookup. eauto.
    + cbn in Ha. apply (IH i j); [lia|assumption|assumption].
Qed.

Lemma findCorrelations_elem (data : list row) (columns : object DataColumn)
  (item : Correlation) :
  item ∈ findCorrelations data columns ->
  exists col1 col2, (col1, col2) ∈ index_pairs (numeric_columns columns)
                    /\ correlate data (name col1) (name col2) = Some item.
Proof.
  unfold findCorrelations. destruct data as [|r0 data]; [intros H; inversion H|].
  rewrite (sort_perm by_strength). intros H.
  apply list_elem_of_omap in H as ([col1 col2] & Hin & H).
  exists col1, col2. auto.
Qed.

Lemma findCorrelations_descending (data : list row) (columns : object DataColumn) :
  Spec.descending Spec.reported_strength (findCorrelations data columns).
Proof.
  apply sorted_descending. unfold findCorrelations.
  destruct data as [|r0 data]; [constructor|].
  apply (sort_sorted by_strength _ (fun item => finite (correlation item))).
  - intros a b c _ _ _ Hab Hbc. now apply (Qcle_trans _ _ _ Hbc).
  - intros a b Ha Hb H. rewrite by_strength_key in H by assumption.
    now apply Qcltb_ge.
  - intros a b Ha Hb H. rewrite by_strength_key in H by assumption.
    now apply Qclt_le_weak, Qcltb_lt.
  - apply Forall_forall. intros item H.
    apply list_elem_of_omap in H as ([col1 col2] & _ & H).
    now apply correlate_finite in H.
Qed.

End CorrelationFacts.

(* ================================================================== *)
(** ** The real numbers behind the results of [Math.sqrt] *)
(* ================================================================== *)

(** The comparisons and the rounding of [JS.snum] are computed on squares
    of rationals.  This section relates them to the real numbers they
    stand for. *)

Section RealMeaning.
Import JS.

Lemma Q2R_Qcmult (x y : Qc) : Q2R (x * y)%Qc = (Q2R x * Q2R y)%R.
Proof.
  rewrite <- Q2R_mult. apply Qeq_eqR. unfold Qcmult. cbn [this Q2Qc].
  apply Qred_correct.
Qed.

Lemma Q2R_Qcdiv (x y : Qc) :
  y <> 0%Qc -> Q2R (x / y)%Qc = (Q2R x / Q2R y)%R.
Proof.
  intros Hy. unfold Qcdiv, Rdiv. rewrite Q2R_Qcmult. f_equal.
  rewrite <- Q2R_inv.
  - apply Qeq_eqR. unfold Qcinv. cbn [this Q2Qc]. apply Qred_correct.
  - intros H. apply Hy. apply Qc_is_canon. exact H.
Qed.

Lemma Qcltb_Rlt (x y : Qc) : Qcltb x y = true <-> (Q2R x < Q2R y)%R.
Proof.
  rewrite Qcltb_lt. unfold Qclt. split; [apply Qlt_Rlt|apply Rlt_Qlt].
Qed.

Lemma Q2R_zero : Q2R 0%Qc = 0%R.
Proof. unfold Q2R. cbn. apply Rmult_0_l. Qed.

Lemma Qc_is_neg_Rlt (x : Qc) : Qc_is_neg x = true <-> (Q2R x < 0)%R.
Proof.
  rewrite <- Q2R_zero.
  rewrite <- Qcltb_Rlt. unfold Qc_is_neg, Qcltb. cbn.
  rewrite Z.mul_1_r. reflexivity.
Qed.

Lemma Qc_is_zero_eq (x : Qc) : Qc_is_zero x = true <-> x = 0%Qc.
Proof.
  unfold Qc_is_zero. rewrite Z.eqb_eq. split.
  - intros H. apply Qc_is_canon. unfold Qeq. cbn. rewrite H. reflexivity.
  - intros ->. reflexivity.
Qed.

Lemma real_of_square (c r : Qc) :
  (0 <= Q2R r)%R -> Q2R (s_square c r) = (real_of c r * real_of c r)%R.
Proof.
  intros Hr. unfold s_square, real_of. rewrite !Q2R_Qcmult.
  pose proof (sqrt_sqrt (Q2R r) Hr) as Hs. nra.
Qed.

(** [s_gt] decides [c * sqrt r > t]. *)
Lemma s_gt_real (c r t : Qc) :
  (0 <= Q2R r)%R ->
  s_gt (SFin c r) t = true <-> (Q2R t < real_of c r)%R.
Proof.
  intros Hr. pose proof (real_of_square c r Hr) as Hsq.
  assert (Hsign : ((Q2R c < 0 -> real_of c r <= 0)
                   /\ (0 <= Q2R c -> 0 <= real_of c r)
                   /\ (0 < real_of c r -> 0 < Q2R c))%R).
  { pose proof (sqrt_pos (Q2R r)). unfold real_of. repeat split; intros; nra. }
  destruct Hsign as (Hneg & Hpos & Hpos').
  set (p := real_of c r) in *. clearbody p.
  unfold s_gt.
  destruct (Qc_is_neg t) eqn:Et.
  - apply Qc_is_neg_Rlt in Et.
    rewrite orb_true_iff, negb_true_iff, Qcltb_Rlt, Hsq, Q2R_Qcmult.
    destruct (Qc_is_neg c) eqn:Ec.
    + apply Qc_is_neg_Rlt in Ec. specialize (Hneg Ec). split.
      * intros [H|H]; [discriminate H|]. nra.
      * intros H. right. nra.
    + assert (Hc : (0 <= Q2R c)%R).
      { apply Rnot_lt_le. intros H. apply Qc_is_neg_Rlt in H. congruence. }
      specialize (Hpos Hc). split; [intros _; lra|auto].
  - assert (Ht : (0 <= Q2R t)%R).
    { apply Rnot_lt_le. intros H. apply Qc_is_neg_Rlt in H. congruence. }
    rewrite andb_true_iff, !Qcltb_Rlt, Hsq, Q2R_Qcmult, Q2R_zero.
    split.
    + intros [Hc H]. assert (0 <= p)%R by (apply Hpos; lra). nra.
    + intros H. split; [apply Hpos'; lra|nra].
Qed.

(** [Math.sqrt] of a number that is not negative. *)
Lemma Math_sqrt_real (x : Qc) (c r : Qc) :
  Math_sqrt (Fin x) = SFin c r ->
  (0 <= Q2R r)%R /\ real_of c r = sqrt (Q2R x).
Proof.
  unfold Math_sqrt. destruct (Qc_is_neg x) eqn:E; [discriminate|].
  intros H. injection H as <- <-. split.
  - apply Rnot_lt_le. intros H. apply Qc_is_neg_Rlt in H. congruence.
  - unfold real_of. replace (Q2R 1%Qc) with 1%R; [lra|].
    transitivity (Q2R 1%Q); [|apply Qeq_eqR; symmetry; apply Qred_correct].
    unfold Q2R. cbn. rewrite Rinv_1. ring.
Qed.

(** The standard deviation of a column is the square root of the
    population variance of its sample. *)
Lemma stdDev_real (xs : list num) (c r : Qc) :
  DataProcessing.stdDev_of xs (DataProcessing.mean_of xs) = SFin c r ->
  exists v, Spec.population_variance xs = Fin v /\ real_of c r = sqrt (Q2R v).
Proof.
  rewrite stdDev_of_spec. intros H.
  destruct (Spec.population_variance xs) as [| | |v] eqn:E; try discriminate H.
  exists v. split; [reflexivity|]. now destruct (Math_sqrt_real v c r H).
Qed.

(** The quotient of a finite number by a finite result. *)
Lemma div_s_real (x c r c' r' : Qc) :
  (0 <= Q2R r)%R ->
  div_s (Fin x) (SFin c r) = SFin c' r' ->
  r' = r /\ real_of c r <> 0%R /\ real_of c' r' = (Q2R x / real_of c r)%R.
Proof.
  intros Hr. unfold div_s.
  destruct (Qc_is_zero (c * r)) eqn:Ez.
  { destruct (Qc_is_zero x); [discriminate|]. destruct (Qc_is_neg x); discriminate. }
  intros H. injection H as <- <-.
  assert (Hcr : (c * r)%Qc <> 0%Qc).
  { intros H. apply Qc_is_zero_eq in H. congruence. }
  assert (Hne : (Q2R c * Q2R r <> 0)%R).
  { rewrite <- Q2R_Qcmult, <- Q2R_zero. intros H. apply Hcr.
    apply Qc_is_canon. apply eqR_Qeq. exact H. }
  assert (Hs : (sqrt (Q2R r) * sqrt (Q2R r) = Q2R r)%R) by now apply sqrt_sqrt.
  assert (Hs0 : (sqrt (Q2R r) <> 0)%R) by (intros H; rewrite H in Hs; nra).
  assert (Hc0 : (Q2R c <> 0)%R) by (intros H; rewrite H in Hne; nra).
  split; [reflexivity|]. unfold real_of. split; [nra|].
  rewrite Q2R_Qcdiv by assumption. rewrite Q2R_Qcmult.
  rewrite <- Hs at 1. field. auto.
Qed.

Lemma Qc_abs_real (x : Qc) : Q2R (Qc_abs x) = Rabs (Q2R x).
Proof.
  unfold Qc_abs. destruct (Qc_is_neg x) eqn:E.
  - apply Qc_is_neg_Rlt in E. rewrite Rabs_left by assumption.
    rewrite <- Q2R_opp. apply Qeq_eqR. unfold Qcopp. cbn [this Q2Qc].
    apply Qred_correct.
  - rewrite Rabs_right; [reflexivity|].
    apply Rle_ge, Rnot_lt_le. intros H. apply Qc_is_neg_Rlt in H. congruence.
Qed.

Lemma Rabs_square (x : R) : (x * x = Rabs x * Rabs x)%R.
Proof. unfold Rabs. destruct (Rcase_abs x); ring. Qed.

(** [Math.abs] of a finite result. *)
Lemma s_abs_real (c r : Qc) :
  real_of (Qc_abs c) r = Rabs (real_of c r).
Proof.
  unfold real_of. rewrite Qc_abs_real, Rabs_mult.
  now rewrite (Rabs_right (sqrt _)) by apply Rle_ge, sqrt_pos.
Qed.

(** [s_abs_lt] compares the absolute values. *)
Lemma s_abs_lt_real (c r c' r' : Qc) :
  (0 <= Q2R r)%R -> (0 <= Q2R r')%R ->
  s_abs_lt (SFin c r) (SFin c' r') = true
  <-> (Rabs (real_of c r) < Rabs (real_of c' r'))%R.
Proof.
  intros Hr Hr'. unfold s_abs_lt.
  rewrite Qcltb_Rlt, !real_of_square by assumption.
  pose proof (Rabs_pos (real_of c r)). pose proof (Rabs_pos (real_of c' r')).
  rewrite (Rabs_square (real_of c r)), (Rabs_square (real_of c' r')).
  split; intros; nra.
Qed.

Lemma Q2R_of_Z (z : Z) : Q2R (Qc_of_Z z) = IZR z.
Proof. unfold Q2R, Qc_of_Z. cbn. field. Qed.

Lemma Qc_floor_real (x : Qc) :
  (IZR (Qc_floor x) <= Q2R x < IZR (Qc_floor x) + 1)%R.
Proof.
  assert (E : Qc_floor x = Qfloor x) by (unfold Qc_floor; now destruct (this x)).
  rewrite E. split.
  - replace (IZR (Qfloor x)) with (Q2R (inject_Z (Qfloor x)))
      by (unfold Q2R, inject_Z; cbn; field).
    apply Qle_Rle, Qfloor_le.
  - replace (IZR (Qfloor x) + 1)%R with (Q2R (inject_Z (Qfloor x + 1)))
      by (unfold Q2R, inject_Z; cbn [Qnum Qden]; rewrite plus_IZR; field).
    apply Qlt_Rlt, Qlt_floor.
Qed.

(** [toFixed(2)] of a finite result is its absolute value rounded to the
    nearest hundredth, halves upwards, with the sign of the result. *)
Lemma s_toFixed2_real (c r : Qc) :
  (0 <= Q2R r)%R ->
  exists n : Z,
    s_toFixed2 (SFin c r)
    = Fin (Qc_of_Z (if Qc_is_neg c then - n else n) / Qc_of_Z 100)%Qc
    /\ (IZR n - 1 / 2 <= 100 * Rabs (real_of c r) < IZR n + 1 / 2)%R.
Proof.
  intros Hr. eexists. split; [reflexivity|].
  set (A := (Qc_of_Z 40000 * s_square c r)%Qc).
  pose proof (Qc_floor_real A) as [Hf1 Hf2].
  assert (HA : Q2R A = ((200 * Rabs (real_of c r)) * (200 * Rabs (real_of c r)))%R).
  { unfold A. rewrite Q2R_Qcmult, Q2R_of_Z, real_of_square by assumption.
    rewrite (Rabs_square (real_of c r)). ring. }
  pose proof (Rabs_pos (real_of c r)) as Hv.
  set (w := (200 * Rabs (real_of c r))%R) in *.
  assert (Hw : (0 <= w)%R) by (unfold w; lra).
  assert (Hf0 : (0 <= Qc_floor A)%Z).
  { apply le_IZR. apply Rnot_lt_le. intros H.
    assert (IZR (Qc_floor A) + 1 <= 0)%R.
    { rewrite <- plus_IZR. apply IZR_le. apply lt_IZR in H. lia. }
    nra. }
  pose proof (Z.sqrt_spec (Qc_floor A) Hf0) as [Hm1 Hm2].
  set (m := Z.sqrt (Qc_floor A)) in *.
  assert (Hm0 : (0 <= m)%Z) by apply Z.sqrt_nonneg.
  assert (Hlo : (IZR m <= w)%R).
  { apply IZR_le in Hm1, Hm0. rewrite mult_IZR in Hm1. nra. }
  assert (Hhi : (w < IZR m + 1)%R).
  { assert (Hm3 : (Qc_floor A + 1 <= Z.succ m * Z.succ m)%Z) by lia.
    apply IZR_le in Hm3, Hm0. rewrite plus_IZR, mult_IZR, succ_IZR in Hm3. nra. }
  pose proof (Z.div_mod (m + 1) 2 ltac:(lia)) as Hd.
  pose proof (Z.mod_pos_bound (m + 1) 2 ltac:(lia)) as Hb.
  set (n := ((m + 1) / 2)%Z) in *.
  assert (H1 : (2 * n - 1 <= m)%Z) by lia.
  assert (H2 : (m + 1 <= 2 * n + 1)%Z) by lia.
  apply IZR_le in H1, H2.
  rewrite minus_IZR, mult_IZR in H1. rewrite !plus_IZR, mult_IZR in H2.
  unfold w in *. lra.
Qed.

Lemma Q2R_ratio (n : Z) (d : positive) : Q2R (ratio n d) = (IZR n / IZR (Z.pos d))%R.
Proof.
  unfold ratio. cbn [this Q2Qc].
  transitivity (Q2R (n # d)); [apply Qeq_eqR, Qred_correct|reflexivity].
Qed.

(** The entry of a pair of columns in terms of real numbers: with the
    numerator [num] and the denominator [sqrt x] of the code, the
    coefficient is [r = num / sqrt x]; the entry exists only for
    [|r| > 0.5], is strong exactly for [|r| > 0.8], positive exactly for
    [r > 0], and reports [|r|] rounded to the nearest hundredth with the
    sign of [r]. *)
Lemma correlate_real (data : list row) (col1 col2 : string) (item : Types.Correlation) :
  Analysis.correlate data col1 col2 = Some item ->
  let pairs := Analysis.paired_values data col1 col2 in
  exists (num x : Qc) (n : Z),
    Analysis.numerator_of pairs = Fin num
    /\ Analysis.denominator_of pairs = Math_sqrt (Fin x)
    /\ (0 < Q2R x)%R
    /\ let r := (Q2R num / sqrt (Q2R x))%R in
       (1 / 2 < Rabs r)%R
       /\ (Types.strength item = Types.strong <-> (8 / 10 < Rabs r)%R)
       /\ (Types.direction item = Types.positive <-> (0 < r)%R)
       /\ Types.correlation item
          = Fin (Qc_of_Z (if Qc_is_neg num then - n else n) / Qc_of_Z 100)%Qc
       /\ (IZR n - 1 / 2 <= 100 * Rabs r < IZR n + 1 / 2)%R.
Proof.
  intros H. cbv zeta.
  apply correlate_Some in H as (_ & _ & Hz & Hgt & Hst & Hdir & Hcorr).
  set (pairs := Analysis.paired_values data col1 col2) in *.
  destruct (pearson_finite pairs _ Hz Hgt eq_refl) as (c & r & Hp).
  rewrite Hp in *. unfold Analysis.pearson in Hp.
  assert (Hd : exists x, Analysis.denominator_of pairs = Math_sqrt (Fin x)
                         /\ Math_sqrt (Fin x) = SFin 1%Qc x).
  { unfold Analysis.denominator_of in *.
    destruct (mul _ _) as [| | |x]; simpl in Hp;
      try (destruct (Analysis.numerator_of pairs); discriminate Hp).
    - destruct (Analysis.numerator_of pairs); try discriminate Hp.
      injection Hp as <- <-. discriminate Hgt.
    - exists x. split; [reflexivity|].
      unfold Math_sqrt in *. destruct (Qc_is_neg x); [|reflexivity].
      destruct (Analysis.numerator_of pairs); discriminate Hp. }
  destruct Hd as (x & Hd & Hsx). rewrite Hd, Hsx in Hp, Hz.
  destruct (Math_sqrt_real x _ _ Hsx) as [Hx Hsq].
  destruct (numerator_finite pairs 1%Qc x) as [num Hn]; [congruence|].
  rewrite Hn in Hp.
  destruct (div_s_real num 1%Qc x c r Hx Hp) as (-> & Hne & Hr).
  rewrite Hsq in Hne, Hr.
  assert (Hxpos : (0 < Q2R x)%R).
  { destruct Hx as [Hx|Hx]; [exact Hx|]. rewrite <- Hx, sqrt_0 in Hne. lra. }
  assert (Hsgn : Qc_is_neg c = Qc_is_neg num).
  { pose proof (sqrt_lt_R0 _ Hxpos) as Hs.
    assert (Hc : (Q2R c * sqrt (Q2R x) * sqrt (Q2R x) = Q2R num)%R).
    { fold (real_of c x). rewrite Hr. field. lra. }
    assert (Hss : (0 < sqrt (Q2R x) * sqrt (Q2R x))%R) by nra.
    rewrite Rmult_assoc in Hc.
    destruct (Qc_is_neg num) eqn:En.
    - apply Qc_is_neg_Rlt. apply Qc_is_neg_Rlt in En. nra.
    - apply not_true_is_false. intros E. apply Qc_is_neg_Rlt in E.
      assert (Q2R num < 0)%R by nra.
      apply Qc_is_neg_Rlt in H. congruence. }
  destruct (s_toFixed2_real c x Hx) as (n & Hfix & Hround).
  exists num, x, n.
  split; [exact Hn|]. split; [exact Hd|]. split; [exact Hxpos|].
  rewrite <- Hr.
  assert (Habs : forall t, s_gt (s_abs (SFin c x)) t = true
                           <-> (Q2R t < Rabs (real_of c x))%R).
  { intros t. cbn [s_abs]. rewrite s_gt_real by assumption.
    now rewrite s_abs_real. }
  split; [|split; [|split; [|split]]].
  - apply Habs in Hgt. rewrite Q2R_ratio in Hgt. lra.
  - rewrite Hst.
    destruct (s_gt (s_abs (SFin c x)) (ratio 8 10)) eqn:E.
    + apply Habs in E. rewrite Q2R_ratio in E. split; [intros _; lra|reflexivity].
    + split; [discriminate|]. intros H.
      assert (Ht : s_gt (s_abs (SFin c x)) (ratio 8 10) = true)
        by (apply Habs; rewrite Q2R_ratio; lra).
      congruence.
  - rewrite Hdir.
    destruct (s_gt (SFin c x) 0%Qc) eqn:E.
    + apply s_gt_real in E; [|assumption]. rewrite Q2R_zero in E.
      split; [intros _; exact E|reflexivity].
    + split; [discriminate|]. intros H.
      assert (Ht : s_gt (SFin c x) 0%Qc = true)
        by (apply s_gt_real; [assumption|rewrite Q2R_zero; exact H]).
      congruence.
  - rewrite Hcorr, Hfix, Hsgn. reflexivity.
  - exact Hround.
Qed.

End RealMeaning.





(* ================================================================== *)
(** ** Further properties of the column metadata *)
(* ================================================================== *)

Section ColumnMetadata.
Import JS Types DataProcessing.

Lemma keys_set {V} (o : object V) (k : string) (v : V) :
  Object_keys (set o k v) = Set_add (Object_keys o) k.
Proof.
  unfold Object_keys, Set_add. induction o as [|[k0 v0] o IH]; [reflexivity|].
  cbn [set]. destruct (decide (k0 = k)) as [->|Hne]; rewrite !fmap_cons; cbn [fst].
  - rewrite decide_True by left. reflexivity.
  - rewrite IH. destruct (decide (k ∈ o.*1)) as [Hin|Hin].
    + rewrite decide_True by now right. reflexivity.
    + rewrite decide_False; [reflexivity|].
      intros H. apply elem_of_cons in H as [H|H]; congruence.
Qed.

Lemma keys_foldl_set {V} (f : string -> V) (ks : list string) (o : object V) :
  Object_keys (foldl (fun o k => set o k (f k)) o ks)
  = foldl Set_add (Object_keys o) ks.
Proof.
  revert o. induction ks as [|k ks IH]; intros o; simpl; [reflexivity|].
  now rewrite IH, keys_set.
Qed.

Lemma foldl_Set_add_fresh {A} `{EqDecision A} (ks s : list A) :
  NoDup (s ++ ks) -> foldl Set_add s ks = s ++ ks.
Proof.
  revert s. induction ks as [|k ks IH]; intros s Hnd; simpl.
  - now rewrite app_nil_r.
  - assert (Hk : k ∉ s).
    { apply NoDup_app in Hnd as (_ & Hd & _). intros Hin.
      apply (Hd k Hin). left. }
    unfold Set_add at 2. rewrite decide_False by assumption.
    rewrite IH; rewrite <- app_assoc; [reflexivity|exact Hnd].
Qed.

Lemma names_are_keys (o : object DataColumn) :
  Forall (fun kv => name kv.2 = kv.1) o ->
  map name (Object_values o) = Object_keys o.
Proof.
  unfold Object_values, Object_keys.
  induction 1 as [|[k v] o Hkv Hall IH]; [reflexivity|].
  rewrite !fmap_cons. cbn [map fst snd] in *. f_equal; assumption.
Qed.

Lemma detect_keys (Date_parse : string -> num) (Number_toString : num -> string)
  (first : row) (rest : list row) :
  NoDup (Object_keys first) ->
  Object_keys (detectColumnTypes Date_parse Number_toString (first :: rest))
  = Object_keys first.
Proof.
  intros Hnd. unfold detectColumnTypes.
  rewrite keys_foldl_set. apply (foldl_Set_add_fresh _ []). exact Hnd.
Qed.

Lemma detect_names (Date_parse : string -> num) (Number_toString : num -> string)
  (data : list row) :
  Forall (fun kv => name kv.2 = kv.1)
         (detectColumnTypes Date_parse Number_toString data).
Proof.
  eapply Forall_impl; [apply detect_entries|].
  intros [k v] Hkv. cbn in *. rewrite Hkv. apply info_name.
Qed.

End ColumnMetadata.

(** [detectColumnTypes] returns one column per property of the first row,
    in the order of that row; each column is stored under its own name,
    so the names are pairwise distinct. *)
Theorem detectColumnTypes_one_column_per_key
  (Date_parse : string -> JS.num) (Number_toString : JS.num -> string)
  (first : JS.row) (rest : list JS.row) :
  NoDup (JS.Object_keys first) ->
  let columns :=
    DataProcessing.detectColumnTypes Date_parse Number_toString (first :: rest) in
  JS.Object_keys columns = JS.Object_keys first
  /\ map Types.name (JS.Object_values columns) = JS.Object_keys first
  /\ NoDup (map Types.name (JS.Object_values columns)).
Proof.
  intros Hnd columns.
  assert (Hk : JS.Object_keys columns = JS.Object_keys first)
    by (now apply detect_keys).
  assert (Hn : map Types.name (JS.Object_values columns) = JS.Object_keys columns)
    by (apply names_are_keys, detect_names).
  rewrite Hn, Hk. auto.
Qed.

Lemma detectColumnTypes_one_column_per_key_witness :
  NoDup (JS.Object_keys [("date"%string, JS.JStr "2024-01-01");
                         ("x"%string, Examples.int 1); ("y"%string, Examples.int 2)])
  /\ JS.Object_keys (Examples.infer Examples.four_rows) = ["date"; "x"; "y"]%string
  /\ map Types.name (JS.Object_values (Examples.infer Examples.four_rows))
     = ["date"; "x"; "y"]%string.
Proof.
  assert (Hnd : NoDup (JS.Object_keys [("date"%string, JS.JStr "2024-01-01");
                         ("x"%string, Examples.int 1); ("y"%string, Examples.int 2)])).
  { apply (bool_decide_unpack _). vm_compute. exact I. }
  split; [exact Hnd|].
  destruct (detectColumnTypes_one_column_per_key Runtime.iso_date_parse
              Runtime.decimal_toString _ (tail Examples.four_rows) Hnd) as (H1 & H2 & _).
  split; [exact H1|exact H2].
Defined.

(** [detectColumnTypes] reads the first 100 rows only: its result is the
    one it gives on these rows alone. *)
Theorem detectColumnTypes_reads_first_100_rows
  (Date_parse : string -> JS.num) (Number_toString : JS.num -> string)
  (data : list JS.row) :
  DataProcessing.detectColumnTypes Date_parse Number_toString data
  = DataProcessing.detectColumnTypes Date_parse Number_toString (take 100 data).
Proof.
  destruct data as [|first rest]; [reflexivity|].
  change (take 100 (first :: rest)) with (first :: take 99 rest).
  unfold DataProcessing.detectColumnTypes.
  rewrite !sample_is_take.
  change (first :: take 99 rest) with (take 100 (first :: rest)).
  rewrite take_take, Nat.min_id, length_take.
  rewrite Nat.min_assoc, Nat.min_id. reflexivity.
Qed.

Section CountFacts.
Import JS Types DataProcessing.

Lemma filter_split_length {A} (P : A -> Prop) `{forall x, Decision (P x)} (l : list A) :
  length (filter P l) + length (filter (fun x => ~ P x) l) = length l.
Proof.
  induction l as [|x l IH]; [reflexivity|].
  rewrite !filter_cons. destruct (decide (P x)) as [HP|HP].
  - rewrite decide_False by tauto. simpl. lia.
  - rewrite decide_True by tauto. simpl. lia.
Qed.

Lemma remove_dups_length_le {A} `{EqDecision A} (l : list A) :
  length (remove_dups l) <= length l.
Proof.
  apply submseteq_length, NoDup_submseteq; [apply NoDup_remove_dups|].
  intros x. now rewrite elem_of_remove_dups.
Qed.

Lemma remove_dups_length_eq {A} `{EqDecision A} (l : list A) :
  length (remove_dups l) = length l <-> NoDup l.
Proof.
  split.
  - induction l as [|x l IH]; [constructor|]. cbn [remove_dups].
    pose proof (remove_dups_length_le l) as Hle.
    destruct (decide_rel elem_of x l) as [Hin|Hin]; simpl; intros H; [lia|].
    constructor; [exact Hin|]. apply IH. lia.
  - induction 1 as [|x l Hin Hnd IH]; [reflexivity|]. cbn [remove_dups].
    destruct (decide_rel elem_of x l); [contradiction|]. simpl. now rewrite IH.
Qed.

Lemma remove_dups_length_pos {A} `{EqDecision A} (l : list A) :
  l <> [] -> 0 < length (remove_dups l).
Proof.
  destruct l as [|x l]; [congruence|]. intros _.
  assert (Hx : x ∈ remove_dups (x :: l)) by (apply elem_of_remove_dups; left).
  destruct (remove_dups (x :: l)); [inversion Hx|simpl; lia].
Qed.

Lemma remove_dups_length_perm {A} `{EqDecision A} (l l' : list A) :
  Permutation l l' -> length (remove_dups l) = length (remove_dups l').
Proof.
  intros Hp. apply Permutation_length, NoDup_Permutation;
    try apply NoDup_remove_dups.
  intros x. rewrite !elem_of_remove_dups. now rewrite Hp.
Qed.

Lemma present_nullish_length (cells : list value) :
  length (filter (fun v => v <> JNull /\ v <> JUndef) cells)
  + length (filter (fun v => v = JNull \/ v = JUndef) cells)
  = length cells.
Proof.
  induction cells as [|v cells IH]; [reflexivity|].
  rewrite !filter_cons.
  destruct v; repeat case_decide; simpl; try lia;
    try (exfalso; intuition congruence).
Qed.

End CountFacts.

(** The counts of a column: the missing count is the number of null or
    undefined cells among the sampled rows, the distinct values are counted
    among the remaining cells, so both together never exceed the sample
    size; the missing percentage is the missing count over the sample size,
    between 0 and 100. *)
Theorem column_counts_within_sample
  (Date_parse : string -> JS.num) (Number_toString : JS.num -> string)
  (data : list JS.row) (colName : string) (col : Types.DataColumn) :
  JS.get (DataProcessing.detectColumnTypes Date_parse Number_toString data) colName
  = Some col ->
  let sampleSize := Nat.min 100 (length data) in
  exists (u m : nat) (p : Qc),
    Types.uniqueValues col = Some u
    /\ Types.missingValues col = Some m
    /\ Types.missingPercentage col = Some (JS.Fin p)
    /\ m = length (filter (fun v => v = JS.JNull \/ v = JS.JUndef)
                          (map (fun r => JS.cell r colName) (take 100 data)))
    /\ u + m <= sampleSize
    /\ 0 < sampleSize
    /\ p = (Qc_of_Z (Z.of_nat m) / Qc_of_Z (Z.of_nat sampleSize) * Qc_of_Z 100)%Qc
    /\ (0 <= p)%Qc /\ (p <= Qc_of_Z 100)%Qc.
Proof.
  intros Hget sampleSize.
  assert (Hpos : 0 < sampleSize).
  { destruct data; [discriminate Hget|]. unfold sampleSize. simpl length. lia. }
  apply detect_get in Hget. subst col. fold sampleSize.
  set (cells := map (fun r => JS.cell r colName) (take 100 data)).
  assert (Hlen : length (take 100 data) = sampleSize)
    by (unfold sampleSize; apply length_take).
  assert (Hcells : length cells = sampleSize)
    by (unfold cells; now rewrite length_map).
  assert (Hval : DataProcessing.sample_values (take 100 data) colName
                 = filter (fun v => v <> JS.JNull /\ v <> JS.JUndef) cells)
    by apply sample_values_present.
  pose proof (present_nullish_length cells) as Hs.
  set (present := filter (fun v => v <> JS.JNull /\ v <> JS.JUndef) cells) in *.
  set (m := length (filter (fun v => v = JS.JNull \/ v = JS.JUndef) cells)) in *.
  assert (Hm : length (take 100 data) - length present = m) by lia.
  pose proof (Set_of_size present) as Hu.
  pose proof (remove_dups_length_le present) as Hu'.
  exists (length (JS.Set_of present)), m,
    (Qc_of_Z (Z.of_nat m) / Qc_of_Z (Z.of_nat sampleSize) * Qc_of_Z 100)%Qc.
  assert (Hfields :
    Types.uniqueValues (DataProcessing.column_info Date_parse Number_toString
                          (take 100 data) sampleSize colName)
    = Some (length (JS.Set_of present))
    /\ Types.missingValues (DataProcessing.column_info Date_parse Number_toString
                          (take 100 data) sampleSize colName) = Some m
    /\ Types.missingPercentage (DataProcessing.column_info Date_parse Number_toString
                          (take 100 data) sampleSize colName)
       = Some (JS.mul (JS.div (JS.of_nat m) (JS.of_nat sampleSize)) (JS.of_Z 100))).
  { unfold DataProcessing.column_info. cbv zeta. rewrite Hval, Hm, Hlen.
    destruct (decide _); cbn [Types.uniqueValues Types.missingValues
                               Types.missingPercentage]; auto. }
  destruct Hfields as (-> & -> & ->).
  assert (Hz : JS.Qc_is_zero (Qc_of_Z (Z.of_nat sampleSize)) = false).
  { unfold JS.Qc_is_zero, Qc_of_Z. cbn [this inject_Z Qnum]. apply Z.eqb_neq. lia. }
  split; [reflexivity|]. split; [reflexivity|].
  split; [unfold JS.of_nat, JS.of_Z, JS.div, JS.mul; now rewrite Hz|].
  split; [reflexivity|]. split; [lia|]. split; [exact Hpos|]. split; [reflexivity|].
  assert (HmR : (0 <= IZR (Z.of_nat m) <= IZR (Z.of_nat sampleSize))%R)
    by (split; apply IZR_le; lia).
  assert (HsR : (0 < IZR (Z.of_nat sampleSize))%R) by (apply IZR_lt; lia).
  assert (Hne : Qc_of_Z (Z.of_nat sampleSize) <> 0%Qc).
  { intros H. apply Qc_is_zero_eq in H. congruence. }
  assert (HR : Q2R (Qc_of_Z (Z.of_nat m) / Qc_of_Z (Z.of_nat sampleSize) * Qc_of_Z 100)%Qc
               = (IZR (Z.of_nat m) / IZR (Z.of_nat sampleSize) * 100)%R).
  { rewrite Q2R_Qcmult, Q2R_Qcdiv, !Q2R_of_Z by assumption. reflexivity. }
  assert (Hq : (0 <= IZR (Z.of_nat m) / IZR (Z.of_nat sampleSize) <= 1)%R).
  { split.
    - apply Rmult_le_pos; [lra|]. left. now apply Rinv_0_lt_compat.
    - apply (Rmult_le_reg_r (IZR (Z.of_nat sampleSize))); [exact HsR|].
      unfold Rdiv. rewrite Rmult_assoc, Rinv_l by lra. lra. }
  split.
  - apply Rle_Qle. rewrite HR, Q2R_zero. lra.
  - apply Rle_Qle. rewrite HR, Q2R_of_Z. lra.
Qed.

Lemma column_counts_within_sample_witness :
  JS.get (Examples.infer Examples.one_to_five) "x" = Some Examples.one_to_five_column
  /\ exists u m : nat,
       Types.uniqueValues Examples.one_to_five_column = Some u
       /\ Types.missingValues Examples.one_to_five_column = Some m
       /\ u + m <= 5.
Proof.
  assert (E : JS.get (Examples.infer Examples.one_to_five) "x"
              = Some Examples.one_to_five_column) by by_evaluation.
  split; [exact E|].
  destruct (column_counts_within_sample Runtime.iso_date_parse Runtime.decimal_toString
              Examples.one_to_five "x" Examples.one_to_five_column E)
    as (u & m & p & Hu & Hm & _ & _ & Hle & _).
  exists u, m. split; [exact Hu|]. split; [exact Hm|exact Hle].
Defined.

Section TypeFacts.
Import JS Types DataProcessing.

Lemma numeric_like_spec (v : value) :
  numeric_like v = true
  <-> typeof v = TNumber \/ (typeof v = TString /\ Number v <> NaN).
Proof.
  unfold numeric_like.
  rewrite orb_true_iff, andb_true_iff, !bool_decide_eq_true, negb_true_iff.
  assert (H : isNaN (Number v) = false <-> Number v <> NaN)
    by (destruct (Number v); simpl; split; congruence).
  now rewrite H.
Qed.

Lemma forallb_Forall {A} (f : A -> bool) (l : list A) :
  forallb f l = true <-> Forall (fun x => f x = true) l.
Proof.
  induction l as [|x l IH]; simpl.
  - split; [constructor|reflexivity].
  - rewrite andb_true_iff, Forall_cons, IH. reflexivity.
Qed.

Lemma median_of_is_Some (sorted : list num) : is_Some (median_of sorted).
Proof.
  unfold median_of, num_at.
  destruct (Nat.eqb_spec (length sorted mod 2) 0) as [E|E]; [eauto|].
  apply lookup_lt_is_Some_2.
  destruct sorted as [|x l]; [simpl in E; congruence|].
  apply Nat.div_lt; simpl; lia.
Qed.

End TypeFacts.

(** A column is typed numeric exactly when every sampled cell that is
    neither null nor undefined is a number or a string that converts to a
    number other than NaN, whatever the number of distinct values and also
    when there is no such cell; exactly the numeric columns carry min, max,
    mean, median, stdDev and quartiles. *)
Theorem numeric_type_and_statistics
  (Date_parse : string -> JS.num) (Number_toString : JS.num -> string)
  (data : list JS.row) (colName : string) (col : Types.DataColumn) :
  JS.get (DataProcessing.detectColumnTypes Date_parse Number_toString data) colName
  = Some col ->
  (Types.type col = Types.numeric
   <-> Forall (fun v => JS.typeof v = JS.TNumber
                        \/ (JS.typeof v = JS.TString /\ JS.Number v <> JS.NaN))
              (Spec.present_cells (take 100 data) colName))
  /\ (Types.type col = Types.numeric ->
      is_Some (Types.min col) /\ is_Some (Types.max col) /\ is_Some (Types.mean col)
      /\ is_Some (Types.median col) /\ is_Some (Types.stdDev col)
      /\ is_Some (Types.quartiles col))
  /\ (Types.type col <> Types.numeric ->
      Types.min col = None /\ Types.max col = None /\ Types.mean col = None
      /\ Types.median col = None /\ Types.stdDev col = None
      /\ Types.quartiles col = None).
Proof.
  intros Hget. apply detect_get in Hget. subst col.
  unfold DataProcessing.column_info. cbv zeta.
  rewrite sample_values_present.
  set (values := Spec.present_cells (take 100 data) colName).
  set (t := DataProcessing.infer_type _ _ _ _ _).
  assert (Ht : t = Types.numeric
               <-> Forall (fun v => JS.typeof v = JS.TNumber
                                    \/ (JS.typeof v = JS.TString /\ JS.Number v <> JS.NaN))
                          values).
  { unfold t, DataProcessing.infer_type.
    destruct (forallb DataProcessing.numeric_like values) eqn:E.
    - split; [intros _|reflexivity].
      apply forallb_Forall in E. eapply Forall_impl; [exact E|].
      intros v Hv. now apply numeric_like_spec.
    - split.
      + intros H. repeat (destruct (forallb _ values) in H; try discriminate H).
        destruct (_ && _) in H; discriminate H.
      + intros H. exfalso.
        assert (forallb DataProcessing.numeric_like values = true); [|congruence].
        apply forallb_Forall. eapply Forall_impl; [exact H|].
        intros v Hv. now apply numeric_like_spec. }
  destruct (decide (t = Types.numeric)) as [E|E];
    cbn [Types.type Types.min Types.max Types.mean Types.median Types.stdDev
         Types.quartiles].
  - split; [exact Ht|]. split; [|congruence]. intros _.
    repeat split; eauto using median_of_is_Some.
  - split; [exact Ht|]. split; [congruence|]. intros _. repeat split.
Qed.

Lemma numeric_type_and_statistics_witness :
  JS.get (Examples.infer Examples.null_column) "a"
  = Some (DataProcessing.column_info Runtime.iso_date_parse Runtime.decimal_toString
            Examples.null_column 1 "a")
  /\ Spec.present_cells (take 100 Examples.null_column) "a" = []
  /\ Types.type (DataProcessing.column_info Runtime.iso_date_parse
                   Runtime.decimal_toString Examples.null_column 1 "a")
     = Types.numeric.
Proof.
  assert (E : JS.get (Examples.infer Examples.null_column) "a"
              = Some (DataProcessing.column_info Runtime.iso_date_parse
                        Runtime.decimal_toString Examples.null_column 1 "a"))
    by reflexivity.
  split; [exact E|]. split; [reflexivity|].
  apply (proj1 (numeric_type_and_statistics _ _ _ _ _ E)).
  constructor.
Defined.

(* ================================================================== *)
(** ** Further properties of the data quality summary *)
(* ================================================================== *)

Section QualityFacts.
Import JS Types DataProcessing.

Lemma missing_total_le (data : list row) :
  Scorer.missing_cells data <= sum_list (map (fun r => length r) data).
Proof.
  unfold Scorer.missing_cells. induction data as [|r data IH]; [reflexivity|].
  cbn [map sum_list_with].
  pose proof (length_filter Spec.missing (Object_values r)) as H.
  unfold Object_values in H at 2. rewrite length_fmap in H.
  apply Nat.add_le_mono; [exact H|exact IH].
Qed.

Lemma outlier_total_le (sample data : list row) (cols : list DataColumn) :
  Scorer.outlier_total sample data cols
  <= length data * length (filter (fun col => type col = numeric) cols).
Proof.
  unfold Scorer.outlier_total.
  induction (filter (fun col => type col = numeric) cols) as [|col l IH]; simpl; [lia|].
  unfold Spec.outlier_rows at 1.
  pose proof (length_filter
    (fun r => Spec.outside
       (Spec.fence_pair (Spec.ascending (map Number (Spec.present_cells sample (name col)))))
       (Number (cell r (name col)))) data).
  lia.
Qed.

Lemma missing_total_perm (data data' : list row) :
  Permutation data data' -> Scorer.missing_cells data = Scorer.missing_cells data'.
Proof.
  unfold Scorer.missing_cells. induction 1; simpl; lia.
Qed.

End QualityFacts.

(** The three totals of [analyzeDataQuality] are bounded: the missing
    values by the number of cells, the duplicate rows by the row count less
    one, the outliers by the row count times the number of numeric columns;
    there is no duplicate exactly when the rows serialize to pairwise
    different texts. *)
Theorem analyzeDataQuality_bounds
  (Date_parse : string -> JS.num) (Number_toString : JS.num -> string)
  (data : list JS.row) :
  let q := DataProcessing.analyzeDataQuality Date_parse Number_toString data in
  Types.DataQuality.missingValues q <= sum_list (map (fun r => length r) data)
  /\ Types.DataQuality.duplicateRows q <= length data - 1
  /\ (Types.DataQuality.duplicateRows q = 0 <-> NoDup (map JS.JSON_stringify data))
  /\ Types.DataQuality.outliers q
     <= length data
        * length (Analysis.numeric_columns
                    (DataProcessing.detectColumnTypes Date_parse Number_toString data)).
Proof.
  cbv zeta. destruct data as [|r data].
  { cbn. repeat split; try lia. constructor. }
  cbn [DataProcessing.analyzeDataQuality Types.DataQuality.missingValues
       Types.DataQuality.duplicateRows Types.DataQuality.outliers].
  set (rows := r :: data).
  pose proof (remove_dups_length_le (map JS.JSON_stringify rows)) as Hle.
  pose proof (remove_dups_length_pos (map JS.JSON_stringify rows)) as Hpos.
  rewrite length_map in Hle.
  split; [|split; [|split]].
  - rewrite count_missing_total. apply missing_total_le.
  - rewrite Set_of_size. specialize (Hpos ltac:(discriminate)). lia.
  - rewrite Set_of_size, <- remove_dups_length_eq, length_map. lia.
  - rewrite (scan_columns Date_parse Number_toString rows (take 100 rows)
               (Nat.min 100 (length rows))).
    + apply outlier_total_le.
    + unfold JS.Object_values. apply Forall_fmap.
      eapply Forall_impl; [apply detect_entries|].
      intros [k v] Hkv. cbn in *. rewrite Hkv at 1. now rewrite Hkv, info_name.
Qed.

(** The missing-value total and the duplicate-row total do not depend on
    the order of the rows. *)
Theorem analyzeDataQuality_row_order
  (Date_parse : string -> JS.num) (Number_toString : JS.num -> string)
  (data data' : list JS.row) :
  Permutation data data' ->
  let q := DataProcessing.analyzeDataQuality Date_parse Number_toString data in
  let q' := DataProcessing.analyzeDataQuality Date_parse Number_toString data' in
  Types.DataQuality.missingValues q = Types.DataQuality.missingValues q'
  /\ Types.DataQuality.duplicateRows q = Types.DataQuality.duplicateRows q'.
Proof.
  intros Hp. cbv zeta.
  destruct data as [|r data], data' as [|r' data'].
  - split; reflexivity.
  - apply Permutation_nil in Hp. discriminate Hp.
  - symmetry in Hp. apply Permutation_nil in Hp. discriminate Hp.
  - cbn [DataProcessing.analyzeDataQuality Types.DataQuality.missingValues
         Types.DataQuality.duplicateRows].
    split.
    + rewrite !count_missing_total. now apply missing_total_perm.
    + rewrite !Set_of_size, (Permutation_length Hp).
      f_equal. apply remove_dups_length_perm. now apply Permutation_map.
Qed.

Lemma analyzeDataQuality_row_order_witness :
  Permutation Examples.ten_rows (reverse Examples.ten_rows)
  /\ Types.DataQuality.duplicateRows
       (DataProcessing.analyzeDataQuality Runtime.iso_date_parse Runtime.decimal_toString
          (reverse Examples.ten_rows))
     = 1.
Proof.
  assert (Hp : Permutation Examples.ten_rows (reverse Examples.ten_rows))
    by (symmetry; apply reverse_Permutation).
  split; [exact Hp|].
  destruct (analyzeDataQuality_row_order Runtime.iso_date_parse Runtime.decimal_toString
              _ _ Hp) as [_ <-].
  reflexivity.
Defined.

(* ================================================================== *)
(** ** Further properties of the outlier entries *)
(* ================================================================== *)

Section OutlierEntryFacts.
Import JS Types Analysis.

Lemma lt_Fin_R (x y : Qc) : lt (Fin x) (Fin y) = true <-> (Q2R x < Q2R y)%R.
Proof. apply Qcltb_Rlt. Qed.

Lemma lt_Fin_false_R (x y : Qc) : lt (Fin x) (Fin y) = false <-> (Q2R y <= Q2R x)%R.
Proof.
  cbn [lt]. rewrite Qcltb_ge. unfold Qcle. split; [apply Qle_Rle|apply Rle_Qle].
Qed.

Lemma Q2R_Qcplus (x y : Qc) : Q2R (x + y)%Qc = (Q2R x + Q2R y)%R.
Proof.
  rewrite <- Q2R_plus. apply Qeq_eqR. unfold Qcplus. cbn [this Q2Qc].
  apply Qred_correct.
Qed.

Lemma Q2R_Qcopp (x : Qc) : Q2R (- x)%Qc = (- Q2R x)%R.
Proof.
  rewrite <- Q2R_opp. apply Qeq_eqR. unfold Qcopp. cbn [this Q2Qc].
  apply Qred_correct.
Qed.

(** The sorted sample read at two indices in order. *)
Lemma sorted_lookup_le (R : num -> num -> Prop) (l : list num) (i j : nat) (a b : num) :
  StronglySorted R l -> (forall x, R x x) ->
  i <= j -> l !! i = Some a -> l !! j = Some b -> R a b.
Proof.
  intros Hs Hrefl. revert i j.
  induction Hs as [|x l Hs IH Hx]; intros i j Hij Ha Hb.
  - rewrite lookup_nil in Ha. discriminate Ha.
  - destruct i as [|i], j as [|j]; cbn in Ha, Hb; try lia.
    + injection Ha as <-. injection Hb as <-. apply Hrefl.
    + injection Ha as <-. rewrite Forall_forall in Hx. apply Hx.
      apply list_elem_of_lookup. eauto.
    + apply (IH i j); [lia|assumption|assumption].
Qed.

End OutlierEntryFacts.

(** The fences enclose the quartiles: on a sample of finite numbers that
    is not empty, lower <= Q1 <= Q3 <= upper, and no number from Q1 to Q3
    lies outside the fences. *)
Theorem fences_enclose_quartiles (values : list JS.num) :
  values <> [] -> Forall JS.finite values ->
  let f := Analysis.fences_of values in
  exists lo a b hi : Qc,
    Analysis.lowerBound f = JS.Fin lo /\ Analysis.q1 f = JS.Fin a
    /\ Analysis.q3 f = JS.Fin b /\ Analysis.upperBound f = JS.Fin hi
    /\ (lo <= a)%Qc /\ (a <= b)%Qc /\ (b <= hi)%Qc
    /\ forall v : Qc, (a <= v)%Qc -> (v <= b)%Qc ->
         ~ Spec.outside (Analysis.lowerBound f, Analysis.upperBound f) (JS.Fin v).
Proof.
  intros Hne Hfin. cbv zeta. unfold Analysis.fences_of. cbv zeta.
  cbn [Analysis.lowerBound Analysis.upperBound Analysis.q1 Analysis.q3].
  set (sorted := JS.sort JS.sub values).
  assert (Hnan : JS.NaN ∉ values).
  { intros H. rewrite Forall_forall in Hfin. destruct (Hfin _ H) as [q Hq].
    discriminate Hq. }
  destruct (sort_numbers_ascending values Hnan) as [Hperm Hsorted].
  unfold DataProcessing.sort_numbers in Hperm, Hsorted. fold sorted in Hperm, Hsorted.
  assert (Hlen : 0 < length sorted).
  { rewrite (Permutation_length Hperm). destruct values; [congruence|simpl; lia]. }
  assert (H1 : length sorted / 4 < length sorted) by (apply Nat.div_lt; lia).
  assert (H3 : length sorted * 3 / 4 < length sorted).
  { apply Nat.Div0.div_lt_upper_bound. lia. }
  destruct (lookup_lt_is_Some_2 sorted _ H1) as [qa Ha].
  destruct (lookup_lt_is_Some_2 sorted _ H3) as [qb Hb].
  assert (Hin : forall i x, sorted !! i = Some x -> JS.finite x).
  { intros i x Hx. rewrite Forall_forall in Hfin. apply Hfin.
    rewrite <- Hperm. apply list_elem_of_lookup. eauto. }
  destruct (Hin _ _ Ha) as [a ->]. destruct (Hin _ _ Hb) as [b ->].
  assert (Hab : Spec.no_greater (JS.Fin a) (JS.Fin b)).
  { apply (sorted_lookup_le Spec.no_greater sorted (length sorted / 4)
             (length sorted * 3 / 4)); auto using no_greater_refl.
    apply Nat.Div0.div_le_mono. lia. }
  unfold Spec.no_greater in Hab. apply lt_Fin_false_R in Hab.
  unfold JS.num_at. rewrite Ha, Hb. cbn [JS.arith default].
  unfold JS.sub, JS.neg, JS.add, JS.mul.
  eexists _, a, b, _.
  split; [reflexivity|]. split; [reflexivity|]. split; [reflexivity|].
  split; [reflexivity|].
  assert (Hr : Q2R (JS.ratio 15 10) = (3 / 2)%R) by (rewrite Q2R_ratio; lra).
  repeat split.
  - apply Rle_Qle. rewrite !Q2R_Qcplus, !Q2R_Qcopp, Q2R_Qcmult, Q2R_Qcplus, Q2R_Qcopp, Hr.
    lra.
  - apply Rle_Qle. lra.
  - apply Rle_Qle. rewrite !Q2R_Qcplus, Q2R_Qcmult, Q2R_Qcplus, Q2R_Qcopp, Hr. lra.
  - intros v Hav Hvb. apply Qle_Rle in Hav, Hvb.
    unfold Spec.outside. cbn [fst snd]. intros [H|H]; apply lt_Fin_R in H.
    + rewrite !Q2R_Qcplus, !Q2R_Qcopp, Q2R_Qcmult, Q2R_Qcplus, Q2R_Qcopp, Hr in H. lra.
    + rewrite !Q2R_Qcplus, Q2R_Qcmult, Q2R_Qcplus, Q2R_Qcopp, Hr in H. lra.
Qed.

Lemma fences_enclose_quartiles_witness :
  Analysis.column_values Examples.with_hundred "x" <> []
  /\ Forall JS.finite (Analysis.column_values Examples.with_hundred "x")
  /\ exists lo a b hi : Qc,
       Analysis.lowerBound (Analysis.fences_of
                              (Analysis.column_values Examples.with_hundred "x"))
       = JS.Fin lo
       /\ (lo <= a)%Qc /\ (a <= b)%Qc /\ (b <= hi)%Qc.
Proof.
  assert (Hne : Analysis.column_values Examples.with_hundred "x" <> [])
    by (vm_compute; discriminate).
  assert (Hfin : Forall JS.finite (Analysis.column_values Examples.with_hundred "x")).
  { vm_compute. repeat constructor; eexists; reflexivity. }
  split; [exact Hne|]. split; [exact Hfin|].
  destruct (fences_enclose_quartiles _ Hne Hfin)
    as (lo & a & b & hi & Hlo & _ & _ & _ & H1 & H2 & H3 & _).
  exists lo, a, b, hi. auto.
Defined.

Section PercentageFacts.
Import JS.

(** [toFixed(2)] keeps a percentage within 0 and 100. *)
Lemma toFixed2_percentage (k n : nat) :
  0 < n -> k <= n ->
  exists p : Qc,
    toFixed2 (mul (div (of_nat k) (of_nat n)) (of_Z 100)) = Fin p
    /\ (0 <= p)%Qc /\ (p <= Qc_of_Z 100)%Qc.
Proof.
  intros Hn Hk.
  assert (Hz : Qc_is_zero (Qc_of_Z (Z.of_nat n)) = false).
  { unfold Qc_is_zero, Qc_of_Z. cbn [this inject_Z Qnum]. apply Z.eqb_neq. lia. }
  assert (Hne : Qc_of_Z (Z.of_nat n) <> 0%Qc).
  { intros H. apply Qc_is_zero_eq in H. congruence. }
  unfold of_nat, of_Z, div, mul. rewrite Hz. cbn [toFixed2].
  set (x := (Qc_of_Z (Z.of_nat k) / Qc_of_Z (Z.of_nat n) * Qc_of_Z 100)%Qc).
  assert (HkR : (0 <= IZR (Z.of_nat k) <= IZR (Z.of_nat n))%R)
    by (split; apply IZR_le; lia).
  assert (HnR : (0 < IZR (Z.of_nat n))%R) by (apply IZR_lt; lia).
  assert (Hx : (0 <= Q2R x <= 100)%R).
  { unfold x. rewrite Q2R_Qcmult, Q2R_Qcdiv, !Q2R_of_Z by assumption.
    assert (0 <= IZR (Z.of_nat k) / IZR (Z.of_nat n) <= 1)%R; [|lra].
    split.
    - apply Rmult_le_pos; [lra|]. left. now apply Rinv_0_lt_compat.
    - apply (Rmult_le_reg_r (IZR (Z.of_nat n))); [exact HnR|].
      unfold Rdiv. rewrite Rmult_assoc, Rinv_l by lra. lra. }
  assert (Hneg : Qc_is_neg x = false).
  { apply not_true_is_false. intros H. apply Qc_is_neg_Rlt in H. lra. }
  assert (Habs : Qc_abs x = x) by (unfold Qc_abs; now rewrite Hneg).
  rewrite Habs, Hneg.
  assert (Hsmall : Qcltb x (Qc_of_Z (10 ^ 21)) = true).
  { apply Qcltb_Rlt. rewrite Q2R_of_Z.
    assert (100 < IZR (10 ^ 21))%R by (apply IZR_lt; reflexivity). lra. }
  rewrite Hsmall. eexists. split; [reflexivity|].
  unfold Qc_round.
  pose proof (Qc_floor_real (x * Qc_of_Z 100 + ratio 1 2)%Qc) as [Hf1 Hf2].
  rewrite Q2R_Qcplus, Q2R_Qcmult, Q2R_of_Z, Q2R_ratio in Hf1, Hf2.
  set (f := Qc_floor (x * Qc_of_Z 100 + ratio 1 2)%Qc) in *.
  assert (Hf0 : (0 <= f)%Z).
  { apply le_IZR. apply Rnot_lt_le. intros H.
    assert (IZR f + 1 <= 0)%R.
    { rewrite <- plus_IZR. apply IZR_le. apply lt_IZR in H. lia. }
    lra. }
  assert (Hf100 : (f <= 10000)%Z).
  { apply le_IZR. apply Rnot_lt_le. intros H.
    assert (10000 + 1 <= IZR f)%R.
    { rewrite <- plus_IZR. apply IZR_le. apply lt_IZR in H. lia. }
    lra. }
  assert (H100 : Qc_of_Z 100 <> 0%Qc) by (intros H; discriminate H).
  apply IZR_le in Hf0, Hf100.
  split; apply Rle_Qle; rewrite Q2R_Qcdiv, !Q2R_of_Z by assumption;
    rewrite ?Q2R_zero; lra.
Qed.

End PercentageFacts.

(** An entry of [identifyOutliers] counts at least one and at most all
    rows, carries the fences of its column, lists as examples the first 5
    flagged rows of the data set, and reports a percentage between 0 and
    100. *)
Theorem outlier_entry_shape
  (data : list JS.row) (columns : JS.object Types.DataColumn) (c : string)
  (info : Types.OutlierInfo) :
  Analysis.identifyOutliers data columns !! c = Some info ->
  let f := Analysis.fences_of (Analysis.column_values data c) in
  let flagged_rows := filter (fun r => Analysis.flagged f c r = true) data in
  1 <= Types.count info <= length data
  /\ Types.boundaries info
     = {| Types.lower := Analysis.lowerBound f; Types.upper := Analysis.upperBound f |}
  /\ Types.examples info = take 5 flagged_rows
  /\ length (Types.examples info) = Nat.min 5 (Types.count info)
  /\ (forall r, r ∈ Types.examples info -> r ∈ data /\ Analysis.flagged f c r = true)
  /\ exists p : Qc, Types.percentage info = JS.Fin p
                    /\ (0 <= p)%Qc /\ (p <= Qc_of_Z 100)%Qc.
Proof.
  intros H. cbv zeta.
  apply identifyOutliers_lookup in H as (col & _ & <- & H).
  pose proof (column_outliers_Some _ _ _ H) as (_ & Hc & Hpos & Hb & He).
  set (f := Analysis.fences_of (Analysis.column_values data (Types.name col))) in *.
  set (rows := filter (fun r => Analysis.flagged f (Types.name col) r = true) data) in *.
  assert (Hle : length rows <= length data) by apply length_filter.
  split; [lia|]. split; [exact Hb|]. split; [exact He|].
  split; [rewrite He, length_take, Hc; reflexivity|].
  split.
  - intros r Hr. rewrite He in Hr. apply elem_of_take in Hr as (i & Hr & _).
    apply list_elem_of_lookup_2 in Hr. apply list_elem_of_filter in Hr. tauto.
  - unfold Analysis.column_outliers in H.
    destruct (_ <? 5); [discriminate H|]. fold f in H. fold rows in H.
    destruct (0 <? length rows); [|discriminate H].
    injection H as <-. cbn [Types.percentage].
    apply toFixed2_percentage; lia.
Qed.

Lemma outlier_entry_shape_witness :
  Analysis.identifyOutliers Examples.with_hundred
    (Examples.infer Examples.with_hundred) !! "x"%string
  = Some Examples.with_hundred_entry
  /\ 1 <= Types.count Examples.with_hundred_entry <= length Examples.with_hundred
  /\ length (Types.examples Examples.with_hundred_entry)
     = Nat.min 5 (Types.count Examples.with_hundred_entry).
Proof.
  assert (E : Analysis.identifyOutliers Examples.with_hundred
                (Examples.infer Examples.with_hundred) !! "x"%string
              = Some Examples.with_hundred_entry) by by_evaluation.
  split; [exact E|].
  destruct (outlier_entry_shape _ _ _ _ E) as (H1 & _ & _ & H2 & _).
  split; [exact H1|exact H2].
Defined.

(* ================================================================== *)
(** ** Further properties of the time trends *)
(* ================================================================== *)

Section TrendFacts.
Import JS Types Analysis.

Local Abbreviation window_average := Trends.window_average.

Lemma omap_id_Some {A} (l : list A) : omap (fun val => val) (Some <$> l) = l.
Proof. induction l as [|x l IH]; [reflexivity|]. cbn. now rewrite IH. Qed.

Lemma imap_movingAvg (arr : list num) :
  2 <= length arr ->
  imap (movingAvg_at arr) arr
  = None :: (Some <$> (window_average arr <$> seq 0 (length arr - 2))) ++ [None].
Proof.
  intros Hlen. apply list_eq. intros j.
  rewrite list_lookup_imap.
  destruct (decide (j = 0)) as [->|Hj0].
  { destruct arr as [|v arr]; [simpl in Hlen; lia|]. cbn. reflexivity. }
  destruct j as [|j]; [congruence|].
  set (t := (Some <$> (window_average arr <$> seq 0 (length arr - 2))) ++ [None]).
  change ((None :: t) !! S j) with (t !! j). subst t.
  destruct (Nat.lt_ge_cases (S j) (length arr - 1)) as [Hmid|Hend].
  - destruct (lookup_lt_is_Some_2 arr (S j)) as [v Hv]; [lia|].
    rewrite Hv. cbn [fmap option_fmap option_map].
    rewrite lookup_app_l by (rewrite !length_fmap, length_seq; lia).
    rewrite !list_lookup_fmap, lookup_seq_lt by lia. cbn.
    unfold movingAvg_at, window_average, num_at.
    destruct (Nat.leb_spec (length arr - 1) (S j)); [lia|]. cbn.
    replace (j - 0) with j by lia. replace (j + 1) with (S j) by lia.
    rewrite Hv. cbn [arith default].
    replace (j + 2) with (S (S j)) by lia. reflexivity.
  - destruct (arr !! S j) as [v|] eqn:Hv.
    + assert (S j < length arr) by (apply lookup_lt_is_Some; eauto).
      assert (S j = length arr - 1) by lia.
      cbn [fmap option_fmap option_map].
      rewrite lookup_app_r by (rewrite !length_fmap, length_seq; lia).
      rewrite !length_fmap, length_seq.
      replace (j - (length arr - 2)) with 0 by lia. cbn.
      unfold movingAvg_at.
      destruct (Nat.leb_spec (length arr - 1) (S j)); [reflexivity|lia].
    + apply lookup_ge_None in Hv. cbn. symmetry. apply lookup_ge_None.
      rewrite length_app, !length_fmap, length_seq. simpl. lia.
Qed.

Lemma movingAverage_windows (arr : list num) :
  2 <= length arr ->
  omap (fun val => val) (imap (movingAvg_at arr) arr)
  = window_average arr <$> seq 0 (length arr - 2).
Proof.
  intros Hlen. rewrite imap_movingAvg by assumption.
  cbn [omap list_omap]. rewrite omap_app, omap_id_Some. cbn.
  apply app_nil_r.
Qed.

End TrendFacts.

Section SeasonalityFacts.
Import JS Types Analysis.

Lemma lt_sub_zero (a b : num) : lt (sub a b) zero = true -> lt a b = true.
Proof.
  destruct a as [| | |x], b as [| | |y]; simpl; try congruence.
  rewrite !Qcltb_Rlt, Q2R_Qcplus, Q2R_Qcopp, Q2R_zero. lra.
Qed.

Lemma gt_sub_zero (a b : num) : gt (sub a b) zero = true -> lt b a = true.
Proof.
  unfold gt. destruct a as [| | |x], b as [| | |y]; simpl; try congruence.
  rewrite !Qcltb_Rlt, Q2R_Qcplus, Q2R_Qcopp, Q2R_zero. lra.
Qed.

Lemma sign_changes_cons (p c : num) (rest : list num) :
  sign_changes (p :: c :: rest)
  = (if (gt c zero && lt p zero) || (lt c zero && gt p zero) then 1 else 0)
    + sign_changes (c :: rest).
Proof. reflexivity. Qed.

(** Without a falling step, or without a rising step, no sign changes. *)
Lemma sign_changes_monotone (values : list num) :
  (forall i a b, values !! i = Some a -> values !! S i = Some b -> lt b a = false)
  \/ (forall i a b, values !! i = Some a -> values !! S i = Some b -> lt a b = false) ->
  sign_changes (differences values) = 0.
Proof.
  intros H.
  assert (Hd : Forall (fun d => lt d zero = false) (differences values)
               \/ Forall (fun d => gt d zero = false) (differences values)).
  { destruct H as [H|H]; [left|right].
    - induction values as [|a [|b rest] IH]; try constructor.
      + apply not_true_is_false. intros E. apply lt_sub_zero in E.
        rewrite (H 0 a b eq_refl eq_refl) in E. discriminate E.
      + apply IH. intros i x y Hx Hy. apply (H (S i) x y Hx Hy).
    - induction values as [|a [|b rest] IH]; try constructor.
      + apply not_true_is_false. intros E. apply gt_sub_zero in E.
        rewrite (H 0 a b eq_refl eq_refl) in E. discriminate E.
      + apply IH. intros i x y Hx Hy. apply (H (S i) x y Hx Hy). }
  clear H. induction (differences values) as [|p [|c rest] IH]; try reflexivity.
  rewrite sign_changes_cons.
  assert (Hrest : Forall (fun d => lt d zero = false) (c :: rest)
                  \/ Forall (fun d => gt d zero = false) (c :: rest)).
  { destruct Hd as [Hd|Hd]; [left|right]; now inversion Hd. }
  rewrite (IH Hrest).
  assert (E : (gt c zero && lt p zero) || (lt c zero && gt p zero) = false).
  { destruct Hd as [Hd|Hd]; inversion Hd as [|? ? Hp Hd']; subst;
      inversion Hd' as [|? ? Hc _]; subst; rewrite Hp, Hc;
      now rewrite ?andb_false_r, ?andb_false_l. }
  rewrite E. reflexivity.
Qed.

End SeasonalityFacts.

(** With 5 rows or more the moving average has one entry for every row
    but the first and the last in date order: the average of the value
    with its two neighbours. *)
Theorem detectTimeTrends_moving_average
  (Date_parse : string -> JS.num) (data : list JS.row) (dateColumn valueColumn : string) :
  5 <= length data ->
  let values := Trends.series Date_parse data dateColumn valueColumn in
  exists t, Analysis.detectTimeTrends Date_parse data dateColumn valueColumn = Some t
    /\ Types.movingAverage t = Trends.window_average values <$> seq 0 (length data - 2)
    /\ length (Types.movingAverage t) = length data - 2.
Proof.
  intros Hlen values. unfold Analysis.detectTimeTrends.
  destruct (Nat.ltb_spec (length data) 5); [lia|].
  eexists. split; [reflexivity|]. cbn [Types.movingAverage].
  fold (Trends.series Date_parse data dateColumn valueColumn). fold values.
  assert (Hv : length values = length data).
  { unfold values, Trends.series. now rewrite length_map, sort_length. }
  rewrite movingAverage_windows by lia. rewrite Hv.
  split; [reflexivity|]. now rewrite length_fmap, length_seq.
Qed.

Lemma detectTimeTrends_moving_average_witness :
  5 <= length Examples.sales_from_zero
  /\ exists t, Analysis.detectTimeTrends Runtime.iso_date_parse
                 Examples.sales_from_zero "date" "sales" = Some t
      /\ length (Types.movingAverage t) = 3.
Proof.
  assert (H : 5 <= length Examples.sales_from_zero) by (simpl; lia).
  split; [exact H|].
  destruct (detectTimeTrends_moving_average Runtime.iso_date_parse
              Examples.sales_from_zero "date" "sales" H) as (t & Ht & _ & Hl).
  exists t. split; [exact Ht|exact Hl].
Defined.

(** A series that never falls, or never rises, along the dates is not
    reported as seasonal. *)
Theorem monotone_series_is_not_seasonal
  (Date_parse : string -> JS.num) (data : list JS.row) (dateColumn valueColumn : string)
  (t : Types.Trend) :
  Analysis.detectTimeTrends Date_parse data dateColumn valueColumn = Some t ->
  let values := Trends.series Date_parse data dateColumn valueColumn in
  (forall i a b, values !! i = Some a -> values !! S i = Some b -> JS.lt b a = false)
  \/ (forall i a b, values !! i = Some a -> values !! S i = Some b -> JS.lt a b = false) ->
  Types.seasonality t = false.
Proof.
  intros Ht values Hmono. unfold Analysis.detectTimeTrends in Ht.
  destruct (length data <? 5); [discriminate Ht|].
  injection Ht as <-. cbn [Types.seasonality].
  fold (Trends.series Date_parse data dateColumn valueColumn). fold values.
  rewrite (sign_changes_monotone values Hmono).
  unfold JS.gt, JS.of_nat, JS.of_Z, JS.mul. cbn [JS.lt].
  apply not_true_is_false. intros E. apply Qcltb_Rlt in E.
  rewrite Q2R_Qcmult, !Q2R_of_Z, Q2R_ratio in E.
  assert (0 <= IZR (Z.of_nat (length (Analysis.differences values))))%R
    by (apply IZR_le; lia).
  change (Z.of_nat 0) with 0%Z in E. lra.
Qed.

Lemma monotone_series_is_not_seasonal_witness :
  Analysis.detectTimeTrends Runtime.iso_date_parse Examples.sales_from_zero "date" "sales"
  = Some Examples.sales_from_zero_trend
  /\ Types.seasonality Examples.sales_from_zero_trend = false.
Proof.
  assert (E : Analysis.detectTimeTrends Runtime.iso_date_parse
                Examples.sales_from_zero "date" "sales"
              = Some Examples.sales_from_zero_trend) by by_evaluation.
  split; [exact E|].
  apply (monotone_series_is_not_seasonal _ _ _ _ _ E). left.
  assert (Hv : Trends.series Runtime.iso_date_parse Examples.sales_from_zero
                 "date" "sales"
               = [JS.of_Z 0; JS.of_Z 1; JS.of_Z 2; JS.of_Z 3; JS.of_Z 4])
    by by_evaluation.
  rewrite Hv. intros i a b Ha Hb.
  destruct i as [|[|[|[|[|i]]]]]; cbn in Ha, Hb; try discriminate Hb;
    injection Ha as <-; injection Hb as <-; reflexivity.
Defined.

Section RowOrderFacts.
Import JS Types Analysis.

(** A list has one sorted rearrangement only, for a relation that is
    antisymmetric on its elements. *)
Lemma sorted_perm_unique {A} (R : A -> A -> Prop) (l l' : list A) :
  StronglySorted R l -> StronglySorted R l' -> Permutation l l' ->
  (forall a b, a ∈ l -> b ∈ l -> R a b -> R b a -> a = b) ->
  l = l'.
Proof.
  intros Hs. revert l'. induction Hs as [|x l Hs IH Hx]; intros l' Hs' Hp Hanti.
  - now apply Permutation_nil in Hp.
  - destruct Hs' as [|x' l' Hs' Hx'].
    { symmetry in Hp. now apply Permutation_nil in Hp. }
    assert (E : x = x').
    { assert (Hin : x ∈ x' :: l') by (rewrite <- Hp; left).
      assert (Hin' : x' ∈ x :: l) by (rewrite Hp; left).
      apply elem_of_cons in Hin as [Hin|Hin]; [exact Hin|].
      apply elem_of_cons in Hin' as [Hin'|Hin']; [now symmetry|].
      rewrite Forall_forall in Hx, Hx'.
      apply Hanti; [left|now right|now apply Hx|now apply Hx']. }
    subst x'. f_equal. apply IH; [exact Hs'|now apply Permutation_cons_inv in Hp|].
    intros a b Ha Hb. apply Hanti; now right.
Qed.

Lemma no_greater_antisym (a b : num) :
  a <> NaN -> b <> NaN -> Spec.no_greater a b -> Spec.no_greater b a -> a = b.
Proof.
  unfold Spec.no_greater. intros Ha Hb.
  destruct a as [| | |x], b as [| | |y]; simpl; try congruence.
  rewrite !Qcltb_ge. intros H1 H2. f_equal. now apply Qcle_antisym.
Qed.

Lemma NoDup_fmap_eq {A B} (f : A -> B) (l : list A) (a b : A) :
  NoDup (f <$> l) -> a ∈ l -> b ∈ l -> f a = f b -> a = b.
Proof.
  induction l as [|x l IH]; intros Hnd Ha Hb E; [inversion Ha|].
  rewrite fmap_cons in Hnd. apply NoDup_cons in Hnd as [Hx Hnd].
  apply elem_of_cons in Ha as [->|Ha], Hb as [->|Hb]; auto.
  - exfalso. apply Hx. rewrite E. now apply list_elem_of_fmap_2.
  - exfalso. apply Hx. rewrite <- E. now apply list_elem_of_fmap_2.
Qed.

(** The sort by date of rows with valid dates is sorted by their times. *)
Lemma sort_by_date_sorted (Date_parse : string -> num) (dateColumn : string)
  (data : list row) :
  Forall (fun r => Trends.time_of Date_parse dateColumn r <> NaN) data ->
  StronglySorted
    (fun a b => Spec.no_greater (Trends.time_of Date_parse dateColumn a)
                                (Trends.time_of Date_parse dateColumn b))
    (sort (by_date Date_parse dateColumn) data).
Proof.
  intros Hvalid.
  apply (sort_sorted (by_date Date_parse dateColumn) _
           (fun r => Trends.time_of Date_parse dateColumn r <> NaN)).
  - intros a b c Ha Hb Hc. now apply no_greater_trans.
  - intros a b Ha Hb H. unfold by_date in H.
    fold (Trends.time_of Date_parse dateColumn a) in H.
    fold (Trends.time_of Date_parse dateColumn b) in H.
    rewrite gt_sub in H by assumption. exact H.
  - intros a b Ha Hb H. unfold by_date in H.
    fold (Trends.time_of Date_parse dateColumn a) in H.
    fold (Trends.time_of Date_parse dateColumn b) in H.
    rewrite gt_sub in H by assumption. now apply lt_asym.
  - exact Hvalid.
Qed.

Lemma sort_by_date_perm (Date_parse : string -> num) (dateColumn : string)
  (data data' : list row) :
  Permutation data data' ->
  Forall (fun r => Trends.time_of Date_parse dateColumn r <> NaN) data ->
  NoDup (Trends.time_of Date_parse dateColumn <$> data) ->
  sort (by_date Date_parse dateColumn) data = sort (by_date Date_parse dateColumn) data'.
Proof.
  intros Hp Hvalid Hnd.
  apply (sorted_perm_unique
           (fun a b => Spec.no_greater (Trends.time_of Date_parse dateColumn a)
                                       (Trends.time_of Date_parse dateColumn b))).
  - now apply sort_by_date_sorted.
  - apply sort_by_date_sorted. now rewrite <- Hp.
  - now rewrite !sort_perm.
  - intros a b Ha Hb Hab Hba.
    rewrite (sort_perm (by_date Date_parse dateColumn) data) in Ha, Hb.
    rewrite Forall_forall in Hvalid.
    apply (NoDup_fmap_eq (Trends.time_of Date_parse dateColumn) data); auto.
    apply no_greater_antisym; auto.
Qed.

End RowOrderFacts.

(** When every row has a valid date and no two rows have the same date,
    the trend does not depend on the order of the rows. *)
Theorem detectTimeTrends_row_order
  (Date_parse : string -> JS.num) (data data' : list JS.row)
  (dateColumn valueColumn : string) :
  Permutation data data' ->
  Forall (fun r => Trends.time_of Date_parse dateColumn r <> JS.NaN) data ->
  NoDup (Trends.time_of Date_parse dateColumn <$> data) ->
  Analysis.detectTimeTrends Date_parse data dateColumn valueColumn
  = Analysis.detectTimeTrends Date_parse data' dateColumn valueColumn.
Proof.
  intros Hp Hvalid Hnd. unfold Analysis.detectTimeTrends.
  rewrite (Permutation_length Hp).
  now rewrite (sort_by_date_perm Date_parse dateColumn data data' Hp Hvalid Hnd).
Qed.

Lemma detectTimeTrends_row_order_witness :
  Permutation Examples.sales_from_zero (reverse Examples.sales_from_zero)
  /\ Forall (fun r => Trends.time_of Runtime.iso_date_parse "date" r <> JS.NaN)
            Examples.sales_from_zero
  /\ NoDup (Trends.time_of Runtime.iso_date_parse "date" <$> Examples.sales_from_zero)
  /\ Analysis.detectTimeTrends Runtime.iso_date_parse
       (reverse Examples.sales_from_zero) "date" "sales"
     = Some Examples.sales_from_zero_trend.
Proof.
  assert (Hp : Permutation Examples.sales_from_zero (reverse Examples.sales_from_zero))
    by (symmetry; apply reverse_Permutation).
  assert (Hv : Forall (fun r => Trends.time_of Runtime.iso_date_parse "date" r <> JS.NaN)
                      Examples.sales_from_zero).
  { repeat constructor; vm_compute; discriminate. }
  assert (Hn : NoDup (Trends.time_of Runtime.iso_date_parse "date"
                        <$> Examples.sales_from_zero)).
  { apply (bool_decide_unpack _). vm_compute. exact I. }
  split; [exact Hp|]. split; [exact Hv|]. split; [exact Hn|].
  rewrite <- (detectTimeTrends_row_order _ _ _ "date" "sales" Hp Hv Hn).
  by_evaluation.
Defined.

(* ================================================================== *)
(** ** The entries of the outlier detector and the fence test *)
(* ================================================================== *)

Section FenceFacts.
Import JS Types Analysis.



End FenceFacts.


(* ================================================================== *)
(** ** Further properties of the correlations *)
(* ================================================================== *)

Section SymmetryFacts.
Import JS Types Analysis.

Lemma mul_comm (a b : num) : mul a b = mul b a.
Proof.
  destruct a, b; simpl; try reflexivity. now rewrite Qcmult_comm.
Qed.

Lemma reduce_sum_map {A B} (f : B -> num) (g : A -> B) (l : list A) :
  reduce_sum f (map g l) = reduce_sum (fun x => f (g x)) l.
Proof. rewrite !reduce_sum_total. now rewrite map_map. Qed.

Lemma reduce_sum_ext {A} (f g : A -> num) (l : list A) :
  (forall x, f x = g x) -> reduce_sum f l = reduce_sum g l.
Proof.
  intros H. rewrite !reduce_sum_total. f_equal. now apply map_ext.
Qed.

Local Abbreviation swap := Correlations.swap.

Lemma paired_values_swap (data : list row) (col1 col2 : string) :
  paired_values data col2 col1 = map swap (paired_values data col1 col2).
Proof.
  unfold paired_values. rewrite map_map. cbn [swap fst snd].
  f_equal. apply list_filter_iff. intros r. now rewrite andb_comm.
Qed.

Lemma numerator_swap (pairs : list (num * num)) :
  numerator_of (map swap pairs) = numerator_of pairs.
Proof.
  unfold numerator_of. rewrite length_map, !reduce_sum_map. cbn [swap fst snd].
  rewrite (reduce_sum_ext (fun x => mul x.2 x.1) (fun p => mul p.1 p.2))
    by (intros; apply mul_comm).
  now rewrite (mul_comm (reduce_sum (fun x => x.2) pairs)).
Qed.

Lemma denominator_swap (pairs : list (num * num)) :
  denominator_of (map swap pairs) = denominator_of pairs.
Proof.
  unfold denominator_of. rewrite length_map, !reduce_sum_map. cbn [swap fst snd].
  f_equal. apply mul_comm.
Qed.

Lemma index_pairs_length {A} (xs : list A) :
  2 * length (index_pairs xs) = length xs * (length xs - 1).
Proof.
  induction xs as [|x xs IH]; [reflexivity|].
  cbn [index_pairs]. rewrite length_app, length_map. simpl length.
  replace (S (length xs) - 1) with (length xs) by lia.
  destruct xs as [|y xs]; [reflexivity|].
  simpl length in *. nia.
Qed.

Lemma omap_length_le {A B} (f : A -> option B) (l : list A) :
  length (omap f l) <= length l.
Proof.
  induction l as [|x l IH]; [reflexivity|]. cbn [omap list_omap].
  destruct (f x); simpl; lia.
Qed.

End SymmetryFacts.

(** The entry of a pair of columns does not depend on the order in which
    the two columns are taken: the reported coefficient, the strength and
    the direction are the same, only the two names change places. *)
Theorem correlation_is_symmetric (data : list JS.row) (col1 col2 : string) :
  Analysis.correlate data col2 col1
  = (fun item =>
       {| Types.columns := (col2, col1);
          Types.correlation := Types.correlation item;
          Types.strength := Types.strength item;
          Types.direction := Types.direction item |})
    <$> Analysis.correlate data col1 col2.
Proof.
  unfold Analysis.correlate, Analysis.pearson.
  rewrite paired_values_swap, length_map, numerator_swap, denominator_swap.
  repeat (destruct (_ : bool); try reflexivity).
Qed.

(** [findCorrelations] returns at most one entry for each of the
    k (k - 1) / 2 pairs of numeric columns. *)
Theorem findCorrelations_at_most_one_per_pair
  (data : list JS.row) (columns : JS.object Types.DataColumn) :
  let k := length (Analysis.numeric_columns columns) in
  2 * length (Analysis.findCorrelations data columns) <= k * (k - 1).
Proof.
  cbv zeta. rewrite <- index_pairs_length.
  unfold Analysis.findCorrelations. destruct data as [|r data]; [simpl; lia|].
  rewrite sort_length. apply Nat.mul_le_mono_l, omap_length_le.
Qed.

Section CauchySchwarz.
Import JS RealSums.
Local Open Scope R_scope.

Lemma Rsum_app {A} (f : A -> R) (l k : list A) :
  Rsum f (l ++ k) = Rsum f l + Rsum f k.
Proof. induction l as [|x l IH]; simpl; [lra|rewrite IH; lra]. Qed.

Lemma Rsum_map {A B} (f : B -> R) (g : A -> B) (l : list A) :
  Rsum f (map g l) = Rsum (fun x => f (g x)) l.
Proof. induction l as [|x l IH]; simpl; [reflexivity|now rewrite IH]. Qed.

Lemma Rsum_nonneg {A} (f : A -> R) (l : list A) :
  (forall x, 0 <= f x) -> 0 <= Rsum f l.
Proof.
  intros H. induction l as [|x l IH]; simpl; [lra|]. specialize (H x). lra.
Qed.

Lemma square_nonneg (x : R) : 0 <= x * x.
Proof. nra. Qed.

Lemma square_le (x y : R) : 0 <= y -> x * x <= y * y -> x <= y.
Proof. intros. nra. Qed.

(** The inequality of Cauchy and Schwarz for finite sums. *)
Lemma Rsum_Cauchy_Schwarz {A} (a b : A -> R) (l : list A) :
  Rsum (fun k => a k * b k) l * Rsum (fun k => a k * b k) l
  <= Rsum (fun k => a k * a k) l * Rsum (fun k => b k * b k) l.
Proof.
  induction l as [|x l IH]; simpl; [lra|].
  set (S := Rsum (fun k => a k * b k) l) in *.
  set (P := Rsum (fun k => a k * a k) l) in *.
  set (Q := Rsum (fun k => b k * b k) l) in *.
  assert (HP : 0 <= P) by (apply Rsum_nonneg; intros; apply square_nonneg).
  assert (HQ : 0 <= Q) by (apply Rsum_nonneg; intros; apply square_nonneg).
  set (u := a x) in *. set (v := b x) in *. clearbody S P Q u v.
  pose proof (square_nonneg u) as Hu. pose proof (square_nonneg v) as Hv.
  assert (Hy : 0 <= u * u * Q + v * v * P).
  { pose proof (Rmult_le_pos _ _ Hu HQ). pose proof (Rmult_le_pos _ _ Hv HP). lra. }
  assert (Hsq : (2 * u * v * S) * (2 * u * v * S)
                <= (u * u * Q + v * v * P) * (u * u * Q + v * v * P)).
  { pose proof (square_nonneg (u * u * Q - v * v * P)) as H1.
    pose proof (square_nonneg (u * v)) as H2.
    pose proof (Rmult_le_compat_l _ _ _ H2 IH) as H3.
    lra. }
  pose proof (square_le _ _ Hy Hsq) as Hle.
  lra.
Qed.

(** The cross term as a sum over the pairs of points. *)
Lemma Rsum_against {A} (u v : A -> R) (p : A) (l : list A) :
  Rsum (fun q => (u p - u q) * (v p - v q)) l
  = INR (length l) * (u p * v p) - u p * Rsum v l - v p * Rsum u l
    + Rsum (fun q => u q * v q) l.
Proof.
  induction l as [|q l IH]; [simpl; lra|].
  cbn [Rsum]. rewrite IH. change (length (q :: l)) with (Datatypes.S (length l)).
  rewrite S_INR. ring.
Qed.

Lemma cross_pairs {A} (u v : A -> R) (l : list A) :
  cross u v l
  = Rsum (fun pq => (u pq.1 - u pq.2) * (v pq.1 - v pq.2)) (Analysis.index_pairs l).
Proof.
  unfold cross. induction l as [|p l IH]; [simpl; lra|].
  cbn [Analysis.index_pairs]. rewrite Rsum_app, <- IH, Rsum_map. cbn [fst snd].
  rewrite Rsum_against. change (length (p :: l)) with (Datatypes.S (length l)).
  rewrite S_INR. cbn [Rsum]. ring.
Qed.

Lemma cross_Cauchy_Schwarz {A} (u v : A -> R) (l : list A) :
  cross u v l * cross u v l <= cross u u l * cross v v l.
Proof.
  rewrite !cross_pairs.
  apply (Rsum_Cauchy_Schwarz (fun pq => u pq.1 - u pq.2) (fun pq => v pq.1 - v pq.2)).
Qed.

End CauchySchwarz.

Section CoefficientRange.
Import JS Types Analysis RealSums.
Local Open Scope R_scope.

Lemma to_R_add (a b : num) :
  finite a -> finite b -> to_R (add a b) = to_R a + to_R b.
Proof.
  intros [x ->] [y ->].
  change (to_R (add (Fin x) (Fin y))) with (Q2R (x + y)%Qc). apply Q2R_Qcplus.
Qed.

Lemma to_R_sub (a b : num) :
  finite a -> finite b -> to_R (sub a b) = to_R a - to_R b.
Proof.
  intros [x ->] [y ->].
  change (to_R (sub (Fin x) (Fin y))) with (Q2R (x + - y)%Qc).
  rewrite Q2R_Qcplus, Q2R_Qcopp. reflexivity.
Qed.

Lemma to_R_mul (a b : num) :
  finite a -> finite b -> to_R (mul a b) = to_R a * to_R b.
Proof.
  intros [x ->] [y ->].
  change (to_R (mul (Fin x) (Fin y))) with (Q2R (x * y)%Qc). apply Q2R_Qcmult.
Qed.

Lemma to_R_of_nat (n : nat) : to_R (of_nat n) = INR n.
Proof.
  change (to_R (of_nat n)) with (Q2R (Qc_of_Z (Z.of_nat n))).
  rewrite Q2R_of_Z. symmetry. apply INR_IZR_INZ.
Qed.

Lemma of_nat_finite (n : nat) : finite (of_nat n).
Proof. eexists; reflexivity. Qed.

Lemma to_R_reduce_sum {A} (f : A -> num) (xs : list A) :
  Forall (fun x => finite (f x)) xs ->
  to_R (reduce_sum f xs) = Rsum (fun x => to_R (f x)) xs.
Proof.
  intros H. rewrite reduce_sum_total.
  induction H as [|x xs Hx Hxs IH]; [simpl; apply Q2R_zero|].
  cbn [map Spec.total Rsum].
  rewrite to_R_add, IH; [reflexivity|exact Hx|].
  rewrite <- reduce_sum_total. now apply reduce_sum_finite.
Qed.

(** A finite denominator is computed from finite coordinates only. *)
Lemma denominator_finite_pairs (pairs : list (num * num)) (c r : Qc) :
  denominator_of pairs = SFin c r ->
  Forall (fun p => finite p.1 /\ finite p.2) pairs.
Proof.
  unfold denominator_of. intros H.
  assert (Hm : finite (mul (sub (mul (of_nat (length pairs))
                                     (reduce_sum (fun p => mul p.1 p.1) pairs))
                                (mul (reduce_sum fst pairs) (reduce_sum fst pairs)))
                           (sub (mul (of_nat (length pairs))
                                     (reduce_sum (fun p => mul p.2 p.2) pairs))
                                (mul (reduce_sum snd pairs) (reduce_sum snd pairs))))).
  { destruct (mul _ _) as [| | |q]; try discriminate H. now exists q. }
  rewrite mul_finite, !sub_finite, !mul_finite, !reduce_sum_finite in Hm.
  destruct Hm as [[_ [Hx _]] [_ [Hy _]]].
  rewrite Forall_forall in *. intros p Hp. split; auto.
Qed.

Section Sums.
Variable pairs : list (num * num).
Hypothesis Hfin : Forall (fun p => finite p.1 /\ finite p.2) pairs.

Let u (p : num * num) : R := to_R p.1.
Let v (p : num * num) : R := to_R p.2.

Lemma finite_coordinates (f : num * num -> num) :
  (forall p, finite p.1 -> finite p.2 -> finite (f p)) ->
  Forall (fun p => finite (f p)) pairs.
Proof.
  intros H. eapply Forall_impl; [exact Hfin|]. intros p [? ?]. now apply H.
Qed.

Lemma cross_term_real (f g : num * num -> num) :
  (forall p, finite p.1 -> finite p.2 -> finite (f p)) ->
  (forall p, finite p.1 -> finite p.2 -> finite (g p)) ->
  let t := sub (mul (of_nat (length pairs)) (reduce_sum (fun p => mul (f p) (g p)) pairs))
               (mul (reduce_sum f pairs) (reduce_sum g pairs)) in
  finite t
  /\ to_R t = cross (fun p => to_R (f p)) (fun p => to_R (g p)) pairs.
Proof.
  intros Hf Hg t.
  pose proof (finite_coordinates f Hf) as Ff.
  pose proof (finite_coordinates g Hg) as Fg.
  assert (Ffg : Forall (fun p => finite (mul (f p) (g p))) pairs).
  { apply finite_coordinates. intros p H1 H2. apply mul_finite. auto. }
  pose proof (proj2 (reduce_sum_finite f pairs) Ff) as Sf.
  pose proof (proj2 (reduce_sum_finite g pairs) Fg) as Sg.
  pose proof (proj2 (reduce_sum_finite _ pairs) Ffg) as Sfg.
  pose proof (of_nat_finite (length pairs)) as Hn.
  assert (H1 : finite (mul (of_nat (length pairs))
                           (reduce_sum (fun p => mul (f p) (g p)) pairs)))
    by (apply mul_finite; auto).
  assert (H2 : finite (mul (reduce_sum f pairs) (reduce_sum g pairs)))
    by (apply mul_finite; auto).
  split; [apply sub_finite; auto|].
  unfold t, cross.
  rewrite to_R_sub, !to_R_mul, to_R_of_nat, !to_R_reduce_sum by assumption.
  f_equal. f_equal. clear -Hfin Hf Hg.
  induction Hfin as [|p l [Hp1 Hp2] Hl IH]; [reflexivity|].
  cbn [Rsum]. rewrite IH, to_R_mul by auto. reflexivity.
Qed.

Lemma numerator_real :
  finite (numerator_of pairs) /\ to_R (numerator_of pairs) = cross u v pairs.
Proof. apply (cross_term_real fst snd); auto. Qed.

End Sums.

End CoefficientRange.

Section CoefficientBound.
Import JS Types Analysis RealSums.
Local Open Scope R_scope.

(** The square of the numerator never exceeds the number under the square
    root of the denominator. *)
Lemma numerator_square_le (pairs : list (num * num)) (num x : Qc) :
  numerator_of pairs = Fin num ->
  denominator_of pairs = Math_sqrt (Fin x) ->
  0 < Q2R x ->
  Q2R num * Q2R num <= Q2R x.
Proof.
  intros Hn Hd Hx.
  assert (Hneg : Qc_is_neg x = false).
  { apply not_true_is_false. intros E. apply Qc_is_neg_Rlt in E. lra. }
  assert (Hs : Math_sqrt (Fin x) = SFin 1%Qc x) by (simpl; now rewrite Hneg).
  rewrite Hs in Hd.
  pose proof (denominator_finite_pairs pairs _ _ Hd) as Hfin.
  destruct (numerator_real pairs Hfin) as [_ Hnum].
  rewrite Hn in Hnum. cbn [to_R] in Hnum.
  destruct (cross_term_real pairs Hfin fst fst) as [Fx Hxx]; auto.
  destruct (cross_term_real pairs Hfin snd snd) as [Fy Hyy]; auto.
  unfold denominator_of in Hd. cbv zeta in Fx, Fy, Hxx, Hyy.
  set (X := sub (mul (of_nat (length pairs)) (reduce_sum (fun p => mul p.1 p.1) pairs))
                (mul (reduce_sum fst pairs) (reduce_sum fst pairs))) in *.
  set (Y := sub (mul (of_nat (length pairs)) (reduce_sum (fun p => mul p.2 p.2) pairs))
                (mul (reduce_sum snd pairs) (reduce_sum snd pairs))) in *.
  assert (Hxy : to_R (mul X Y) = Q2R x).
  { destruct (mul X Y) as [| | |y]; try discriminate Hd.
    simpl in Hd. destruct (Qc_is_neg y); [discriminate Hd|].
    injection Hd as ->. reflexivity. }
  rewrite to_R_mul, Hxx, Hyy in Hxy by assumption.
  rewrite Hnum, <- Hxy. apply cross_Cauchy_Schwarz.
Qed.

(** The coefficient lies between -1 and 1. *)
Lemma coefficient_at_most_one (num x : R) :
  0 < x -> num * num <= x -> Rabs (num / sqrt x) <= 1.
Proof.
  intros Hx H.
  pose proof (sqrt_lt_R0 _ Hx) as Hs.
  pose proof (sqrt_sqrt x ltac:(lra)) as Hss.
  unfold Rdiv. rewrite Rabs_mult, (Rabs_right (/ sqrt x)).
  2:{ apply Rle_ge. left. now apply Rinv_0_lt_compat. }
  assert (Ha : Rabs num <= sqrt x).
  { apply square_le; [lra|]. rewrite Hss.
    replace (Rabs num * Rabs num) with (num * num); [exact H|].
    unfold Rabs. destruct (Rcase_abs num); ring. }
  apply (Rmult_le_reg_r (sqrt x)); [exact Hs|].
  rewrite Rmult_assoc, Rinv_l by lra. lra.
Qed.

End CoefficientBound.

Section SmallIntegers.
Import JS Analysis RealSums Correlations.

Lemma add_of_Z (a b : Z) : add (of_Z a) (of_Z b) = of_Z (a + b).
Proof. unfold of_Z. cbn [add]. now rewrite Z2Qc_inj_add. Qed.

Lemma mul_of_Z (a b : Z) : mul (of_Z a) (of_Z b) = of_Z (a * b).
Proof. unfold of_Z. cbn [mul]. now rewrite Z2Qc_inj_mul. Qed.

Lemma sub_of_Z (a b : Z) : sub (of_Z a) (of_Z b) = of_Z (a - b).
Proof. unfold of_Z, sub. cbn [neg add]. now rewrite Z2Qc_inj_sub. Qed.

Lemma reduce_sum_of_Z {A} (f : A -> Z) (l : list A) :
  reduce_sum (fun x => of_Z (f x)) l = of_Z (Zsum f l).
Proof.
  rewrite reduce_sum_total.
  induction l as [|x l IH]; cbn [map Spec.total Zsum foldr]; [by_evaluation|].
  fold (Zsum f l). now rewrite IH, add_of_Z.
Qed.

Lemma Rsum_IZR {A} (f : A -> Z) (l : list A) :
  Rsum (fun x => IZR (f x)) l = IZR (Zsum f l).
Proof.
  induction l as [|x l IH]; cbn [Rsum Zsum foldr]; [reflexivity|].
  fold (Zsum f l). now rewrite IH, plus_IZR.
Qed.

Lemma Zsum_fmap {A B} (g : A -> B) (f : B -> Z) (l : list A) :
  Zsum f (g <$> l) = Zsum (fun x => f (g x)) l.
Proof.
  induction l as [|x l IH]; cbn; [reflexivity|]. unfold Zsum in IH. now rewrite IH.
Qed.

Lemma cross_IZR {A} (u v : A -> Z) (l : list A) :
  cross (fun p => IZR (u p)) (fun p => IZR (v p)) l = IZR (Zcross u v l).
Proof.
  unfold cross, Zcross.
  rewrite minus_IZR, !mult_IZR, <- INR_IZR_INZ, <- !Rsum_IZR.
  f_equal. f_equal. clear. induction l as [|x l IH]; cbn [Rsum]; [reflexivity|].
  now rewrite IH, mult_IZR.
Qed.

Lemma Zcross_Cauchy_Schwarz {A} (u v : A -> Z) (l : list A) :
  (Zcross u v l * Zcross u v l <= Zcross u u l * Zcross v v l)%Z.
Proof.
  apply le_IZR. rewrite !mult_IZR, <- !cross_IZR. apply cross_Cauchy_Schwarz.
Qed.

Lemma Zcross_nonneg {A} (u : A -> Z) (l : list A) : (0 <= Zcross u u l)%Z.
Proof.
  apply le_IZR. rewrite <- cross_IZR, cross_pairs.
  apply Rsum_nonneg. intros x. apply square_nonneg.
Qed.

Lemma Zcross_le {A} (u : A -> Z) (l : list A) :
  (Zcross u u l <= Z.of_nat (length l) * Zsum (fun p => u p * u p) l)%Z.
Proof. unfold Zcross. nia. Qed.

Lemma square_bound (N X Y B : Z) :
  (N * N <= X * Y -> 0 <= X < B -> 0 <= Y < B -> Z.abs N < B)%Z.
Proof. intros H HX HY. nia. Qed.

(** For small integers the numerator of the coefficient and the two
    factors under the square root of its denominator are integers below
    [2 ^ 53] in absolute value, which the arithmetic of the engine forms
    without rounding; the square of the numerator is at most the product
    of the two factors. *)
Lemma small_integers_terms (pairs : list (num * num)) :
  small_integers pairs ->
  exists N X Y : Z,
    numerator_of pairs = of_Z N
    /\ denominator_of pairs = Math_sqrt (mul (of_Z X) (of_Z Y))
    /\ (N * N <= X * Y)%Z
    /\ (Z.abs N < 2 ^ 53)%Z /\ (0 <= X < 2 ^ 53)%Z /\ (0 <= Y < 2 ^ 53)%Z.
Proof.
  intros (zs & -> & Hx & Hy).
  exists (Zcross fst snd zs), (Zcross fst fst zs), (Zcross snd snd zs).
  assert (HX : (0 <= Zcross fst fst zs < 2 ^ 53)%Z).
  { split; [apply Zcross_nonneg|]. eapply Z.le_lt_trans; [apply Zcross_le|].
    rewrite <- (Zsum_fmap fst (fun z => z * z)%Z). exact Hx. }
  assert (HY : (0 <= Zcross snd snd zs < 2 ^ 53)%Z).
  { split; [apply Zcross_nonneg|]. eapply Z.le_lt_trans; [apply Zcross_le|].
    rewrite <- (Zsum_fmap snd (fun z => z * z)%Z). exact Hy. }
  pose proof (Zcross_Cauchy_Schwarz fst snd zs) as HCS.
  split; [|split; [|split; [exact HCS|split; [|split; assumption]]]].
  - unfold numerator_of, Zcross, of_nat. rewrite length_map, !reduce_sum_map.
    cbn [fst snd].
    rewrite (reduce_sum_of_Z fst), (reduce_sum_of_Z snd).
    rewrite (reduce_sum_ext _ (fun z => of_Z (z.1 * z.2))) by (intros; apply mul_of_Z).
    now rewrite reduce_sum_of_Z, !mul_of_Z, sub_of_Z.
  - unfold denominator_of, Zcross, of_nat. rewrite length_map, !reduce_sum_map.
    cbn [fst snd].
    rewrite (reduce_sum_of_Z fst), (reduce_sum_of_Z snd).
    rewrite (reduce_sum_ext _ (fun z => of_Z (z.1 * z.1))) by (intros; apply mul_of_Z).
    rewrite (reduce_sum_ext (fun x : Z * Z => mul (of_Z x.2) (of_Z x.2))
               (fun z => of_Z (z.2 * z.2))) by (intros; apply mul_of_Z).
    now rewrite !reduce_sum_of_Z, !mul_of_Z, !sub_of_Z, mul_of_Z.
  - now apply (square_bound _ _ _ _ HCS).
Qed.

End SmallIntegers.

(** Every entry of [findCorrelations] reports a coefficient [k / 100] for
    an integer [k] with [50 <= |k|]. A strong entry reports at least 0.80,
    a moderate one at most 0.80, and the direction is positive exactly
    when the reported coefficient is. Where the paired values of the two
    columns are small integers, whose sums are formed without rounding,
    [|k| <= 100]: the reported coefficient lies in [-1, 1]. *)
Theorem reported_coefficient_range
  (data : list JS.row) (columns : JS.object Types.DataColumn)
  (item : Types.Correlation) :
  item ∈ Analysis.findCorrelations data columns ->
  exists k : Z,
    Types.correlation item = JS.Fin (Qc_of_Z k / Qc_of_Z 100)%Qc
    /\ (50 <= Z.abs k)%Z
    /\ (Types.strength item = Types.strong -> (80 <= Z.abs k)%Z)
    /\ (Types.strength item = Types.moderate -> (Z.abs k <= 80)%Z)
    /\ (Types.direction item = Types.positive <-> (0 < k)%Z)
    /\ (Correlations.small_integers
          (Analysis.paired_values data (Types.columns item).1 (Types.columns item).2) ->
        (Z.abs k <= 100)%Z).
Proof.
  intros Hin.
  apply findCorrelations_elem in Hin as (col1 & col2 & _ & Hc).
  apply correlate_real in Hc as (num & x & n & Hn & Hd & Hx & Hhalf & Hst & Hdir & Hcorr & Hr).
  pose proof (numerator_square_le _ num x Hn Hd Hx) as Hsq.
  pose proof (coefficient_at_most_one _ _ Hx Hsq) as Hone.
  set (r := (Q2R num / sqrt (Q2R x))%R) in *.
  assert (Hn50 : (50 <= n)%Z).
  { apply Z.lt_succ_r, lt_IZR. rewrite succ_IZR. lra. }
  assert (Hn100 : (n <= 100)%Z).
  { apply Z.lt_succ_r, lt_IZR. rewrite succ_IZR. lra. }
  exists (if JS.Qc_is_neg num then (- n)%Z else n).
  split; [exact Hcorr|].
  assert (Habs : Z.abs (if JS.Qc_is_neg num then (- n)%Z else n) = n)
    by (destruct (JS.Qc_is_neg num); lia).
  rewrite Habs.
  split; [lia|]. split; [|split; [|split; [|intros _; exact Hn100]]].
  - intros Hs. apply Hst in Hs.
    apply Z.lt_succ_r, lt_IZR. rewrite succ_IZR. lra.
  - intros Hs.
    assert (Hle : (Rabs r <= 8 / 10)%R).
    { apply Rnot_lt_le. intros H. apply Hst in H. congruence. }
    apply Z.lt_succ_r, lt_IZR. rewrite succ_IZR. lra.
  - rewrite Hdir.
    pose proof (sqrt_lt_R0 _ Hx) as Hs.
    assert (Hnum : (Q2R num = r * sqrt (Q2R x))%R) by (unfold r; field; lra).
    destruct (JS.Qc_is_neg num) eqn:En.
    + apply Qc_is_neg_Rlt in En. split; [|lia].
      intros Hr0. exfalso. assert (0 < r * sqrt (Q2R x))%R by nra. lra.
    + split; [lia|]. intros _.
      assert (Hge : (0 <= Q2R num)%R).
      { apply Rnot_lt_le. intros H. apply Qc_is_neg_Rlt in H. congruence. }
      destruct (Rle_or_lt r 0) as [Hr0|Hr0]; [|exact Hr0].
      exfalso. destruct Hr0 as [Hr0|Hr0].
      * assert (r * sqrt (Q2R x) < 0)%R by nra. lra.
      * rewrite Hr0, Rabs_R0 in Hhalf. lra.
Qed.

Lemma reported_coefficient_range_witness :
  exists k : Z,
    Types.correlation Examples.a_b_entry = JS.Fin (Qc_of_Z k / Qc_of_Z 100)%Qc
    /\ (50 <= Z.abs k <= 100)%Z.
Proof.
  assert (E : Analysis.findCorrelations Examples.three_columns
                (Examples.infer Examples.three_columns)
              = [Examples.a_b_entry; Examples.a_c_entry; Examples.b_c_entry])
    by by_evaluation.
  assert (P : Analysis.paired_values Examples.three_columns "a" "b"
              = map (fun z => (JS.of_Z z.1, JS.of_Z z.2))
                    [(1, 1); (2, 1); (3, 1); (4, 1); (5, 2)]%Z)
    by by_evaluation.
  destruct (reported_coefficient_range Examples.three_columns
              (Examples.infer Examples.three_columns) Examples.a_b_entry)
    as (k & Hk & Hlow & _ & _ & _ & Hhigh).
  - rewrite E. apply list_elem_of_here.
  - exists k. split; [exact Hk|]. split; [exact Hlow|]. apply Hhigh.
    cbn [Types.columns Examples.a_b_entry fst snd].
    eexists. split; [exact P|]. split; vm_compute; reflexivity.
Defined.

Section LinearRelation.
Import JS Types Analysis RealSums.
Local Open Scope R_scope.

Lemma Rsum_ext_on {A} (f g : A -> R) (l : list A) :
  Forall (fun x => f x = g x) l -> Rsum f l = Rsum g l.
Proof.
  induction 1 as [|x l Hx Hl IH]; [reflexivity|]. cbn [Rsum]. now rewrite Hx, IH.
Qed.

Lemma Rsum_plus {A} (f g : A -> R) (l : list A) :
  Rsum (fun x => f x + g x) l = Rsum f l + Rsum g l.
Proof. induction l as [|x l IH]; cbn [Rsum]; [lra|rewrite IH; lra]. Qed.

Lemma Rsum_scale {A} (c : R) (f : A -> R) (l : list A) :
  Rsum (fun x => c * f x) l = c * Rsum f l.
Proof. induction l as [|x l IH]; cbn [Rsum]; [lra|rewrite IH; lra]. Qed.

Lemma Rsum_const {A} (c : R) (l : list A) :
  Rsum (fun _ => c) l = INR (length l) * c.
Proof.
  induction l as [|x l IH]; [simpl; lra|].
  cbn [Rsum]. change (length (x :: l)) with (S (length l)).
  rewrite S_INR, IH. lra.
Qed.

Lemma Rsum_pos {A} (f : A -> R) (l : list A) (x : A) :
  (forall y, 0 <= f y) -> x ∈ l -> 0 < f x -> 0 < Rsum f l.
Proof.
  intros Hf Hin Hx. induction Hin as [x l|x y l Hin IH]; cbn [Rsum].
  - pose proof (Rsum_nonneg f l Hf). lra.
  - specialize (Hf y). lra.
Qed.

(** For [v = a u + b] the cross terms are multiples of the one of [u]. *)
Lemma cross_linear {A} (u v : A -> R) (a b : R) (l : list A) :
  Forall (fun p => v p = a * u p + b) l ->
  cross u v l = a * cross u u l /\ cross v v l = a * a * cross u u l.
Proof.
  intros H. unfold cross.
  rewrite (Rsum_ext_on v (fun p => a * u p + b) l H).
  rewrite (Rsum_ext_on (fun p => u p * v p) (fun p => a * (u p * u p) + b * u p) l).
  2:{ eapply Forall_impl; [exact H|]. intros p Hp. cbn beta in *. rewrite Hp. ring. }
  rewrite (Rsum_ext_on (fun p => v p * v p)
             (fun p => a * a * (u p * u p) + (2 * a * b * u p + b * b)) l).
  2:{ eapply Forall_impl; [exact H|]. intros p Hp. cbn beta in *. rewrite Hp. ring. }
  rewrite !Rsum_plus, !Rsum_scale, !Rsum_const. split; ring.
Qed.

Lemma index_pairs_elem {A} (l : list A) (p q : A) :
  p ∈ l -> q ∈ l -> p <> q ->
  (p, q) ∈ index_pairs l \/ (q, p) ∈ index_pairs l.
Proof.
  induction l as [|x l IH]; intros Hp Hq Hne; [inversion Hp|].
  cbn [index_pairs].
  apply elem_of_cons in Hp as [->|Hp]; apply elem_of_cons in Hq as [->|Hq].
  - congruence.
  - left. apply elem_of_app. left. apply list_elem_of_fmap. eauto.
  - right. apply elem_of_app. left. apply list_elem_of_fmap. eauto.
  - destruct (IH Hp Hq Hne) as [H|H]; [left|right]; apply elem_of_app; auto.
Qed.

(** The cross term of a coordinate with itself is positive as soon as
    two points differ in it. *)
Lemma cross_positive {A} (u : A -> R) (l : list A) (p q : A) :
  p ∈ l -> q ∈ l -> u p <> u q -> 0 < cross u u l.
Proof.
  intros Hp Hq Hne. rewrite cross_pairs.
  assert (Hpq : p <> q) by congruence.
  assert (Hf : forall pq : A * A, 0 <= (u pq.1 - u pq.2) * (u pq.1 - u pq.2))
    by (intros; apply square_nonneg).
  destruct (index_pairs_elem l p q Hp Hq Hpq) as [H|H];
    apply (Rsum_pos _ _ _ Hf H); cbn [fst snd]; nra.
Qed.

(** The numerator and the number under the root, as real numbers. *)
Lemma coefficient_terms (pairs : list (num * num)) :
  Forall (fun p => finite p.1 /\ finite p.2) pairs ->
  exists num x : Qc,
    numerator_of pairs = Fin num
    /\ denominator_of pairs = Math_sqrt (Fin x)
    /\ Q2R num = cross (fun p => to_R p.1) (fun p => to_R p.2) pairs
    /\ Q2R x = cross (fun p => to_R p.1) (fun p => to_R p.1) pairs
               * cross (fun p => to_R p.2) (fun p => to_R p.2) pairs.
Proof.
  intros Hfin.
  destruct (numerator_real pairs Hfin) as [[num Hn] Hnum].
  destruct (cross_term_real pairs Hfin fst fst) as [Fx Hxx]; auto.
  destruct (cross_term_real pairs Hfin snd snd) as [Fy Hyy]; auto.
  cbv zeta in Fx, Fy, Hxx, Hyy.
  unfold denominator_of.
  set (X := sub (mul (of_nat (length pairs)) (reduce_sum (fun p => mul p.1 p.1) pairs))
                (mul (reduce_sum fst pairs) (reduce_sum fst pairs))) in *.
  set (Y := sub (mul (of_nat (length pairs)) (reduce_sum (fun p => mul p.2 p.2) pairs))
                (mul (reduce_sum snd pairs) (reduce_sum snd pairs))) in *.
  pose proof (to_R_mul X Y Fx Fy) as Hxy.
  destruct (proj2 (mul_finite X Y) (conj Fx Fy)) as [x Hx].
  exists num, x. rewrite Hn in Hnum. rewrite Hx in Hxy |- *. cbn [to_R] in *.
  split; [exact Hn|]. split; [reflexivity|]. split; [exact Hnum|].
  now rewrite Hxy, Hxx, Hyy.
Qed.

(** The entry exists as soon as the coefficient passes the threshold. *)
Lemma correlate_exists (data : list row) (col1 col2 : string) (num x : Qc) :
  let pairs := paired_values data col1 col2 in
  (5 <= length pairs)%nat ->
  numerator_of pairs = Fin num ->
  denominator_of pairs = Math_sqrt (Fin x) ->
  0 < Q2R x ->
  1 / 2 < Rabs (Q2R num / sqrt (Q2R x)) ->
  is_Some (correlate data col1 col2).
Proof.
  cbv zeta. intros Hlen Hn Hd Hx Hr. unfold correlate, pearson.
  destruct (Nat.ltb_spec (length (paired_values data col1 col2)) 5); [lia|].
  assert (Hneg : Qc_is_neg x = false).
  { apply not_true_is_false. intros E. apply Qc_is_neg_Rlt in E. lra. }
  assert (Hs : Math_sqrt (Fin x) = SFin 1%Qc x) by (simpl; now rewrite Hneg).
  destruct (Math_sqrt_real x _ _ Hs) as [Hx0 Hroot].
  rewrite Hd, Hn, Hs.
  assert (Hz : Qc_is_zero (1 * x)%Qc = false).
  { apply not_true_is_false. intros E. apply Qc_is_zero_eq in E.
    rewrite Qcmult_1_l in E. subst x. rewrite Q2R_zero in Hx. lra. }
  cbn [s_is_zero div_s]. rewrite Hz.
  set (c := (num / (1 * x))%Qc).
  assert (Hdiv : div_s (Fin num) (SFin 1%Qc x) = SFin c x)
    by (cbn [div_s]; now rewrite Hz).
  destruct (div_s_real num 1%Qc x c x Hx0 Hdiv) as (_ & _ & Hc).
  rewrite Hroot in Hc.
  assert (Hgt : s_gt (s_abs (SFin c x)) (ratio 5 10) = true).
  { cbn [s_abs]. apply s_gt_real; [exact Hx0|].
    rewrite s_abs_real, Hc, Q2R_ratio. lra. }
  rewrite Hgt. eauto.
Qed.

End LinearRelation.

(** Two columns of small integers in an exact linear relation
    [y = a x + b] with [a <> 0], over at least five paired rows in which
    [x] is not constant, are reported with the coefficient 1.00 or -1.00,
    as strong, and as positive or negative by the sign of [a]. *)
Theorem linear_relation_is_reported_as_perfect
  (data : list JS.row) (col1 col2 : string) (a b : Qc) :
  let pairs := Analysis.paired_values data col1 col2 in
  Correlations.small_integers pairs ->
  a <> 0%Qc ->
  5 <= length pairs ->
  Forall (fun p => JS.finite p.1
                   /\ p.2 = JS.add (JS.mul (JS.Fin a) p.1) (JS.Fin b)) pairs ->
  (exists p q, p ∈ pairs /\ q ∈ pairs /\ p.1 <> q.1) ->
  Analysis.correlate data col1 col2
  = Some {| Types.columns := (col1, col2);
            Types.correlation :=
              JS.Fin (Qc_of_Z (if JS.Qc_is_neg a then (-100) else 100)
                      / Qc_of_Z 100)%Qc;
            Types.strength := Types.strong;
            Types.direction :=
              if JS.Qc_is_neg a then Types.negative else Types.positive |}.
Proof.
  cbv zeta. intros _ Ha Hlen Hlin (p & q & Hp & Hq & Hpq).
  set (pairs := Analysis.paired_values data col1 col2) in *.
  set (u := fun p : JS.num * JS.num => RealSums.to_R p.1).
  set (v := fun p : JS.num * JS.num => RealSums.to_R p.2).
  assert (Hfin : Forall (fun p => JS.finite p.1 /\ JS.finite p.2) pairs).
  { eapply Forall_impl; [exact Hlin|]. intros [x y] [[x' Hx] Hy]. cbn [fst snd] in *.
    subst. split; eexists; reflexivity. }
  assert (Hv : Forall (fun p => v p = (Q2R a * u p + Q2R b)%R) pairs).
  { eapply Forall_impl; [exact Hlin|]. intros [x y] [[x' Hx] Hy]. cbn [fst snd] in *.
    subst. unfold u, v. cbn [fst snd].
    change (JS.add (JS.mul (JS.Fin a) (JS.Fin x')) (JS.Fin b))
      with (JS.Fin (a * x' + b)%Qc).
    cbn [RealSums.to_R]. now rewrite Q2R_Qcplus, Q2R_Qcmult. }
  destruct (cross_linear u v (Q2R a) (Q2R b) pairs Hv) as [Huv Hvv].
  assert (HD : (0 < RealSums.cross u u pairs)%R).
  { apply (cross_positive u pairs p q Hp Hq).
    rewrite Forall_forall in Hfin.
    destruct (Hfin p Hp) as [[x Hx] _], (Hfin q Hq) as [[y Hy] _].
    unfold u. rewrite Hx, Hy in *. cbn [RealSums.to_R].
    intros E. apply Hpq. f_equal. apply Qc_is_canon. now apply eqR_Qeq. }
  set (D := RealSums.cross u u pairs) in *.
  assert (HA : Q2R a <> 0%R).
  { intros E. apply Ha. apply Qc_is_canon. apply eqR_Qeq.
    rewrite E. symmetry. apply Q2R_zero. }
  destruct (coefficient_terms pairs Hfin) as (num & x & Hn & Hd & Hnum & Hx).
  fold u v in Hnum, Hx. fold D in Hx. rewrite Huv in Hnum. rewrite Hvv in Hx.
  clearbody D.
  assert (Haa : (0 < Q2R a * Q2R a)%R) by exact (Rsqr_pos_lt _ HA).
  assert (Hxp : (0 < Q2R x)%R).
  { rewrite Hx. apply Rmult_lt_0_compat; [exact HD|].
    apply Rmult_lt_0_compat; [exact Haa|exact HD]. }
  assert (Hroot : sqrt (Q2R x) = Rabs (Q2R a * D)).
  { rewrite <- sqrt_Rsqr_abs. f_equal. rewrite Hx. unfold Rsqr. ring. }
  assert (Hnz : (Q2R a * D <> 0)%R)
    by (apply Rmult_integral_contrapositive_currified; lra).
  assert (Hr : Rabs (Q2R num / sqrt (Q2R x)) = 1%R).
  { rewrite Hroot, Hnum. unfold Rdiv.
    rewrite Rabs_mult, Rabs_inv, Rabs_Rabsolu.
    apply Rinv_r. now apply Rabs_no_R0. }
  destruct (correlate_exists data col1 col2 num x Hlen Hn Hd Hxp) as [item Hitem];
    [fold pairs; rewrite Hr; lra|].
  rewrite Hitem. f_equal.
  pose proof (correlate_Some _ _ _ _ Hitem) as (Hcols & _).
  apply correlate_real in Hitem
    as (num' & x' & n & Hn' & Hd' & Hxp' & Hhalf & Hst & Hdir & Hcorr & Hround).
  fold pairs in Hn', Hd'.
  assert (num' = num) by congruence. subst num'.
  assert (x' = x).
  { rewrite Hd in Hd'. simpl in Hd'.
    assert (E1 : JS.Qc_is_neg x = false).
    { apply not_true_is_false. intros E. apply Qc_is_neg_Rlt in E. lra. }
    assert (E2 : JS.Qc_is_neg x' = false).
    { apply not_true_is_false. intros E. apply Qc_is_neg_Rlt in E. lra. }
    rewrite E1, E2 in Hd'. congruence. }
  subst x'. rewrite Hr in *.
  assert (Hn100 : n = 100%Z).
  { assert (n < 101)%Z by (apply lt_IZR; lra).
    assert (99 < n)%Z by (apply lt_IZR; lra). lia. }
  subst n.
  assert (Hsign : JS.Qc_is_neg num = JS.Qc_is_neg a).
  { destruct (JS.Qc_is_neg a) eqn:Ea.
    - apply Qc_is_neg_Rlt. apply Qc_is_neg_Rlt in Ea. nra.
    - apply not_true_is_false. intros E. apply Qc_is_neg_Rlt in E.
      assert (Q2R a < 0)%R by nra.
      apply Qc_is_neg_Rlt in H. congruence. }
  destruct item as [cols corr str dir]. cbn [Types.columns Types.correlation
    Types.strength Types.direction] in *.
  rewrite Hsign in Hcorr. subst cols corr.
  assert (Hstr : str = Types.strong) by (apply Hst; lra).
  subst str. f_equal.
  assert (Hpos : (0 < Q2R num / sqrt (Q2R x))%R <-> JS.Qc_is_neg a = false).
  { pose proof (sqrt_lt_R0 _ Hxp) as Hs.
    rewrite <- Hsign. split.
    - intros H. apply not_true_is_false. intros E. apply Qc_is_neg_Rlt in E.
      assert (Q2R num / sqrt (Q2R x) < 0)%R.
      { unfold Rdiv. apply Rinv_0_lt_compat in Hs. nra. }
      lra.
    - intros E.
      assert (Hge : (0 <= Q2R num)%R).
      { apply Rnot_lt_le. intros H. apply Qc_is_neg_Rlt in H. congruence. }
      assert (Q2R num <> 0)%R by (rewrite Hnum; exact Hnz).
      unfold Rdiv. apply Rinv_0_lt_compat in Hs. nra. }
  destruct (JS.Qc_is_neg a).
  - destruct dir; [|reflexivity]. exfalso.
    assert (Types.positive = Types.positive) as E by reflexivity.
    apply Hdir, Hpos in E. discriminate E.
  - apply Hdir, Hpos. reflexivity.
Qed.

Lemma linear_relation_is_reported_as_perfect_witness :
  Analysis.correlate UploadExamples.doubled "x" "y"
  = Some {| Types.columns := ("x"%string, "y"%string);
            Types.correlation := JS.Fin (Qc_of_Z 100 / Qc_of_Z 100)%Qc;
            Types.strength := Types.strong;
            Types.direction := Types.positive |}.
Proof.
  assert (E : Analysis.paired_values UploadExamples.doubled "x" "y"
              = map (fun x => (JS.of_Z x, JS.add (JS.mul (JS.Fin (Qc_of_Z 2)) (JS.of_Z x))
                                                 (JS.Fin (Qc_of_Z 1))))
                    [1; 2; 3; 4; 5]%Z) by by_evaluation.
  apply (linear_relation_is_reported_as_perfect UploadExamples.doubled "x" "y"
           (Qc_of_Z 2) (Qc_of_Z 1)).
  - exists [(1, 3); (2, 5); (3, 7); (4, 9); (5, 11)]%Z.
    split; [by_evaluation|]. split; vm_compute; reflexivity.
  - by_evaluation.
  - rewrite E. simpl. lia.
  - rewrite E. cbn [map].
    repeat constructor; cbn [fst snd]; eexists; reflexivity.
  - rewrite E. cbn [map].
    exists (JS.of_Z 1, JS.add (JS.mul (JS.Fin (Qc_of_Z 2)) (JS.of_Z 1)) (JS.Fin (Qc_of_Z 1))),
           (JS.of_Z 2, JS.add (JS.mul (JS.Fin (Qc_of_Z 2)) (JS.of_Z 2)) (JS.Fin (Qc_of_Z 1))).
    split; [left|]. split; [right; left|]. cbn [fst]. by_evaluation.
Defined.

Section CategoricalFacts.

Lemma forallb_false_Exists {A} (f : A -> bool) (l : list A) :
  forallb f l = false -> Exists (fun x => f x = false) l.
Proof.
  induction l as [|x l IH]; [discriminate|]. cbn [forallb].
  destruct (f x) eqn:E; [|intros _; now left].
  intros H. right. now apply IH.
Qed.

End CategoricalFacts.

(** A column is typed categorical only in a sample of six rows or more:
    its distinct values, at least one, are fewer than a fifth of the
    sample, so at most 19; and some sampled value is not numeric. *)
Theorem categorical_needs_six_rows
  (Date_parse : string -> JS.num) (Number_toString : JS.num -> string)
  (data : list JS.row) (colName : string) (col : Types.DataColumn) :
  JS.get (DataProcessing.detectColumnTypes Date_parse Number_toString data) colName
  = Some col ->
  Types.type col = Types.categorical ->
  exists u : nat,
    Types.uniqueValues col = Some u
    /\ 1 <= u <= 19
    /\ 5 * u < Nat.min 100 (length data)
    /\ 6 <= length data
    /\ Exists (fun v => DataProcessing.numeric_like v = false)
              (Spec.present_cells (take 100 data) colName).
Proof.
  intros Hget Ht. apply detect_get in Hget. subst col.
  unfold DataProcessing.column_info in *. cbv zeta in *.
  rewrite sample_values_present in *.
  set (values := Spec.present_cells (take 100 data) colName) in *.
  set (u := length (JS.Set_of values)) in *.
  set (s := Nat.min 100 (length data)) in *.
  destruct (decide (DataProcessing.infer_type Date_parse Number_toString values u s
                    = Types.numeric)) as [e|_];
    cbn [Types.type Types.uniqueValues] in *; [congruence|].
  rename Ht into Hty. exists u. split; [reflexivity|].
  unfold DataProcessing.infer_type in Hty.
  destruct (forallb DataProcessing.numeric_like values) eqn:Hnum; [discriminate Hty|].
  destruct (forallb DataProcessing.boolean_like values); [discriminate Hty|].
  destruct (forallb (DataProcessing.date_like Date_parse Number_toString) values);
    [discriminate Hty|].
  destruct (JS.lt (JS.of_nat u) (JS.mul (JS.of_nat s) (JS.Fin (JS.ratio 2 10)))
            && (0 <? length values)%nat) eqn:Hc; [|discriminate Hty].
  apply andb_true_iff in Hc as [Hlt Hlen]. apply Nat.ltb_lt in Hlen.
  assert (H1 : 1 <= u).
  { unfold u. rewrite Set_of_size. apply remove_dups_length_pos.
    intros E. rewrite E in Hlen. simpl in Hlen. lia. }
  assert (H5 : 5 * u < s).
  { change (JS.lt (JS.of_nat u) (JS.mul (JS.of_nat s) (JS.Fin (JS.ratio 2 10))))
      with (JS.Qcltb (Qc_of_Z (Z.of_nat u))
                     (Qc_of_Z (Z.of_nat s) * JS.ratio 2 10)%Qc) in Hlt.
    apply Qcltb_Rlt in Hlt.
    rewrite Q2R_Qcmult, !Q2R_of_Z, Q2R_ratio in Hlt.
    assert (Hz : (5 * Z.of_nat u < Z.of_nat s)%Z).
    { apply lt_IZR. rewrite mult_IZR. lra. }
    lia. }
  assert (Hs : s <= 100) by (unfold s; lia).
  assert (Hd : s <= length data) by (unfold s; lia).
  split; [lia|]. split; [exact H5|]. split; [lia|].
  now apply forallb_false_Exists.
Qed.

Lemma categorical_needs_six_rows_witness :
  Types.type (DataProcessing.column_info Runtime.iso_date_parse
                Runtime.decimal_toString UploadExamples.one_city 6 "city")
  = Types.categorical
  /\ exists u : nat,
       Types.uniqueValues
         (DataProcessing.column_info Runtime.iso_date_parse
            Runtime.decimal_toString UploadExamples.one_city 6 "city") = Some u
       /\ 1 <= u <= 19.
Proof.
  assert (E : JS.get (Examples.infer UploadExamples.one_city) "city"
              = Some (DataProcessing.column_info Runtime.iso_date_parse
                        Runtime.decimal_toString UploadExamples.one_city 6 "city"))
    by reflexivity.
  assert (Ht : Types.type (DataProcessing.column_info Runtime.iso_date_parse
                             Runtime.decimal_toString UploadExamples.one_city 6 "city")
               = Types.categorical) by (vm_compute; reflexivity).
  split; [exact Ht|].
  destruct (categorical_needs_six_rows _ _ _ _ _ E Ht) as (u & Hu & Hrange & _).
  exists u. split; [exact Hu|exact Hrange].
Defined.

(* ================================================================== *)
(** ** Properties of the insights *)
(* ================================================================== *)

Section ObjectFacts.
Import JS Objects.

Lemma insert_indexed_perm {A} (e : N * A) (l : list (N * A)) :
  insert_indexed e l ≡ₚ e :: l.
Proof.
  induction l as [|e' l IH]; [reflexivity|]. cbn [insert_indexed].
  destruct (e.1 <? e'.1)%N; [reflexivity|]. rewrite IH. apply Permutation_swap.
Qed.

Lemma sort_indexed_perm {A} (l : list (N * A)) :
  foldr insert_indexed [] l ≡ₚ l.
Proof.
  induction l as [|e l IH]; [reflexivity|]. cbn [foldr].
  rewrite insert_indexed_perm. now rewrite IH.
Qed.

(** The listing order rearranges the entries, nothing more. *)
Lemma own_property_order_perm {V} (o : object V) : own_property_order o ≡ₚ o.
Proof.
  unfold own_property_order, object in *. rewrite sort_indexed_perm.
  induction o as [|kv o IH]; [reflexivity|].
  cbn [omap list_omap].
  destruct (array_index kv.1) as [i|] eqn:E; cbn [fmap option_fmap option_map].
  - rewrite (filter_cons_False (fun kv => array_index kv.1 = None))
      by (rewrite E; discriminate).
    rewrite fmap_cons. cbn [snd app]. now rewrite IH.
  - rewrite (filter_cons_True (fun kv => array_index kv.1 = None)) by exact E.
    rewrite <- Permutation_middle. now rewrite IH.
Qed.

Lemma own_property_order_keys {V} (o : object V) (k : string) :
  k ∈ Object_keys (own_property_order o) <-> k ∈ Object_keys o.
Proof. unfold Object_keys. now rewrite own_property_order_perm. Qed.

Lemma own_property_order_nil {V} : own_property_order (@nil (string * V)) = [].
Proof. reflexivity. Qed.

End ObjectFacts.

Section InsightFacts.
Import JS Types Analysis Objects Insights.

Lemma omap_all_None {A B} (f : A -> option B) (l : list A) :
  (forall x, f x = None) -> omap f l = [].
Proof.
  intros H. induction l as [|x l IH]; [reflexivity|].
  cbn [omap list_omap]. now rewrite H.
Qed.

Lemma flat_map_all_nil {A B} (f : A -> list B) (l : list A) :
  (forall x, f x = []) -> flat_map f l = [].
Proof.
  intros H. induction l as [|x l IH]; [reflexivity|].
  cbn [flat_map]. now rewrite H, IH.
Qed.

Lemma paired_values_length (data : list row) (col1 col2 : string) :
  length (paired_values data col1 col2) <= length data.
Proof. unfold paired_values. rewrite length_map. apply length_filter. Qed.

Lemma correlate_few_rows (data : list row) (col1 col2 : string) :
  length data < 5 -> correlate data col1 col2 = None.
Proof.
  intros H. unfold correlate.
  pose proof (paired_values_length data col1 col2).
  destruct (Nat.ltb_spec (length (paired_values data col1 col2)) 5); [reflexivity|lia].
Qed.

Lemma findCorrelations_few_rows (data : list row) (columns : object DataColumn) :
  length data < 5 -> findCorrelations data columns = [].
Proof.
  intros H. unfold findCorrelations. destruct data as [|r data]; [reflexivity|].
  rewrite omap_all_None; [reflexivity|]. intros p. now apply correlate_few_rows.
Qed.

Lemma column_outliers_few_rows (data : list row) (column : DataColumn) :
  length data < 5 -> column_outliers data column = None.
Proof.
  intros H. unfold column_outliers.
  pose proof (column_values_length data (name column)).
  destruct (Nat.ltb_spec (length (column_values data (name column))) 5);
    [reflexivity|lia].
Qed.

Lemma foldl_unchanged {A B} (f : A -> B -> A) (a : A) (l : list B) :
  (forall a x, f a x = a) -> foldl f a l = a.
Proof.
  intros H. revert a. induction l as [|x l IH]; intros a; [reflexivity|].
  cbn [foldl]. now rewrite H.
Qed.

Lemma identifyOutliers_few_rows (data : list row) (columns : object DataColumn) :
  length data < 5 -> identifyOutliers data columns = ∅.
Proof.
  intros H. unfold identifyOutliers. apply foldl_unchanged.
  intros m col. now rewrite column_outliers_few_rows.
Qed.

Lemma outlier_columns_few_rows (data : list row) (columns : object DataColumn) :
  length data < 5 -> outlier_columns data columns = [].
Proof.
  intros H. unfold outlier_columns. rewrite foldl_unchanged; [reflexivity|].
  intros m col. now rewrite column_outliers_few_rows.
Qed.

(** The keys stored by the loop of [identifyOutliers]. *)
Lemma outlier_loop_keys (data : list row) (cols : list DataColumn)
  (init : object OutlierInfo) (k : string) :
  k ∈ Object_keys
        (foldl (fun o column =>
                  match column_outliers data column with
                  | Some info => set o (name column) info
                  | None => o
                  end) init cols)
  <-> k ∈ Object_keys init
      \/ exists col, col ∈ cols /\ name col = k /\ is_Some (column_outliers data col).
Proof.
  revert init. induction cols as [|col cols IH]; intros init.
  - cbn [foldl]. split; [auto|]. intros [H|(col & Hin & _)]; [exact H|inversion Hin].
  - cbn [foldl]. rewrite IH. clear IH.
    destruct (column_outliers data col) as [info|] eqn:E.
    + rewrite keys_set. unfold Set_add.
      split.
      * intros [H|(c & Hin & Hn & Hs)].
        -- destruct (decide (name col ∈ Object_keys init)); [auto|].
           apply elem_of_app in H as [H|H]; [auto|].
           apply list_elem_of_singleton in H. right. exists col.
           split; [left|]. split; [congruence|]. rewrite E. eauto.
        -- right. exists c. split; [now right|]. auto.
      * intros [H|(c & Hin & Hn & Hs)].
        -- left. destruct (decide (name col ∈ Object_keys init)); [exact H|].
           apply elem_of_app. auto.
        -- apply elem_of_cons in Hin as [->|Hin].
           ++ left. destruct (decide (name col ∈ Object_keys init)); [congruence|].
              apply elem_of_app. right. rewrite Hn. apply list_elem_of_singleton.
              reflexivity.
           ++ right. exists c. auto.
    + split.
      * intros [H|(c & Hin & Hn & Hs)]; [auto|].
        right. exists c. split; [now right|]. auto.
      * intros [H|(c & Hin & Hn & Hs)]; [auto|].
        apply elem_of_cons in Hin as [->|Hin].
        -- rewrite E in Hs. destruct Hs as [? Hs]. discriminate Hs.
        -- right. exists c. auto.
Qed.

(** [Object.keys] of the outliers lists exactly the columns that have an
    entry. *)
Lemma outlier_columns_lookup (data : list row) (columns : object DataColumn)
  (k : string) :
  k ∈ outlier_columns data columns
  <-> is_Some (identifyOutliers data columns !! k).
Proof.
  unfold outlier_columns. rewrite own_property_order_keys, outlier_loop_keys.
  split.
  - intros [H|(col & Hin & Hn & [info Hs])]; [inversion H|].
    exists info. apply identifyOutliers_lookup. eauto.
  - intros [info H]. apply identifyOutliers_lookup in H as (col & Hin & Hn & Hs).
    right. exists col. split; [exact Hin|]. split; [exact Hn|]. rewrite Hs. eauto.
Qed.

Lemma outlier_columns_nil (data : list row) (columns : object DataColumn) :
  outlier_columns data columns = [] <-> identifyOutliers data columns = ∅.
Proof.
  split.
  - intros H. apply map_empty. intros k.
    destruct (identifyOutliers data columns !! k) as [info|] eqn:E; [|reflexivity].
    assert (Hk : k ∈ outlier_columns data columns)
      by (apply outlier_columns_lookup; eauto).
    rewrite H in Hk. inversion Hk.
  - intros H. destruct (outlier_columns data columns) as [|k ks] eqn:E; [reflexivity|].
    assert (Hk : k ∈ outlier_columns data columns) by (rewrite E; left).
    apply outlier_columns_lookup in Hk as [info Hk].
    rewrite H, lookup_empty in Hk. discriminate Hk.
Qed.

(** The record of the panel is the record of [generateInsights]. *)
Lemma columnsRecord_fromEntries (cols : list DataColumn) :
  columnsRecord cols = columns_record cols.
Proof.
  unfold columnsRecord, columns_record, Object_fromEntries. f_equal.
  generalize (@nil (string * DataColumn)).
  induction cols as [|col cols IH]; intros o; [reflexivity|].
  cbn [foldl map]. apply IH.
Qed.

Section Loops.
Variable Date_parse : string -> num.

Lemma time_trends_loops (data : list row) (ds ns : list string) :
  time_trends Date_parse data ds ns
  = flat_map (fun dateCol =>
                omap (fun numCol =>
                        (fun t => {| dateColumn := dateCol; valueColumn := numCol;
                                     trend := t |})
                          <$> detectTimeTrends Date_parse data dateCol numCol) ns) ds.
Proof.
  unfold time_trends. destruct ds as [|d ds]; [reflexivity|].
  destruct ns as [|n ns]; [|reflexivity].
  cbn [length Nat.ltb Nat.leb andb]. symmetry. now apply flat_map_all_nil.
Qed.

Lemma time_trends_few_rows (data : list row) (ds ns : list string) :
  length data < 5 -> time_trends Date_parse data ds ns = [].
Proof.
  intros H. rewrite time_trends_loops. apply flat_map_all_nil. intros d.
  apply omap_all_None. intros n. unfold detectTimeTrends.
  destruct (Nat.ltb_spec (length data) 5); [reflexivity|lia].
Qed.

Lemma time_trends_enough_rows (data : list row) (ds ns : list string) :
  5 <= length data ->
  map (fun t => (dateColumn t, valueColumn t)) (time_trends Date_parse data ds ns)
  = list_prod ds ns.
Proof.
  intros H. rewrite time_trends_loops.
  induction ds as [|d ds IH]; [reflexivity|].
  cbn [flat_map list_prod]. rewrite map_app, IH. f_equal.
  clear IH. induction ns as [|n ns IH]; [reflexivity|].
  cbn [omap list_omap map].
  destruct (detectTimeTrends_enough_rows Date_parse data d n H) as [t ->].
  cbn. now rewrite IH.
Qed.

Lemma time_trends_elem (data : list row) (ds ns : list string) (t : TimeTrend) :
  t ∈ time_trends Date_parse data ds ns ->
  detectTimeTrends Date_parse data (dateColumn t) (valueColumn t) = Some (trend t).
Proof.
  rewrite time_trends_loops. intros H.
  apply list_elem_of_In, in_flat_map in H as (d & _ & H).
  apply list_elem_of_In, list_elem_of_omap in H as (n & _ & H).
  destruct (detectTimeTrends Date_parse data d n) as [t'|] eqn:E; [|discriminate H].
  injection H as <-. exact E.
Qed.

End Loops.

End InsightFacts.

Section RecommendationFacts.
Import JS Types Analysis Objects Insights.

Lemma find_is_Some {A} (p : A -> bool) (l : list A) :
  is_Some (find p l) <-> exists x, x ∈ l /\ p x = true.
Proof.
  split.
  - intros [x H]. apply find_some in H as [Hin Hp].
    exists x. split; [now apply list_elem_of_In|exact Hp].
  - intros (x & Hin & Hp).
    destruct (find p l) as [y|] eqn:E; [eauto|].
    apply list_elem_of_In in Hin.
    pose proof (find_none p l E x Hin) as Hn. congruence.
Qed.

Lemma correlation_recommendation_types (cs : list Correlation) :
  map rec_type (correlation_recommendation cs)
  = if decide (cs = []) then [] else [correlation_type].
Proof. destruct cs; reflexivity. Qed.

Lemma trend_recommendations_types (percentChange_text : num -> string)
  (ts : list TimeTrend) :
  map rec_type (trend_recommendations percentChange_text ts)
  = match find significant ts with Some _ => [trend_type] | None => [] end
    ++ match find (fun t => seasonality (trend t)) ts with
       | Some _ => [seasonality_type]
       | None => []
       end.
Proof.
  unfold trend_recommendations. destruct ts as [|t ts]; [reflexivity|].
  cbn [length Nat.ltb Nat.leb]. rewrite map_app.
  destruct (find significant (t :: ts)),
           (find (fun t => seasonality (trend t)) (t :: ts)); reflexivity.
Qed.

Lemma outliers_recommendation_types (ks : list string) :
  map rec_type (outliers_recommendation ks)
  = if decide (ks = []) then [] else [outliers_type].
Proof. destruct ks; reflexivity. Qed.

End RecommendationFacts.

(** With fewer than five rows [generateInsights] reports nothing at all:
    no trend, no correlation, no outlier and no recommendation. *)
Theorem generateInsights_few_rows
  (Date_parse : string -> JS.num) (percentChange_text : JS.num -> string)
  (data : list JS.row) (datasetInfo : option Insights.DatasetInfo) :
  length data < 5 ->
  Insights.generateInsights Date_parse percentChange_text data datasetInfo
  = Insights.no_insight.
Proof.
  intros H. unfold Insights.generateInsights.
  destruct data as [|r data]; [reflexivity|].
  destruct datasetInfo as [info|]; [|reflexivity].
  cbv zeta.
  rewrite findCorrelations_few_rows, time_trends_few_rows,
    identifyOutliers_few_rows, outlier_columns_few_rows by exact H.
  reflexivity.
Qed.

(** [generateInsights] reports a trend for every pair of a date column
    and a numeric column, in the order of the two loops, as soon as there
    are five rows, and none with fewer rows; every entry carries the
    result of [detectTimeTrends] for its pair. *)
Theorem generateInsights_time_trends
  (Date_parse : string -> JS.num) (percentChange_text : JS.num -> string)
  (data : list JS.row) (info : Insights.DatasetInfo) :
  let found :=
    Insights.timeTrends
      (Insights.generateInsights Date_parse percentChange_text data (Some info)) in
  map (fun t => (Insights.dateColumn t, Insights.valueColumn t)) found
  = (if (length data <? 5)%nat then []
     else list_prod (Insights.names_of_type Types.datetime (Insights.columns info))
                    (Insights.names_of_type Types.numeric (Insights.columns info)))
  /\ Forall (fun t =>
               Analysis.detectTimeTrends Date_parse data
                 (Insights.dateColumn t) (Insights.valueColumn t)
               = Some (Insights.trend t)) found.
Proof.
  cbv zeta. destruct (Nat.ltb_spec (length data) 5) as [H|H].
  - destruct data as [|r data]; [split; [reflexivity|constructor]|].
    cbn [Insights.generateInsights Insights.timeTrends].
    rewrite time_trends_few_rows by exact H. split; [reflexivity|constructor].
  - destruct data as [|r data]; [simpl in H; lia|].
    cbn [Insights.generateInsights Insights.timeTrends]. split.
    + now apply time_trends_enough_rows.
    + apply Forall_forall. intros t Ht. eapply time_trends_elem. exact Ht.
Qed.

(** The recommendations of [generateInsights] are of at most four types,
    each at most once and in the order correlation, trend, seasonality,
    outliers.  There is one for the correlations exactly when a
    correlation was found, one for the trend exactly when some trend
    changes by more than 20 percent, one for the seasonality exactly when
    some trend is seasonal, and one for the outliers exactly when some
    column has an entry. *)
Theorem generateInsights_recommendations
  (Date_parse : string -> JS.num) (percentChange_text : JS.num -> string)
  (data : list JS.row) (datasetInfo : option Insights.DatasetInfo) :
  let found := Insights.generateInsights Date_parse percentChange_text data datasetInfo in
  let types := map Insights.rec_type (Insights.recommendations found) in
  types `sublist_of` [Insights.correlation_type; Insights.trend_type;
                      Insights.seasonality_type; Insights.outliers_type]
  /\ (Insights.correlation_type ∈ types <-> Insights.correlations found <> [])
  /\ (Insights.trend_type ∈ types
      <-> exists t, t ∈ Insights.timeTrends found /\ Insights.significant t = true)
  /\ (Insights.seasonality_type ∈ types
      <-> exists t, t ∈ Insights.timeTrends found
                    /\ Types.seasonality (Insights.trend t) = true)
  /\ (Insights.outliers_type ∈ types <-> Insights.outliers found <> ∅).
Proof.
  cbv zeta.
  assert (Hnone : forall t : Insights.RecommendationType,
             t ∈ @nil Insights.RecommendationType <-> False)
    by (intros t; split; [inversion 1|tauto]).
  assert (Hempty :
    map Insights.rec_type (Insights.recommendations Insights.no_insight) = []
    /\ Insights.correlations Insights.no_insight = []
    /\ Insights.timeTrends Insights.no_insight = []
    /\ Insights.outliers Insights.no_insight = ∅) by (repeat split).
  assert (Hno : forall P : Insights.TimeTrend -> Prop,
             (exists t, t ∈ @nil Insights.TimeTrend /\ P t) <-> False).
  { intros P. split; [intros (t & Ht & _); inversion Ht|tauto]. }
  unfold Insights.generateInsights.
  destruct data as [|r data];
    [|destruct datasetInfo as [info|]];
    try (destruct Hempty as (-> & -> & -> & ->); rewrite !Hnone, !Hno;
         split; [apply sublist_nil_l|]; repeat split; tauto).
  cbv zeta. cbn [Insights.recommendations Insights.correlations Insights.timeTrends
                 Insights.outliers].
  set (rows := r :: data).
  set (record := Insights.columns_record (Insights.columns info)).
  set (cs := Analysis.findCorrelations rows record).
  set (ts := Insights.time_trends Date_parse rows _ _).
  set (ks := Insights.outlier_columns rows record).
  rewrite !map_app, correlation_recommendation_types, trend_recommendations_types,
    outliers_recommendation_types.
  rewrite <- (find_is_Some Insights.significant ts).
  rewrite <- (find_is_Some (fun t => Types.seasonality (Insights.trend t)) ts).
  assert (Hks : Analysis.identifyOutliers rows record <> ∅ <-> ks <> [])
    by (unfold ks; now rewrite outlier_columns_nil).
  rewrite Hks. clear Hks. clearbody cs ts ks.
  assert (Hsome : forall (A : Type) (x : A), is_Some (Some x) <-> True)
    by (intros; split; eauto).
  assert (Hnot : forall A : Type, is_Some (@None A) <-> False)
    by (intros; split; [intros [? ?]; discriminate|tauto]).
  destruct (decide (cs = [])) as [->|Hcs],
           (find Insights.significant ts) as [t1|],
           (find (fun t => Types.seasonality (Insights.trend t)) ts) as [t2|],
           (decide (ks = [])) as [->|Hks];
    cbn [app]; rewrite ?Hsome, ?Hnot;
    (split; [solve [repeat first [apply sublist_nil_l | apply sublist_skip
                                 | apply sublist_cons]] |]);
    repeat split; intros; try tauto; try congruence;
    try (repeat first [apply list_elem_of_here | apply list_elem_of_further]);
    try (exfalso;
         repeat match goal with
                | H : _ ∈ _ :: _ |- _ => apply elem_of_cons in H as [H|H]; [discriminate H|]
                | H : _ ∈ [] |- _ => inversion H
                end).
Qed.

Section RecordFacts.
Import JS Types Analysis Objects Insights.

Lemma foldl_set_entries {V} (P : string -> V -> Prop) (entries : list (string * V))
  (o : object V) :
  Forall (fun kv => P kv.1 kv.2) o ->
  Forall (fun kv => P kv.1 kv.2) entries ->
  Forall (fun kv => P kv.1 kv.2) (foldl (fun o kv => set o kv.1 kv.2) o entries).
Proof.
  intros Ho He. revert o Ho.
  induction He as [|kv entries Hkv He IH]; intros o Ho; [exact Ho|].
  cbn [foldl]. apply IH. now apply values_set.
Qed.

(** Every entry of the record of the columns is one of the columns, under
    its own name. *)
Lemma columns_record_entries (cols : list DataColumn) :
  Forall (fun kv => kv.2 ∈ cols /\ name kv.2 = kv.1) (columns_record cols).
Proof.
  unfold columns_record, Object_fromEntries.
  rewrite own_property_order_perm.
  apply (foldl_set_entries (fun k v => v ∈ cols /\ name v = k)); [constructor|].
  apply Forall_forall. intros kv Hkv.
  apply list_elem_of_fmap in Hkv as (col & -> & Hcol). auto.
Qed.

Lemma numeric_columns_of_record (cols : list DataColumn) (col : DataColumn) :
  col ∈ numeric_columns (columns_record cols) ->
  name col ∈ names_of_type numeric cols.
Proof.
  unfold numeric_columns, names_of_type, Object_values. intros H.
  apply list_elem_of_filter in H as [Ht H].
  apply list_elem_of_fmap in H as (kv & -> & Hkv).
  pose proof (columns_record_entries cols) as Hall.
  rewrite Forall_forall in Hall. destruct (Hall kv Hkv) as [Hin _].
  apply list_elem_of_fmap. exists kv.2. split; [reflexivity|].
  apply list_elem_of_filter. auto.
Qed.

Lemma no_numeric_column (cols : list DataColumn) :
  names_of_type numeric cols = [] -> numeric_columns (columns_record cols) = [].
Proof.
  intros H. destruct (numeric_columns (columns_record cols)) as [|col l] eqn:E;
    [reflexivity|].
  assert (Hin : col ∈ numeric_columns (columns_record cols)) by (rewrite E; left).
  apply numeric_columns_of_record in Hin. rewrite H in Hin. inversion Hin.
Qed.

End RecordFacts.

(** Without a numeric column [generateInsights] reports nothing: there is
    no pair to correlate, no column to search for outliers and no value
    column for a trend. *)
Theorem generateInsights_no_numeric_column
  (Date_parse : string -> JS.num) (percentChange_text : JS.num -> string)
  (data : list JS.row) (info : Insights.DatasetInfo) :
  Insights.names_of_type Types.numeric (Insights.columns info) = [] ->
  Insights.generateInsights Date_parse percentChange_text data (Some info)
  = Insights.no_insight.
Proof.
  intros H. unfold Insights.generateInsights.
  destruct data as [|r data]; [reflexivity|]. cbv zeta.
  unfold Analysis.findCorrelations, Analysis.identifyOutliers,
    Insights.outlier_columns.
  rewrite (no_numeric_column _ H), H.
  unfold Insights.time_trends. cbn [length Nat.ltb Nat.leb].
  rewrite andb_false_r. reflexivity.
Qed.

(** The first recommendation names the pair of columns with the greatest
    reported coefficient, and calls their correlation strong whatever the
    strength of the entry. *)
Theorem strongest_correlation_is_recommended
  (Date_parse : string -> JS.num) (percentChange_text : JS.num -> string)
  (data : list JS.row) (info : Insights.DatasetInfo)
  (first : Types.Correlation) (rest : list Types.Correlation) :
  let found :=
    Insights.generateInsights Date_parse percentChange_text data (Some info) in
  Insights.correlations found = first :: rest ->
  head (Insights.recommendations found)
  = Some {| Insights.rec_type := Insights.correlation_type;
            Insights.message :=
              ("Consider creating a scatter plot to visualize the strong correlation between "
               +:+ (Types.columns first).1 +:+ " and "
               +:+ (Types.columns first).2 +:+ ".")%string |}
  /\ Forall (fun item => (Spec.reported_strength item
                          <= Spec.reported_strength first)%Qc) rest.
Proof.
  cbv zeta. intros H. split.
  - unfold Insights.generateInsights in *.
    destruct data as [|r data]; [discriminate H|].
    cbv zeta in *. cbn [Insights.correlations Insights.recommendations] in *.
    rewrite H. reflexivity.
  - assert (Hd : Spec.descending Spec.reported_strength (first :: rest)).
    { rewrite <- H. unfold Insights.generateInsights.
      destruct data as [|r data]; [discriminate H|].
      cbv zeta. cbn [Insights.correlations]. apply findCorrelations_descending. }
    apply Forall_forall. intros item Hin.
    apply list_elem_of_lookup in Hin as [j Hj].
    apply (Hd 0 (S j) first item); [lia|reflexivity|exact Hj].
Qed.

(** The panel computes the trends, the correlations and the outliers that
    [generateInsights] computes for the same columns, also for an empty
    dataset, where [generateInsights] returns early. *)
Theorem panel_agrees_with_generateInsights
  (Date_parse : string -> JS.num) (percentChange_text : JS.num -> string)
  (count_text toLocaleString : nat -> string)
  (data : list JS.row) (info : Insights.DatasetInfo) :
  let service :=
    Insights.generateInsights Date_parse percentChange_text data (Some info) in
  let panel :=
    Insights.generateAIInsights Date_parse count_text toLocaleString data
                                (Insights.columns info) in
  Insights.timeTrends panel = Insights.timeTrends service
  /\ Insights.correlations panel = Insights.correlations service
  /\ Insights.outliers panel = Insights.outliers service.
Proof.
  cbv zeta. unfold Insights.generateAIInsights.
  cbn [Insights.timeTrends Insights.correlations Insights.outliers].
  rewrite columnsRecord_fromEntries.
  destruct data as [|r data]; [|repeat split].
  cbn [Insights.generateInsights Insights.no_insight Insights.timeTrends
       Insights.correlations Insights.outliers].
  assert (H : @length JS.row [] < 5) by (simpl; lia).
  rewrite time_trends_few_rows, identifyOutliers_few_rows by exact H.
  repeat split.
Qed.

(* ================================================================== *)
(** ** Properties of the upload *)
(* ================================================================== *)

Section UploadFacts.
Import JS Types DataProcessing Insights Upload.
Local Open Scope string_scope.


(** A name that ends with [.tsv] ends with none of the three supported
    extensions. *)
Lemma tsv_is_no_supported_extension (name : string) :
  endsWith name ".tsv" = true ->
  endsWith name ".csv" = false
  /\ endsWith name ".xlsx" = false
  /\ endsWith name ".xls" = false.
Proof.
  unfold endsWith.
  change (reverse (list_ascii_of_string ".tsv")) with ["v"; "s"; "t"; "."]%char.
  change (reverse (list_ascii_of_string ".csv")) with ["v"; "s"; "c"; "."]%char.
  change (reverse (list_ascii_of_string ".xlsx")) with ["x"; "s"; "l"; "x"; "."]%char.
  change (reverse (list_ascii_of_string ".xls")) with ["s"; "l"; "x"; "."]%char.
  generalize (reverse (list_ascii_of_string name)). intros l H.
  destruct l as [|a l]; [discriminate H|]. cbn [starts_with] in *.
  destruct (decide ("v"%char = a)) as [<-|]; [|discriminate H].
  destruct l as [|b l]; [discriminate H|].
  destruct (decide ("s"%char = b)) as [<-|]; [|discriminate H].
  destruct l as [|c l]; [discriminate H|].
  destruct (decide ("t"%char = c)) as [<-|]; [|discriminate H].
  repeat split; reflexivity.
Qed.

End UploadFacts.


(** The drop zone lists [.tsv] among the extensions it takes, but
    [processFile] rejects every file whose name ends with [.tsv] as
    unsupported without parsing it: the upload ends in the error status
    with that message in the store, not loading, and the dataset of the
    store is the one it held before. *)
Theorem tsv_file_is_rejected
  (Date_parse : string -> JS.num) (Number_toString : JS.num -> string)
  (parseCSV parseExcel : Upload.File -> Upload.settled (list JS.row))
  (DataInsight ChartConfig : Type)
  (file : Upload.File) (others : list Upload.File)
  (state : Upload.DataState DataInsight ChartConfig) :
  Upload.endsWith (Upload.file_name file) ".tsv" = true ->
  ".tsv"%string ∈ Upload.accepted_extensions
  /\ Upload.processFile Date_parse Number_toString parseCSV parseExcel file
     = Upload.rejected Upload.unsupported
  /\ let final :=
       Upload.after_upload Date_parse Number_toString parseCSV parseExcel
                           DataInsight ChartConfig (file :: others) state in
     Upload.error _ _ final
     = Some "Unsupported file format. Please upload a CSV or Excel file."%string
     /\ Upload.isLoading _ _ final = false
     /\ Upload.rawData _ _ final = Upload.rawData _ _ state
     /\ Upload.datasetInfo _ _ final = Upload.datasetInfo _ _ state
     /\ (Upload.handleUpload Date_parse Number_toString parseCSV parseExcel
                             DataInsight ChartConfig (file :: others) Upload.idle).2
        = Upload.failure.
Proof.
  intros H. apply tsv_is_no_supported_extension in H as (Hcsv & Hxlsx & Hxls).
  split; [unfold Upload.accepted_extensions; repeat constructor|].
  assert (Hp : Upload.processFile Date_parse Number_toString parseCSV parseExcel file
               = Upload.rejected Upload.unsupported).
  { unfold Upload.processFile. now rewrite Hcsv, Hxlsx, Hxls. }
  split; [exact Hp|].
  cbv zeta. unfold Upload.after_upload, Upload.handleUpload. rewrite Hp.
  repeat split.
Qed.

(** The store after an upload: it is not loading, and the insights and
    the recommended charts are untouched.  When [processFile] resolves,
    the store holds its rows and its description and no error; when it
    rejects, the store holds the message of the error (a fixed text for a
    value that is not an [Error]) and the dataset it held before.  With
    no file selected nothing is dispatched. *)
Theorem upload_updates_the_store
  (Date_parse : string -> JS.num) (Number_toString : JS.num -> string)
  (parseCSV parseExcel : Upload.File -> Upload.settled (list JS.row))
  (DataInsight ChartConfig : Type)
  (file : Upload.File) (others : list Upload.File)
  (state : Upload.DataState DataInsight ChartConfig) :
  let after files :=
    Upload.after_upload Date_parse Number_toString parseCSV parseExcel
                        DataInsight ChartConfig files state in
  let final := after (file :: others) in
  after [] = state
  /\ Upload.isLoading _ _ final = false
  /\ Upload.insights _ _ final = Upload.insights _ _ state
  /\ Upload.recommendedCharts _ _ final = Upload.recommendedCharts _ _ state
  /\ match Upload.processFile Date_parse Number_toString parseCSV parseExcel file with
     | Upload.resolved (data, info) =>
         Upload.rawData _ _ final = Some data
         /\ Upload.datasetInfo _ _ final = Some info
         /\ Upload.error _ _ final = None
     | Upload.rejected e =>
         Upload.rawData _ _ final = Upload.rawData _ _ state
         /\ Upload.datasetInfo _ _ final = Upload.datasetInfo _ _ state
         /\ Upload.error _ _ final = Some (Upload.error_message e)
     end.
Proof.
  cbv zeta. unfold Upload.after_upload, Upload.handleUpload.
  destruct (Upload.processFile Date_parse Number_toString parseCSV parseExcel file)
    as [[data info]|e]; repeat split.
Qed.

Section PipelineFacts.
Import JS Types DataProcessing Analysis Objects Insights Upload.

Lemma set_fresh {V} (o : object V) (k : string) (v : V) :
  k ∉ Object_keys o -> set o k v = o ++ [(k, v)].
Proof.
  unfold Object_keys. induction o as [|[k0 v0] o IH]; intros Hk; [reflexivity|].
  rewrite fmap_cons in Hk. cbn [fst] in Hk.
  apply not_elem_of_cons in Hk as [Hne Hk].
  cbn [set]. rewrite decide_False by congruence. now rewrite IH.
Qed.

Lemma foldl_set_fresh {V} (entries o : object V) :
  NoDup (Object_keys o ++ Object_keys entries) ->
  foldl (fun o kv => set o kv.1 kv.2) o entries = o ++ entries.
Proof.
  unfold Object_keys. revert o.
  induction entries as [|[k v] entries IH]; intros o Hnd.
  - now rewrite app_nil_r.
  - cbn [foldl fst snd]. rewrite fmap_cons in Hnd. cbn [fst] in Hnd.
    assert (Hk : k ∉ Object_keys o).
    { apply NoDup_app in Hnd as (_ & Hd & _). intros Hin.
      apply (Hd k Hin). left. }
    rewrite set_fresh by exact Hk.
    rewrite IH.
    + now rewrite <- app_assoc.
    + rewrite fmap_app, <- app_assoc. exact Hnd.
Qed.

Lemma omap_None_on {A B} (f : A -> option B) (l : list A) :
  Forall (fun x => f x = None) l -> omap f l = [].
Proof.
  induction 1 as [|x l Hx Hl IH]; [reflexivity|].
  cbn [omap list_omap]. now rewrite Hx.
Qed.

Lemma filter_all {A} (P : A -> Prop) `{forall x, Decision (P x)} (l : list A) :
  Forall P l -> filter P l = l.
Proof.
  induction 1 as [|x l Hx Hl IH]; [reflexivity|].
  rewrite filter_cons_True by exact Hx. now rewrite IH.
Qed.

(** An object none of whose keys is an array index lists its properties
    in the order of their creation. *)
Lemma own_property_order_names {V} (o : object V) :
  Forall (fun k => array_index k = None) (Object_keys o) ->
  own_property_order o = o.
Proof.
  unfold own_property_order, Object_keys, object. intros H.
  apply Forall_fmap in H.
  rewrite omap_None_on.
  - cbn [foldr fmap list_fmap app]. apply filter_all. exact H.
  - eapply Forall_impl; [exact H|]. intros kv E. cbn in E. now rewrite E.
Qed.

Lemma entries_by_name (o : object DataColumn) :
  Forall (fun kv => name kv.2 = kv.1) o ->
  map (fun col => (name col, col)) (Object_values o) = o.
Proof.
  unfold Object_values. induction 1 as [|[k v] o Hkv Hall IH]; [reflexivity|].
  rewrite fmap_cons. cbn [map snd fst] in *. now rewrite IH, Hkv.
Qed.

(** The record that the insights rebuild from the columns of a dataset is
    the record that [detectColumnTypes] built. *)
Lemma columns_record_of_detect
  (Date_parse : string -> num) (Number_toString : num -> string)
  (first : row) (rest : list row) :
  NoDup (Object_keys first) ->
  Forall (fun k => array_index k = None) (Object_keys first) ->
  columns_record
    (Object_values (detectColumnTypes Date_parse Number_toString (first :: rest)))
  = detectColumnTypes Date_parse Number_toString (first :: rest).
Proof.
  intros Hnd Hidx.
  pose proof (detect_keys Date_parse Number_toString first rest Hnd) as Hk.
  pose proof (detect_names Date_parse Number_toString (first :: rest)) as Hn.
  set (o := detectColumnTypes Date_parse Number_toString (first :: rest)) in *.
  unfold columns_record, Object_fromEntries.
  rewrite (entries_by_name o Hn).
  rewrite (foldl_set_fresh o []) by (cbn [Object_keys fmap list_fmap app]; now rewrite Hk).
  cbn [app]. apply own_property_order_names. now rewrite Hk.
Qed.

End PipelineFacts.

(** From the upload to the panel: for a dataset that [processFile]
    resolved to, whose first row has no array index among its keys, the
    panel runs [findCorrelations] and [identifyOutliers] on the rows kept
    and on the record of columns that [detectColumnTypes] built from
    them, and it reports a trend for every pair of a date column and a
    numeric column of that record when there are five rows or more. *)
Theorem panel_analyses_the_detected_columns
  (Date_parse : string -> JS.num) (Number_toString : JS.num -> string)
  (parseCSV parseExcel : Upload.File -> Upload.settled (list JS.row))
  (count_text toLocaleString : nat -> string)
  (file : Upload.File) (data : list JS.row) (info : Insights.DatasetInfo) :
  Upload.processFile Date_parse Number_toString parseCSV parseExcel file
  = Upload.resolved (data, info) ->
  (forall first, head data = Some first ->
     NoDup (JS.Object_keys first)
     /\ Forall (fun k => Objects.array_index k = None) (JS.Object_keys first)) ->
  let columns := DataProcessing.detectColumnTypes Date_parse Number_toString data in
  let panel :=
    Insights.generateAIInsights Date_parse count_text toLocaleString
                                (Insights.data info) (Insights.columns info) in
  Insights.correlations panel = Analysis.findCorrelations data columns
  /\ Insights.outliers panel = Analysis.identifyOutliers data columns
  /\ map (fun t => (Insights.dateColumn t, Insights.valueColumn t))
         (Insights.timeTrends panel)
     = (if (length data <? 5)%nat then []
        else list_prod
               (Insights.names_of_type Types.datetime (JS.Object_values columns))
               (Insights.names_of_type Types.numeric (JS.Object_values columns))).
Proof.
  intros H Hfirst. cbv zeta.
  assert (Hinfo : Insights.data info = data
                  /\ Insights.columns info
                     = JS.Object_values
                         (DataProcessing.detectColumnTypes Date_parse Number_toString data)).
  { unfold Upload.processFile in H.
    destruct (if Upload.endsWith (Upload.file_name file) ".csv" then parseCSV file
              else if Upload.endsWith (Upload.file_name file) ".xlsx"
                      || Upload.endsWith (Upload.file_name file) ".xls"
                   then parseExcel file
                   else Upload.rejected Upload.unsupported) as [rows|e];
      [|discriminate H].
    injection H as <- <-. split; reflexivity. }
  destruct Hinfo as [-> ->].
  unfold Insights.generateAIInsights.
  cbn [Insights.correlations Insights.outliers Insights.timeTrends].
  assert (Hrec : Insights.columnsRecord
                   (JS.Object_values
                      (DataProcessing.detectColumnTypes Date_parse Number_toString data))
                 = DataProcessing.detectColumnTypes Date_parse Number_toString data).
  { rewrite columnsRecord_fromEntries.
    destruct data as [|first rest]; [reflexivity|].
    destruct (Hfirst first eq_refl) as [Hnd Hidx].
    now apply columns_record_of_detect. }
  rewrite Hrec. split; [reflexivity|]. split; [reflexivity|].
  destruct (Nat.ltb_spec (length data) 5) as [Hlen|Hlen].
  - now rewrite time_trends_few_rows.
  - now apply time_trends_enough_rows.
Qed.

Lemma generateInsights_few_rows_witness :
  length Examples.four_rows < 5
  /\ Insights.generateInsights Runtime.iso_date_parse Runtime.decimal_toString
       Examples.four_rows (Some (UploadExamples.describe Examples.four_rows))
     = Insights.no_insight.
Proof.
  assert (H : length Examples.four_rows < 5) by (vm_compute; lia).
  split; [exact H|].
  exact (generateInsights_few_rows Runtime.iso_date_parse Runtime.decimal_toString
           Examples.four_rows (Some (UploadExamples.describe Examples.four_rows)) H).
Defined.

Lemma generateInsights_no_numeric_column_witness :
  Insights.generateInsights Runtime.iso_date_parse Runtime.decimal_toString
    UploadExamples.cities (Some (UploadExamples.describe UploadExamples.cities))
  = Insights.no_insight.
Proof.
  apply generateInsights_no_numeric_column. vm_compute. reflexivity.
Defined.

Lemma strongest_correlation_is_recommended_witness :
  head (Insights.recommendations
          (Insights.generateInsights Runtime.iso_date_parse Runtime.decimal_toString
             Examples.three_columns
             (Some (UploadExamples.describe Examples.three_columns))))
  = Some {| Insights.rec_type := Insights.correlation_type;
            Insights.message :=
              "Consider creating a scatter plot to visualize the strong correlation between a and b."%string |}
  /\ Types.strength Examples.a_b_entry = Types.moderate.
Proof.
  assert (E : Insights.correlations
                (Insights.generateInsights Runtime.iso_date_parse
                   Runtime.decimal_toString Examples.three_columns
                   (Some (UploadExamples.describe Examples.three_columns)))
              = [Examples.a_b_entry; Examples.a_c_entry; Examples.b_c_entry])
    by by_evaluation.
  split; [|reflexivity].
  exact (proj1 (strongest_correlation_is_recommended Runtime.iso_date_parse
                  Runtime.decimal_toString Examples.three_columns
                  (UploadExamples.describe Examples.three_columns)
                  Examples.a_b_entry [Examples.a_c_entry; Examples.b_c_entry] E)).
Defined.


Lemma tsv_file_is_rejected_witness :
  Upload.endsWith (Upload.file_name UploadExamples.sales_tsv) ".tsv" = true
  /\ Upload.processFile Runtime.iso_date_parse Runtime.decimal_toString
       (UploadExamples.parses_to Examples.four_rows)
       (UploadExamples.parses_to Examples.four_rows) UploadExamples.sales_tsv
     = Upload.rejected Upload.unsupported.
Proof.
  assert (H : Upload.endsWith (Upload.file_name UploadExamples.sales_tsv) ".tsv" = true)
    by reflexivity.
  split; [exact H|].
  exact (proj1 (proj2 (tsv_file_is_rejected Runtime.iso_date_parse
                         Runtime.decimal_toString
                         (UploadExamples.parses_to Examples.four_rows)
                         (UploadExamples.parses_to Examples.four_rows)
                         unit unit UploadExamples.sales_tsv []
                         (Upload.initialState unit unit) H))).
Defined.

Lemma panel_analyses_the_detected_columns_witness :
  exists data info,
    UploadExamples.upload Examples.three_columns = Upload.resolved (data, info)
    /\ Insights.correlations
         (Insights.generateAIInsights Runtime.iso_date_parse
            UploadExamples.count_text UploadExamples.count_text
            (Insights.data info) (Insights.columns info))
       = Analysis.findCorrelations data (Examples.infer data).
Proof.
  eexists _, _.
  assert (E : UploadExamples.upload Examples.three_columns
              = Upload.resolved
                  (filter (fun r => Upload.has_content r = true) Examples.three_columns,
                   UploadExamples.describe
                     (filter (fun r => Upload.has_content r = true)
                             Examples.three_columns)))
    by reflexivity.
  split; [exact E|].
  refine (proj1 (panel_analyses_the_detected_columns _ _ _ _ _ _ _ _ _ E _)).
  intros first Hfirst. vm_compute in Hfirst. injection Hfirst as <-.
  split.
  - apply (bool_decide_unpack _). vm_compute. exact I.
  - repeat constructor.
Defined.

Section PanelFacts.
Import JS Types Analysis Objects Insights.

Lemma outlier_columns_head (data : list row) (columns : object DataColumn)
  (k : string) (ks : list string) :
  outlier_columns data columns = k :: ks ->
  is_Some (identifyOutliers data columns !! k).
Proof.
  intros E. apply outlier_columns_lookup. rewrite E. left.
Qed.

End PanelFacts.

(** The recommendations of the panel, in their order: one for the first
    trend exactly when a trend was found, whatever its change; one for
    the first correlation exactly when one was found; one for the
    outliers exactly when some column has an entry (the first key read
    from the outliers always has one); one for the volume exactly above
    1000 rows; and one or two for the types exactly when a numeric or a
    date column is missing. *)
Theorem panel_recommendation_types
  (Date_parse : string -> JS.num) (count_text toLocaleString : nat -> string)
  (data : list JS.row) (cols : list Types.DataColumn) :
  let panel :=
    Insights.generateAIInsights Date_parse count_text toLocaleString data cols in
  let types := map Insights.rec_type (Insights.recommendations panel) in
  types `sublist_of` [Insights.trend_type; Insights.correlation_type;
                      Insights.outlier_type; Insights.data_volume_type;
                      Insights.data_type_type; Insights.data_type_type]
  /\ (Insights.trend_type ∈ types <-> Insights.timeTrends panel <> [])
  /\ (Insights.correlation_type ∈ types <-> Insights.correlations panel <> [])
  /\ (Insights.outlier_type ∈ types <-> Insights.outliers panel <> ∅)
  /\ (Insights.data_volume_type ∈ types <-> 1000 < length data)
  /\ (Insights.data_type_type ∈ types
      <-> Insights.names_of_type Types.numeric cols = []
          \/ Insights.names_of_type Types.datetime cols = []).
Proof.
  cbv zeta. unfold Insights.generateAIInsights.
  cbn [Insights.recommendations Insights.timeTrends Insights.correlations
       Insights.outliers].
  set (record := Insights.columnsRecord cols).
  set (ts := Insights.time_trends Date_parse data _ _).
  set (cs := Analysis.findCorrelations data record).
  set (ns := Insights.names_of_type Types.numeric cols).
  set (ds := Insights.names_of_type Types.datetime cols).
  pose proof (outlier_columns_nil data record) as Hnil.
  pose proof (outlier_columns_head data record) as Hhead.
  set (ks := Insights.outlier_columns data record) in *.
  set (os := Analysis.identifyOutliers data record) in *.
  unfold Insights.panel_recommendations. rewrite !map_app.
  assert (Hos : os <> ∅ <-> ks <> []) by (now rewrite Hnil).
  rewrite Hos. clear Hos Hnil.
  assert (Hvol : 1000 < length data <-> (1000 <? length data)%nat = true)
    by (symmetry; apply Nat.ltb_lt).
  rewrite Hvol. clear Hvol.
  assert (Hns : ns = [] <-> (length ns =? 0)%nat = true).
  { rewrite Nat.eqb_eq. destruct ns; simpl; split; congruence. }
  assert (Hds : ds = [] <-> (length ds =? 0)%nat = true).
  { rewrite Nat.eqb_eq. destruct ds; simpl; split; congruence. }
  rewrite Hns, Hds. clear Hns Hds.
  destruct ks as [|k ks'].
  - clear Hhead. clearbody ts cs ns ds os.
    destruct ts as [|t ts], cs as [|c cs],
             (1000 <? length data)%nat, (length ns =? 0)%nat, (length ds =? 0)%nat;
      cbn [map app];
      (split; [solve [repeat first [apply sublist_nil_l | apply sublist_skip
                                   | apply sublist_cons]] |]);
      repeat split; intros; try tauto; try congruence; try (intuition congruence);
      try (repeat first [apply list_elem_of_here | apply list_elem_of_further]);
      try (exfalso;
           repeat match goal with
                  | H : _ ∈ _ :: _ |- _ =>
                      apply elem_of_cons in H as [H|H]; [discriminate H|]
                  | H : _ ∈ [] |- _ => inversion H
                  end).
  - destruct (Hhead k ks' eq_refl) as [info ->]. clear Hhead. clearbody ts cs ns ds.
    destruct ts as [|t ts], cs as [|c cs],
             (1000 <? length data)%nat, (length ns =? 0)%nat, (length ds =? 0)%nat;
      cbn [map app];
      (split; [solve [repeat first [apply sublist_nil_l | apply sublist_skip
                                   | apply sublist_cons]] |]);
      repeat split; intros; try tauto; try congruence; try (intuition congruence);
      try (repeat first [apply list_elem_of_here | apply list_elem_of_further]);
      try (exfalso;
           repeat match goal with
                  | H : _ ∈ _ :: _ |- _ =>
                      apply elem_of_cons in H as [H|H]; [discriminate H|]
                  | H : _ ∈ [] |- _ => inversion H
                  end).
Qed.

(** Clearing the data after an upload gives the initial state of the
    store, whatever the store held and however the upload ended. *)
Theorem clearData_after_upload
  (Date_parse : string -> JS.num) (Number_toString : JS.num -> string)
  (parseCSV parseExcel : Upload.File -> Upload.settled (list JS.row))
  (DataInsight ChartConfig : Type)
  (file : Upload.File) (others : list Upload.File)
  (state : Upload.DataState DataInsight ChartConfig) :
  Upload.reducer _ _
    (Upload.after_upload Date_parse Number_toString parseCSV parseExcel
                         DataInsight ChartConfig (file :: others) state)
    (Upload.clearData _ _)
  = Upload.initialState _ _.
Proof.
  unfold Upload.after_upload, Upload.handleUpload.
  destruct (Upload.processFile Date_parse Number_toString parseCSV parseExcel file)
    as [[data info]|e]; reflexivity.
Qed.
